(** * openclaw-cloudflare gateway: R2 mount controller and sync orchestrator

    A shallow embedding of [gateway/utils.ts] ([waitForProcess]),
    [gateway/r2.ts] ([probeMount], [lazyUnmountR2], [isMountPathInUseError],
    [mountR2Storage]) and [gateway/sync.ts] ([checkForActiveRsync],
    [ensureRsyncSuccess], [bestEffortKill], [syncToR2]).  The repository
    holds several drafts of these modules; the embedding follows the latest
    ones: the mount controller built on the filesystem-type probe, and the
    orchestrator with the dedup check, the workspace guard and the three
    staged copy passes.

    The sandbox is an external collaborator.  It is modelled as an oracle
    indexed by a logical clock that advances by one at every awaited sandbox
    interaction (process start, log fetch, sleep, mount call, process
    listing, kill).  A process handle's [status] and [exitCode] are live
    fields: they are functions of that clock, read synchronously at the
    current instant.  Every computation returns its outcome together with the
    chronological list of interactions it performed, so the clock after a
    computation is the clock before it plus the number of interactions.
    Quantifying over all oracles covers every behaviour of the sandbox,
    lagging statuses and rejected calls included.

    Every awaited sandbox call is taken to settle, by resolving or by
    rejecting.  The gateway sets no timer on these calls, so a call that
    never settles leaves it pending for ever; the interactions of such a run
    are the first ones of a run followed here, up to the pending call.

    A text is held as the bytes of its UTF-8 form, which is what a string
    literal denotes; white space is the set of ECMAScript ([WhiteSpace] and
    [LineTerminator], the set of [trim] and of [\s]), recognised by its byte
    sequences.  Milliseconds and exit codes are whole numbers; the module
    [JsUtils] gives [waitForProcess] on the other numbers that
    [Math.ceil(timeoutMs / pollIntervalMs)] tells apart (the infinities and
    NaN), fractional values are left out.

    Not modelled: [console.log] output and the in-memory event log of
    [createSyncLogger] (neither is read back by any control-flow decision);
    every thrown value is an [Error] with a message. *)

From Stdlib Require Import String Ascii List ZArith Lia Bool Arith.
From Stdlib Require Import DecimalString.
Import ListNotations.

Open Scope string_scope.

(** ** JavaScript string primitives used by the gateway *)

Module Js.

Definition chr (n : nat) : string := String (ascii_of_nat n) EmptyString.
Definition dq : string := chr 34.
Definition nl : string := chr 10.
Definition bsl : string := chr 92.

(** The white space of ECMAScript, [WhiteSpace] and [LineTerminator], by
    the bytes of each character: U+0009 to U+000D and U+0020; U+00A0;
    U+1680, U+2000 to U+200A, U+2028, U+2029, U+202F, U+205F, U+3000 and
    U+FEFF. *)
Definition bytes2 (a b : nat) : string := String (ascii_of_nat a) (chr b).
Definition bytes3 (a b c : nat) : string := String (ascii_of_nat a) (bytes2 b c).

Definition whiteSpaces1 : list string :=
  [ chr 9; chr 10; chr 11; chr 12; chr 13; chr 32 ].

Definition whiteSpaces2 : list string := [ bytes2 194 160 ].

Definition whiteSpaces3 : list string :=
  [ bytes3 225 154 128;
    bytes3 226 128 128; bytes3 226 128 129; bytes3 226 128 130;
    bytes3 226 128 131; bytes3 226 128 132; bytes3 226 128 133;
    bytes3 226 128 134; bytes3 226 128 135; bytes3 226 128 136;
    bytes3 226 128 137; bytes3 226 128 138;
    bytes3 226 128 168; bytes3 226 128 169; bytes3 226 128 175;
    bytes3 226 129 159;
    bytes3 227 128 128;
    bytes3 239 187 191 ].

Definition whiteSpaces : list string :=
  (whiteSpaces1 ++ whiteSpaces2 ++ whiteSpaces3)%list.

Definition among (l : list string) (w : string) : bool := existsb (String.eqb w) l.

(** A white-space character of one, two or three bytes. *)
Definition ws1 (a : ascii) : bool := among whiteSpaces1 (String a EmptyString).
Definition ws2 (a b : ascii) : bool :=
  among whiteSpaces2 (String a (String b EmptyString)).
Definition ws3 (a b c : ascii) : bool :=
  among whiteSpaces3 (String a (String b (String c EmptyString))).

Definition isDigit (c : ascii) : bool :=
  let n := nat_of_ascii c in ((48 <=? n) && (n <=? 57))%nat.

(** What follows the white-space character that [s] begins with, if it
    begins with one. *)
Definition leadWs (s : string) : option string :=
  match s with
  | String a s1 =>
      if ws1 a then Some s1
      else match s1 with
           | String b s2 =>
               if ws2 a b then Some s2
               else match s2 with
                    | String c s3 => if ws3 a b c then Some s3 else None
                    | EmptyString => None
                    end
           | EmptyString => None
           end
  | EmptyString => None
  end.

(** [s.trimStart()] *)
Fixpoint trimStart (s : string) : string :=
  match s with
  | String a s1 =>
      if ws1 a then trimStart s1
      else match s1 with
           | String b s2 =>
               if ws2 a b then trimStart s2
               else match s2 with
                    | String c s3 => if ws3 a b c then trimStart s3 else s
                    | EmptyString => s
                    end
           | EmptyString => s
           end
  | EmptyString => EmptyString
  end.

(** [s.trimEnd()]: the text up to the point from which only white space
    is left. *)
Fixpoint trimEnd (s : string) : string :=
  match s with
  | EmptyString => EmptyString
  | String a s1 =>
      match trimStart s with
      | EmptyString => EmptyString
      | _ => String a (trimEnd s1)
      end
  end.

(** [s.trim()] *)
Definition trim (s : string) : string := trimEnd (trimStart s).

(** [s.startsWith(p)] *)
Definition startsWith (p s : string) : bool := String.prefix p s.

(** [s.includes(needle)] *)
Fixpoint includes (needle s : string) : bool :=
  String.prefix needle s
  || match s with
     | EmptyString => false
     | String _ s' => includes needle s'
     end.

(** Truthiness of a string: only the empty string is falsy. *)
Definition truthy (s : string) : bool :=
  match s with EmptyString => false | _ => true end.

(** [a || b] on strings. *)
Definition orElse (a b : string) : string := if truthy a then a else b.

(** [s.split(/\s+/)]: [cur] is the piece being read, [inSep] tells that the
    previous character belonged to a separator run. *)
Definition endPiece (cur : string) (inSep : bool) : list string :=
  if inSep then [] else [cur].

Fixpoint splitWsFrom (cur : string) (inSep : bool) (s : string) : list string :=
  match s with
  | EmptyString => [cur]
  | String a s1 =>
      if ws1 a then (endPiece cur inSep ++ splitWsFrom EmptyString true s1)%list
      else match s1 with
           | String b s2 =>
               if ws2 a b
               then (endPiece cur inSep ++ splitWsFrom EmptyString true s2)%list
               else match s2 with
                    | String c s3 =>
                        if ws3 a b c
                        then (endPiece cur inSep
                              ++ splitWsFrom EmptyString true s3)%list
                        else splitWsFrom (cur ++ String a EmptyString) false s1
                    | EmptyString =>
                        splitWsFrom (cur ++ String a EmptyString) false s1
                    end
           | EmptyString => splitWsFrom (cur ++ String a EmptyString) false s1
           end
  end.

Definition splitWs (s : string) : list string := splitWsFrom EmptyString false s.

(** [/^\d{4}-\d{2}-\d{2}/.test(s)] *)
Definition matchesDatePrefix (s : string) : bool :=
  match s with
  | String y1 (String y2 (String y3 (String y4 (String d1
    (String m1 (String m2 (String d2 (String a1 (String a2 _))))))))) =>
      isDigit y1 && isDigit y2 && isDigit y3 && isDigit y4
      && Ascii.eqb d1 "-"%char
      && isDigit m1 && isDigit m2
      && Ascii.eqb d2 "-"%char
      && isDigit a1 && isDigit a2
  | _ => false
  end.

(** [String(n)] for a whole number below 10^21 in absolute value, which
    JavaScript prints in decimal digits; from 10^21 on it prints an
    exponent, which is left out: the gateway prints its time-outs of 5000 to
    600000 ms. *)
Definition ofZ (z : Z) : string := NilZero.string_of_int (Z.to_int z).

(** A number, as far as a division followed by [Math.ceil] tells numbers
    apart: a whole number, an infinity or NaN. *)
Inductive Number : Type :=
| Whole (z : Z)
| Infinity
| NegInfinity
| NotANumber.

(** [String(n)] *)
Definition ofNumber (n : Number) : string :=
  match n with
  | Whole z => ofZ z
  | Infinity => "Infinity"
  | NegInfinity => "-Infinity"
  | NotANumber => "NaN"
  end.

Definition hexDigit (n : nat) : string :=
  chr (if (n <? 10)%nat then 48 + n else 87 + n).

(** One character of [JSON.stringify] applied to a string. *)
Definition jsonEscape (c : ascii) : string :=
  let n := nat_of_ascii c in
  if (n =? 34)%nat then bsl ++ dq
  else if (n =? 92)%nat then bsl ++ bsl
  else if (n =? 8)%nat then bsl ++ "b"
  else if (n =? 12)%nat then bsl ++ "f"
  else if (n =? 10)%nat then bsl ++ "n"
  else if (n =? 13)%nat then bsl ++ "r"
  else if (n =? 9)%nat then bsl ++ "t"
  else if (n <? 32)%nat then
    bsl ++ "u00" ++ hexDigit (n / 16) ++ hexDigit (n mod 16)
  else String c EmptyString.

Fixpoint jsonBody (s : string) : string :=
  match s with
  | EmptyString => EmptyString
  | String c s' => jsonEscape c ++ jsonBody s'
  end.

(** [JSON.stringify(s)] for a string [s]. *)
Definition jsonStringify (s : string) : string := dq ++ jsonBody s ++ dq.

(** [parts.filter(Boolean).join('\n')] *)
Fixpoint joinLines (parts : list string) : string :=
  match parts with
  | [] => EmptyString
  | [p] => p
  | p :: rest => p ++ nl ++ joinLines rest
  end.

Definition filterTruthy (parts : list string) : list string :=
  filter truthy parts.

End Js.

(** ** Errors, process handles and the sandbox *)

(** Thrown conditions.  [TimeoutError] is the [Error] built by
    [waitForProcess] ([TimeoutErrorAt] when its timeout is not a whole
    number); [VerifyTimeout] the one built in [syncToR2] when no
    sentinel shows up; [SandboxError] any rejection coming from the sandbox,
    with its message. *)
Inductive Error : Type :=
| TimeoutError (timeoutMs : Z) (status : string)
| TimeoutErrorAt (timeoutMs : Js.Number) (status : string)
| VerifyTimeout (status stdout stderr : string)
| SandboxError (msg : string).

(** [err.message] *)
Definition message (e : Error) : string :=
  match e with
  | TimeoutError timeoutMs status =>
      "Process timed out after " ++ Js.ofZ timeoutMs ++ "ms (status=" ++ status ++ ")"
  | TimeoutErrorAt timeoutMs status =>
      "Process timed out after " ++ Js.ofNumber timeoutMs
      ++ "ms (status=" ++ status ++ ")"
  | VerifyTimeout status stdout stderr =>
      "Timed out waiting for source verification output (status=" ++ status
      ++ "). stdout=" ++ Js.jsonStringify stdout
      ++ " stderr=" ++ Js.jsonStringify stderr
  | SandboxError msg => msg
  end.

(** Settled promise of a sandbox call. *)
Inductive Reply (A : Type) : Type :=
| Resolved (a : A)
| Rejected (e : Error).
Arguments Resolved {A} a.
Arguments Rejected {A} e.

Record Logs : Type := mkLogs { stdout : string; stderr : string }.

Definition noLogs : Logs := mkLogs EmptyString EmptyString.

(** A handle returned by [sandbox.startProcess].  [status] and [exitCode] are
    live fields, [getLogs] and [kill] are remote calls; all depend on the
    instant at which they are read or issued.  [kill = None] stands for a
    handle without a [kill] method. *)
Record Process : Type := mkProcess {
  procId : string;
  status : nat -> string;
  exitCode : nat -> option Z;
  getLogs : nat -> Reply Logs;
  kill : option (nat -> Reply unit)
}.

(** An entry of [sandbox.listProcesses()], as read right after the call. *)
Record ProcessInfo : Type := mkProcessInfo {
  infoId : option string;
  infoStatus : option string;
  infoCommand : option string
}.

Record MountOptions : Type := mkMountOptions {
  endpoint : string;
  accessKeyId : string;
  secretAccessKey : string
}.

Record Sandbox : Type := mkSandbox {
  startProcess : nat -> string -> Reply Process;
  mountBucket : nat -> string -> string -> MountOptions -> Reply unit;
  listProcesses : nat -> Reply (list ProcessInfo)
}.

(** Interactions with the sandbox, in the order they are awaited.  A sleep
    is recorded with the delay handed to [setTimeout]. *)
Inductive Event : Type :=
| EStart (cmd : string)
| ESleep (ms : Z)
| EGetLogs (proc : string)
| EKill (proc : string)
| EMount (bucket path : string) (opts : MountOptions)
| EList.

(** ** The effect monad: outcome and emitted interactions, from a start instant *)

Inductive Outcome (A : Type) : Type :=
| Ok (a : A)
| Throw (e : Error)
| OutOfFuel.
Arguments Ok {A} a.
Arguments Throw {A} e.
Arguments OutOfFuel {A}.

Definition M (A : Type) : Type := nat -> Outcome A * list Event.

Definition ret {A} (a : A) : M A := fun _ => (Ok a, []).

Definition throw {A} (e : Error) : M A := fun _ => (Throw e, []).

Definition bind {A B} (m : M A) (f : A -> M B) : M B :=
  fun t =>
    match m t with
    | (Ok a, e1) => let (r, e2) := f a (t + length e1)%nat in (r, (e1 ++ e2)%list)
    | (Throw e, e1) => (Throw e, e1)
    | (OutOfFuel, e1) => (OutOfFuel, e1)
    end.

(** [try { m } catch (err) { h err }] *)
Definition catch {A} (m : M A) (h : Error -> M A) : M A :=
  fun t =>
    match m t with
    | (Throw e, e1) => let (r, e2) := h e (t + length e1)%nat in (r, (e1 ++ e2)%list)
    | other => other
    end.

(** The current instant, for reading a live field. *)
Definition now : M nat := fun t => (Ok t, []).

(** An awaited sandbox call: one interaction, answered at the instant of the
    call. *)
Definition await {A} (ev : Event) (reply : nat -> Reply A) : M A :=
  fun t =>
    match reply t with
    | Resolved a => (Ok a, [ev])
    | Rejected e => (Throw e, [ev])
    end.

(** [await new Promise(r => setTimeout(r, ms))] *)
Definition sleep (ms : Z) : M unit := await (ESleep ms) (fun _ => Resolved tt).

Declare Scope m_scope.
Delimit Scope m_scope with m.
Notation "x <- c1 ;; c2" := (bind c1 (fun x => c2))
  (at level 61, c1 at next level, right associativity) : m_scope.
Notation "c1 ;; c2" := (bind c1 (fun _ => c2))
  (at level 61, right associativity) : m_scope.
Open Scope m_scope.

(** ** gateway/utils.ts *)

Module Utils.

(** The value of [Math.ceil(timeoutMs / pollIntervalMs)]. *)
Inductive Bound : Type :=
| Finite (n : Z)
| PosInf
| NegInf
| NaN.

Definition maxAttempts (timeoutMs pollIntervalMs : Z) : Bound :=
  if (pollIntervalMs =? 0)%Z then
    if (0 <? timeoutMs)%Z then PosInf
    else if (timeoutMs <? 0)%Z then NegInf
    else NaN
  else Finite (- ((- timeoutMs) / pollIntervalMs))%Z.

(** [attempts < maxAttempts] *)
Definition below (attempts : Z) (b : Bound) : bool :=
  match b with
  | Finite n => (attempts <? n)%Z
  | PosInf => true
  | NegInf | NaN => false
  end.

(** [status === 'starting' || status === 'running'] *)
Definition active (status : string) : bool :=
  (status =? "starting") || (status =? "running").

(** The [while] loop of [waitForProcess]; [fuel] bounds the number of
    sleeps the model is willing to follow. *)
Fixpoint waitLoop (fuel : nat) (proc : Process) (pollIntervalMs : Z)
    (bound : Bound) (attempts : Z) : M unit :=
  fun t =>
    if active (status proc t) && below attempts bound then
      match fuel with
      | O => (OutOfFuel, [])
      | S fuel' =>
          (sleep pollIntervalMs ;;
           waitLoop fuel' proc pollIntervalMs bound (attempts + 1)%Z) t
      end
    else (Ok tt, []).

Definition waitForProcess (fuel : nat) (proc : Process)
    (timeoutMs pollIntervalMs : Z) : M unit :=
  waitLoop fuel proc pollIntervalMs (maxAttempts timeoutMs pollIntervalMs) 0%Z ;;
  t <- now ;;
  if active (status proc t) then throw (TimeoutError timeoutMs (status proc t))
  else ret tt.

(** Default of [pollIntervalMs]. *)
Definition defaultPollIntervalMs : Z := 500%Z.

(** Total time spent in poll sleeps. *)
Fixpoint polledMs (evs : list Event) : Z :=
  match evs with
  | [] => 0%Z
  | ESleep ms :: evs' => (ms + polledMs evs')%Z
  | _ :: evs' => polledMs evs'
  end.

Definition sleeps (evs : list Event) : nat :=
  length (filter (fun e => match e with ESleep _ => true | _ => false end) evs).

(** Number of polls allowed by a positive interval:
    [Math.ceil(timeoutMs / pollIntervalMs)] as a natural number. *)
Definition polls (timeoutMs pollIntervalMs : Z) : nat :=
  Z.to_nat (- ((- timeoutMs) / pollIntervalMs)).

End Utils.

(** Number of poll sleeps the model follows at a call site of the gateway.
    The longest bounded wait there is [DEFAULT_SYNC_TIMEOUT_MS / 500 = 1200]
    sleeps, so no call site runs out of it. *)
Definition callFuel : nat := 1200.

(** [sandbox.startProcess(cmd)] and [proc.getLogs()] as awaited calls. *)
Definition start (sb : Sandbox) (cmd : string) : M Process :=
  await (EStart cmd) (fun t => startProcess sb t cmd).

Definition fetchLogs (proc : Process) : M Logs :=
  await (EGetLogs (procId proc)) (getLogs proc).

(** [proc.getLogs().catch(() => ({ stdout: '', stderr: '' }))] *)
Definition fetchLogsOrEmpty (proc : Process) : M Logs :=
  catch (fetchLogs proc) (fun _ => ret noLogs).

(** [waitForProcess(proc, timeoutMs, pollIntervalMs).catch(() => {})] *)
Definition waitBestEffort (proc : Process) (timeoutMs pollIntervalMs : Z) : M unit :=
  catch (Utils.waitForProcess callFuel proc timeoutMs pollIntervalMs)
        (fun _ => ret tt).

(** Worker environment bindings read by the gateway. *)
Record OpenClawEnv : Type := mkEnv {
  R2_ACCESS_KEY_ID : option string;
  R2_SECRET_ACCESS_KEY : option string;
  CF_ACCOUNT_ID : option string
}.

Record Credentials : Type := mkCredentials {
  credAccessKeyId : string;
  credSecretAccessKey : string;
  credAccountId : string
}.

(** The guard [!env.R2_ACCESS_KEY_ID || !env.R2_SECRET_ACCESS_KEY ||
    !env.CF_ACCOUNT_ID]: [None] when it fires, the three truthy values
    otherwise. *)
Definition credentials (env : OpenClawEnv) : option Credentials :=
  match R2_ACCESS_KEY_ID env, R2_SECRET_ACCESS_KEY env, CF_ACCOUNT_ID env with
  | Some k, Some s, Some a =>
      if Js.truthy k && Js.truthy s && Js.truthy a
      then Some (mkCredentials k s a) else None
  | _, _, _ => None
  end.

(** ** gateway/r2.ts *)

Module R2.
Section WithConfig.

(** Constants of [../config], which is not part of the sources at hand. *)
Variables (R2_MOUNT_PATH R2_BUCKET_NAME : string).

Inductive MountProbe : Type :=
| Mounted (fsType : string)
| NotMounted (fsType : string)
| Unresponsive.

Definition probeCmd : string :=
  "sh -lc 'stat -f -c %T " ++ Js.dq ++ R2_MOUNT_PATH ++ Js.dq
  ++ " 2>/dev/null || echo " ++ Js.dq ++ "__ERR__" ++ Js.dq ++ "'".

(** [(logs.stdout || '').trim().split(/\s+/)[0] || ''] *)
Definition fsTypeOf (out : string) : string :=
  Js.orElse (hd EmptyString (Js.splitWs (Js.trim out))) EmptyString.

(** The classification at the end of [probeMount]. *)
Definition classify (fsType : string) : MountProbe :=
  if negb (Js.truthy fsType) || (fsType =? "__ERR__")
  then NotMounted (Js.orElse fsType "__ERR__")
  else if Js.startsWith "fuse" fsType then Mounted fsType
  else NotMounted fsType.

Definition probeMount (sb : Sandbox) : M MountProbe :=
  proc <- start sb probeCmd ;;
  settled <- catch (Utils.waitForProcess callFuel proc 5000 200 ;; ret true)
                   (fun _ => ret false) ;;
  if settled then
    logs <- fetchLogsOrEmpty proc ;;
    ret (classify (fsTypeOf (stdout logs)))
  else ret Unresponsive.

Definition lazyUnmountCmd : string :=
  "sh -lc " ++ Js.dq
  ++ "umount -l '" ++ R2_MOUNT_PATH ++ "' 2>/dev/null || "
  ++ "fusermount -uz '" ++ R2_MOUNT_PATH ++ "' 2>/dev/null || "
  ++ "fusermount -u '" ++ R2_MOUNT_PATH ++ "' 2>/dev/null || true" ++ Js.dq.

Definition lazyUnmountR2 (sb : Sandbox) : M unit :=
  proc <- start sb lazyUnmountCmd ;;
  waitBestEffort proc 5000 200.

Definition isMountPathInUseError (errorMessage : string) : bool :=
  Js.includes "InvalidMountConfigError" errorMessage
  && Js.includes "Mount path" errorMessage
  && Js.includes "already in use" errorMessage.

Definition mountOptions (c : Credentials) : MountOptions :=
  mkMountOptions
    ("https://" ++ credAccountId c ++ ".r2.cloudflarestorage.com")
    (credAccessKeyId c) (credSecretAccessKey c).

Definition mountEvent (c : Credentials) : Event :=
  EMount R2_BUCKET_NAME R2_MOUNT_PATH (mountOptions c).

(** [await sandbox.mountBucket(R2_BUCKET_NAME, R2_MOUNT_PATH, {...})] *)
Definition callMountBucket (sb : Sandbox) (c : Credentials) : M unit :=
  await (mountEvent c)
    (fun t => mountBucket sb t R2_BUCKET_NAME R2_MOUNT_PATH (mountOptions c)).

(** The [catch (err)] block of [mountR2Storage]. *)
Definition onMountError (sb : Sandbox) (c : Credentials) (err : Error) : M bool :=
  if isMountPathInUseError (message err) then
    probe <- probeMount sb ;;
    match probe with
    | Mounted _ => ret true
    | Unresponsive =>
        lazyUnmountR2 sb ;;
        catch (callMountBucket sb c ;; ret true) (fun _ => ret false)
    | NotMounted _ => ret false
    end
  else ret false.

(** What follows an initial probe that is not [Mounted]: an unresponsive
    mount is lazily unmounted first. *)
Definition recoverIfUnresponsive (sb : Sandbox) (probe : MountProbe) : M unit :=
  match probe with
  | Unresponsive => lazyUnmountR2 sb
  | _ => ret tt
  end.

Definition mountR2Storage (sb : Sandbox) (env : OpenClawEnv) : M bool :=
  match credentials env with
  | None => ret false
  | Some c =>
      initialProbe <- probeMount sb ;;
      match initialProbe with
      | Mounted _ => ret true
      | _ =>
          recoverIfUnresponsive sb initialProbe ;;
          catch (callMountBucket sb c ;; ret true) (onMountError sb c)
      end
  end.

End WithConfig.
End R2.

(** ** gateway/sync.ts *)

Module Sync.
Section WithConfig.

Variables (R2_MOUNT_PATH R2_BUCKET_NAME : string).

Record SyncResult : Type := mkResult {
  success : bool;
  lastSync : option string;
  error : option string;
  details : option string
}.

Definition DEFAULT_SYNC_TIMEOUT_MS : Z := (10 * 60 * 1000)%Z.
Definition OPENCLAW_CONFIG_DIR : string := "/root/.openclaw".
Definition OPENCLAW_WORKSPACE_DIR : string := "/root/openclaw".

Definition failure (err : string) (det : option string) : SyncResult :=
  mkResult false None (Some err) det.

(** [bestEffortKill]: a handle without [kill] is left alone, a rejected
    [kill] is swallowed. *)
Definition bestEffortKill (proc : Process) : M unit :=
  match kill proc with
  | None => ret tt
  | Some k => catch (await (EKill (procId proc)) k) (fun _ => ret tt)
  end.

(** The predicate of [processes.find(...)] in [checkForActiveRsync]. *)
Definition isActiveRsync (p : ProcessInfo) : bool :=
  match infoStatus p with
  | None => false
  | Some st =>
      if Utils.active st then
        let command :=
          match infoCommand p with Some c => c | None => EmptyString end in
        Js.includes "rsync" command && Js.includes R2_MOUNT_PATH command
      else false
  end.

Definition skippedDetails (p : ProcessInfo) : string :=
  "Skipped: another rsync appears to be running"
  ++ match infoId p with
     | Some id => if Js.truthy id then " (id=" ++ id ++ ")" else EmptyString
     | None => EmptyString
     end
  ++ ".".

(** Returns [(hasActive, details)]. *)
Definition checkForActiveRsync (sb : Sandbox) : M (bool * option string) :=
  catch
    (processes <- await EList (listProcesses sb) ;;
     match find isActiveRsync processes with
     | None => ret (false, None)
     | Some p => ret (true, Some (skippedDetails p))
     end)
    (fun _ => ret (false, None)).

(** The test of [ensureRsyncSuccess] on the fields read at instant [t]. *)
Definition rsyncFailed (proc : Process) (t : nat) : bool :=
  (status proc t =? "failed")
  || match exitCode proc t with
     | Some n => negb (n =? 0)%Z
     | None => false
     end.

Definition ensureRsyncSuccess (proc : Process) (which : string)
  : M (option SyncResult) :=
  t <- now ;;
  if rsyncFailed proc t then
    logs <- fetchLogsOrEmpty proc ;;
    ret (Some (failure "Sync failed"
      (Some (Js.trim
        (Js.orElse (stderr logs)
          (Js.orElse (stdout logs)
            ("rsync failed (" ++ which ++ ") exitCode="
             ++ match exitCode proc t with
                | Some n => Js.ofZ n
                | None => "unknown"
                end)))))))
  else ret None.

Definition verifyCmd : string :=
  "sh -lc '"
  ++ "if test -f " ++ Js.dq ++ OPENCLAW_CONFIG_DIR ++ "/openclaw.json" ++ Js.dq
  ++ "; then echo " ++ Js.dq ++ "__OK__" ++ Js.dq
  ++ "; else echo " ++ Js.dq ++ "__MISSING__" ++ Js.dq ++ "; fi; "
  ++ "if test -d " ++ Js.dq ++ OPENCLAW_WORKSPACE_DIR ++ Js.dq
  ++ " && test -n " ++ Js.dq ++ "$(ls -A " ++ Js.dq ++ OPENCLAW_WORKSPACE_DIR
  ++ Js.dq ++ " 2>/dev/null)" ++ Js.dq
  ++ "; then echo " ++ Js.dq ++ "__WORKSPACE_LOCAL_NONEMPTY__" ++ Js.dq
  ++ "; else echo " ++ Js.dq ++ "__WORKSPACE_LOCAL_EMPTY__" ++ Js.dq ++ "; fi; "
  ++ "if test -d " ++ Js.dq ++ R2_MOUNT_PATH ++ "/workspace" ++ Js.dq
  ++ " && test -n " ++ Js.dq ++ "$(ls -A " ++ Js.dq ++ R2_MOUNT_PATH
  ++ "/workspace" ++ Js.dq ++ " 2>/dev/null)" ++ Js.dq
  ++ "; then echo " ++ Js.dq ++ "__WORKSPACE_REMOTE_NONEMPTY__" ++ Js.dq
  ++ "; else echo " ++ Js.dq ++ "__WORKSPACE_REMOTE_EMPTY__" ++ Js.dq ++ "; fi"
  ++ "'".

Definition rsyncCommonFlags : string :=
  "-r --no-times --delete --info=progress2 --stats --human-readable "
  ++ "--exclude='*.lock' --exclude='*.log' --exclude='*.tmp'".

Definition syncOpenclawCmd : string :=
  "rsync " ++ rsyncCommonFlags ++ " " ++ OPENCLAW_CONFIG_DIR ++ "/ "
  ++ R2_MOUNT_PATH ++ "/openclaw/".

Definition syncWorkspaceCmd : string :=
  "rsync " ++ rsyncCommonFlags ++ " --exclude='skills/' "
  ++ OPENCLAW_WORKSPACE_DIR ++ "/ " ++ R2_MOUNT_PATH ++ "/workspace/".

Definition syncSkillsCmd : string :=
  "rsync " ++ rsyncCommonFlags ++ " " ++ OPENCLAW_WORKSPACE_DIR ++ "/skills/ "
  ++ R2_MOUNT_PATH ++ "/skills/".

Definition writeTimestampCmd : string :=
  "sh -lc 'date -Iseconds > " ++ R2_MOUNT_PATH ++ "/.last-sync'".

Definition readTimestampCmd : string :=
  "sh -lc 'for i in $(seq 1 40); do if test -f " ++ Js.dq ++ R2_MOUNT_PATH
  ++ "/.last-sync" ++ Js.dq ++ "; then cat " ++ Js.dq ++ R2_MOUNT_PATH
  ++ "/.last-sync" ++ Js.dq ++ "; exit 0; fi; sleep 0.25; done; echo "
  ++ Js.dq ++ "__MISSING__" ++ Js.dq ++ "'".

Definition diagCmd : string :=
  "sh -lc " ++ Js.dq
  ++ "echo '[diag] mount:' && mount | grep s3fs || true; "
  ++ "echo '[diag] r2_path:' && ls -la " ++ R2_MOUNT_PATH ++ " || true; "
  ++ "echo '[diag] openclaw_src:' && ls -la " ++ OPENCLAW_CONFIG_DIR ++ " || true; "
  ++ "echo '[diag] workspace_src:' && ls -la " ++ OPENCLAW_WORKSPACE_DIR ++ " || true; "
  ++ "echo '[diag] skills_src:' && ls -la " ++ OPENCLAW_WORKSPACE_DIR
  ++ "/skills || true" ++ Js.dq.

(** The [for (let i = 0; i < 50; i++)] loop polling the verification logs;
    [n] is the number of iterations left, [out] and [err] the current
    [stdout] and [stderr]. *)
Fixpoint pollVerifyLogs (checkProc : Process) (n : nat) (out err : string)
  : M (string * string) :=
  match n with
  | O => ret (out, err)
  | S n' =>
      logs <- fetchLogsOrEmpty checkProc ;;
      if Js.includes "__OK__" (stdout logs)
         || Js.includes "__MISSING__" (stdout logs)
      then ret (stdout logs, stderr logs)
      else sleep 100 ;; pollVerifyLogs checkProc n' (stdout logs) (stderr logs)
  end.

Definition missingResult : SyncResult :=
  failure "Sync aborted: source missing openclaw.json"
    (Some ("The local config directory is missing critical files. "
           ++ "This could indicate corruption or an incomplete setup.")).

Definition localEmptyResult : SyncResult :=
  failure "Sync aborted: local workspace appears empty"
    (Some ("The workspace directory is empty, but an existing workspace backup was found in R2. "
           ++ "Aborting to avoid overwriting memory/bootstrap files with an empty workspace.")).

(** The decisions taken on the verification output. [None]: go on. *)
Definition judgeVerify (checkProc : Process) (out err : string)
  : M (option SyncResult) :=
  if Js.includes "__MISSING__" out then ret (Some missingResult)
  else if Js.includes "__WORKSPACE_REMOTE_NONEMPTY__" out
          && Js.includes "__WORKSPACE_LOCAL_EMPTY__" out
  then ret (Some localEmptyResult)
  else if negb (Js.includes "__OK__" out) then
    t <- now ;;
    throw (VerifyTimeout (status checkProc t) (Js.trim out) (Js.trim err))
  else ret None.

(** The first [try] block of [syncToR2] (source sanity check). *)
Definition verifySource (sb : Sandbox) : M (option SyncResult) :=
  catch
    (checkProc <- start sb verifyCmd ;;
     waitBestEffort checkProc 10000 200 ;;
     polled <- pollVerifyLogs checkProc 50 EmptyString EmptyString ;;
     judgeVerify checkProc (fst polled) (snd polled))
    (fun err =>
       ret (Some (failure "Failed to verify source files" (Some (message err))))).

(** The wait of a copy pass: on a timeout, fetch the logs, try to kill the
    process and re-throw. *)
Definition waitOrKill (proc : Process) : M unit :=
  catch
    (Utils.waitForProcess callFuel proc DEFAULT_SYNC_TIMEOUT_MS
       Utils.defaultPollIntervalMs)
    (fun e =>
       fetchLogsOrEmpty proc ;;
       bestEffortKill proc ;;
       throw e).

(** The [else] branch taken when the marker could not be verified. *)
Definition markerUnverified (sb : Sandbox) (proc : Process) : M SyncResult :=
  logs <- fetchLogs proc ;;
  diagProc <- start sb diagCmd ;;
  waitBestEffort diagProc 5000 200 ;;
  diagLogs <- fetchLogsOrEmpty diagProc ;;
  ret (failure "Sync failed"
    (Some (Js.joinLines (Js.filterTruthy
      [ Js.orElse (stderr logs)
          (Js.orElse (stdout logs) "No timestamp file created");
        Js.trim (stdout diagLogs);
        Js.trim (stderr diagLogs) ])))).

(** [out && out !== '__MISSING__' ? out : undefined] *)
Definition lastSyncOf (out : string) : option string :=
  if Js.truthy out && negb (out =? "__MISSING__") then Some out else None.

(** Marker write and read-back, after the three copy passes; [proc] is the
    handle of the first copy pass. *)
Definition writeAndVerifyMarker (sb : Sandbox) (proc : Process) : M SyncResult :=
  writeProc <- start sb writeTimestampCmd ;;
  Utils.waitForProcess callFuel writeProc 15000 Utils.defaultPollIntervalMs ;;
  timestampProc <- start sb readTimestampCmd ;;
  Utils.waitForProcess callFuel timestampProc 15000 Utils.defaultPollIntervalMs ;;
  timestampLogs <- fetchLogs timestampProc ;;
  match lastSyncOf (Js.trim (stdout timestampLogs)) with
  | Some ls =>
      if Js.matchesDatePrefix ls
      then ret (mkResult true (Some ls) None None)
      else markerUnverified sb proc
  | None => markerUnverified sb proc
  end.

(** The second [try] block of [syncToR2]. *)
Definition replicate (sb : Sandbox) : M SyncResult :=
  catch
    (proc <- start sb syncOpenclawCmd ;;
     waitOrKill proc ;;
     openclawResult <- ensureRsyncSuccess proc "openclaw" ;;
     match openclawResult with
     | Some r => ret r
     | None =>
     workspaceProc <- start sb syncWorkspaceCmd ;;
     waitOrKill workspaceProc ;;
     workspaceResult <- ensureRsyncSuccess workspaceProc "workspace" ;;
     match workspaceResult with
     | Some r => ret r
     | None =>
     skillsProc <- start sb syncSkillsCmd ;;
     waitOrKill skillsProc ;;
     skillsResult <- ensureRsyncSuccess skillsProc "skills" ;;
     match skillsResult with
     | Some r => ret r
     | None => writeAndVerifyMarker sb proc
     end end end)
    (fun err => ret (failure "Sync error" (Some (message err)))).

Definition syncToR2 (sb : Sandbox) (env : OpenClawEnv) : M SyncResult :=
  match credentials env with
  | None => ret (failure "R2 storage is not configured" None)
  | Some _ =>
      mounted <- R2.mountR2Storage R2_MOUNT_PATH R2_BUCKET_NAME sb env ;;
      if negb mounted then ret (failure "Failed to mount R2 storage" None)
      else
        activeRsync <- checkForActiveRsync sb ;;
        if fst activeRsync then ret (mkResult true None None (snd activeRsync))
        else
          verdict <- verifySource sb ;;
          match verdict with
          | Some r => ret r
          | None => replicate sb
          end
  end.

End WithConfig.
End Sync.

(** ** [waitForProcess] on any number *)

(** [gateway/utils.ts] declares [timeoutMs] and [pollIntervalMs] as
    numbers.  The gateway itself passes whole numbers of milliseconds, on
    which [waitForProcess] is [Utils.waitForProcess]; this module follows the
    same code on the infinities and on NaN as well. *)
Module JsUtils.
Import Js.

(** [Math.ceil(timeoutMs / pollIntervalMs)].  A whole zero is the positive
    zero; a finite number divided by an infinity is a zero. *)
Definition maxAttempts (timeoutMs pollIntervalMs : Number) : Utils.Bound :=
  match timeoutMs, pollIntervalMs with
  | Whole a, Whole b => Utils.maxAttempts a b
  | Whole _, Infinity => Utils.Finite 0
  | Whole _, NegInfinity => Utils.Finite 0
  | Infinity, Whole b => if (0 <=? b)%Z then Utils.PosInf else Utils.NegInf
  | NegInfinity, Whole b => if (0 <=? b)%Z then Utils.NegInf else Utils.PosInf
  | Infinity, Infinity => Utils.NaN
  | Infinity, NegInfinity => Utils.NaN
  | NegInfinity, Infinity => Utils.NaN
  | NegInfinity, NegInfinity => Utils.NaN
  | NotANumber, _ => Utils.NaN
  | _, NotANumber => Utils.NaN
  end.

(** The delay of [setTimeout(r, pollIntervalMs)]; a delay that is not
    finite counts as zero. *)
Definition delayMs (pollIntervalMs : Number) : Z :=
  match pollIntervalMs with
  | Whole z => z
  | _ => 0%Z
  end.

(** [new Error(`Process timed out after ${timeoutMs}ms (status=...)`)] *)
Definition timeoutError (timeoutMs : Number) (status : string) : Error :=
  match timeoutMs with
  | Whole z => TimeoutError z status
  | _ => TimeoutErrorAt timeoutMs status
  end.

Definition waitForProcess (fuel : nat) (proc : Process)
    (timeoutMs pollIntervalMs : Number) : M unit :=
  Utils.waitLoop fuel proc (delayMs pollIntervalMs)
    (maxAttempts timeoutMs pollIntervalMs) 0%Z ;;
  t <- now ;;
  if Utils.active (status proc t)
  then throw (timeoutError timeoutMs (status proc t))
  else ret tt.

(** A whole number that a JavaScript number holds exactly.  For two such
    numbers [a] and [b > 0] the rounded quotient has the ceiling of the true
    one: with [a = n * b + r] and [0 < r < b], the doubles next to [n] are
    less than [2 / b] apart, so the quotient, [r / b] above [n], is not
    rounded down to [n].  So [Math.ceil(a / b)] is the ceiling of the whole
    numbers. *)
Definition exact (z : Z) : Prop := (Z.abs z < 2 ^ 53)%Z.

End JsUtils.

(** * Vocabulary of the statements *)

(** The bounded waits of the gateway: a positive interval and at most
    [callFuel] polls. *)
Definition callSite (timeoutMs pollIntervalMs : Z) : Prop :=
  (0 < pollIntervalMs)%Z /\ (Utils.polls timeoutMs pollIntervalMs <= callFuel)%nat.

(** The logs obtained by [getLogs().catch(() => ({ stdout: '', stderr: '' }))]
    at instant [t]: a failed fetch counts as empty output. *)
Definition logsOrEmpty (proc : Process) (t : nat) : Logs :=
  match getLogs proc t with
  | Resolved l => l
  | Rejected _ => noLogs
  end.

(** A binding that is missing or empty, hence falsy. *)
Definition absent (v : option string) : Prop :=
  v = None \/ v = Some EmptyString.

(** Number of [mountBucket] calls among some interactions. *)
Fixpoint mountCalls (evs : list Event) : nat :=
  match evs with
  | [] => 0
  | EMount _ _ _ :: evs' => S (mountCalls evs')
  | _ :: evs' => mountCalls evs'
  end.

(** The commands started, in order. *)
Fixpoint started (evs : list Event) : list string :=
  match evs with
  | [] => []
  | EStart cmd :: evs' => cmd :: started evs'
  | _ :: evs' => started evs'
  end.

(** Stages of the replication, and what is stated about them. *)
Module Stages.
Section SyncVocabulary.

Variables (R2_MOUNT_PATH : string).

(** A copy pass is a process running [rsync]. *)
Definition isCopyPass (cmd : string) : bool := Js.startsWith "rsync " cmd.

(** The replication stages: the copy passes and the marker write. *)
Definition isStage (cmd : string) : bool :=
  isCopyPass cmd || (cmd =? Sync.writeTimestampCmd R2_MOUNT_PATH).

(** The stage commands started, in order. *)
Definition stageStarts (evs : list Event) : list string :=
  filter isStage (started evs).

(** The declared order of the stages. *)
Definition stageOrder : list string :=
  [ Sync.syncOpenclawCmd R2_MOUNT_PATH;
    Sync.syncWorkspaceCmd R2_MOUNT_PATH;
    Sync.syncSkillsCmd R2_MOUNT_PATH;
    Sync.writeTimestampCmd R2_MOUNT_PATH ].

(** The stages started are the first ones of the declared order, in that
    order. *)
Definition InStageOrder (evs : list Event) : Prop :=
  exists later, stageOrder = (stageStarts evs ++ later)%list.

(** [evs] does not go on with one more poll sleep. *)
Definition pollsEnded (evs : list Event) : Prop :=
  match evs with
  | ESleep _ :: _ => False
  | _ => True
  end.

(** A failed copy pass ends the run.  Take any copy pass of the run: its
    command [cmd] was started after the interactions [pre] and answered with
    the handle [proc], then polled [k] times.  If the handle is then settled
    and its ensure-success check fails ([status] is [failed] or the exit
    code is a non-zero number), the result is the failure [Sync failed] and
    the only interaction left is the fetch of that handle's logs: nothing is
    started any more. *)
Definition FailedPassStops (sb : Sandbox) (t : nat)
    (r : Outcome Sync.SyncResult) (evs : list Event) : Prop :=
  forall pre cmd k post proc,
    evs = (pre ++ EStart cmd :: repeat (ESleep Utils.defaultPollIntervalMs) k ++ post)%list ->
    isCopyPass cmd = true ->
    pollsEnded post ->
    startProcess sb (t + length pre) cmd = Resolved proc ->
    Utils.active (status proc (t + length pre + 1 + k)) = false ->
    Sync.rsyncFailed proc (t + length pre + 1 + k) = true ->
    (exists d, r = Ok (Sync.failure "Sync failed" d))
    /\ post = [EGetLogs (procId proc)].

(** Each stage gates the next.  Whenever a stage command [next] is started
    after some stage has already been started, it is started right after
    the polls of the previous stage [prev], a copy pass whose handle is at
    that instant settled and passes the ensure-success check. *)
Definition StagesGated (sb : Sandbox) (t : nat) (evs : list Event) : Prop :=
  forall pre next post,
    evs = (pre ++ EStart next :: post)%list ->
    isStage next = true ->
    stageStarts pre <> [] ->
    exists before prev k proc,
      pre = (before ++ EStart prev :: repeat (ESleep Utils.defaultPollIntervalMs) k)%list
      /\ isCopyPass prev = true
      /\ startProcess sb (t + length before) prev = Resolved proc
      /\ Utils.active (status proc (t + length pre)) = false
      /\ Sync.rsyncFailed proc (t + length pre) = false.

(** The pattern of one copy pass in [Sync.replicate]: start, wait (with the
    kill on timeout), ensure-success check, then either the failure or what
    comes next. *)
Definition copyPass (sb : Sandbox) (cmd which : string)
    (next : Process -> M Sync.SyncResult) : M Sync.SyncResult :=
  bind (start sb cmd) (fun proc =>
  bind (Sync.waitOrKill proc) (fun _ =>
  bind (Sync.ensureRsyncSuccess proc which) (fun r =>
  match r with
  | Some res => ret res
  | None => next proc
  end))).

(** The body of the second [try] block of [Sync.syncToR2]. *)
Definition replicateBody (sb : Sandbox) : M Sync.SyncResult :=
  copyPass sb (Sync.syncOpenclawCmd R2_MOUNT_PATH) "openclaw" (fun proc =>
  copyPass sb (Sync.syncWorkspaceCmd R2_MOUNT_PATH) "workspace" (fun _ =>
  copyPass sb (Sync.syncSkillsCmd R2_MOUNT_PATH) "skills" (fun _ =>
  Sync.writeAndVerifyMarker R2_MOUNT_PATH sb proc))).

(** The run ended on the verified completion marker: after the marker
    write was started (among the interactions [pre]), the read-back command
    was started and answered with the handle [timestampProc], the handle
    was polled [k] times until settled, its logs were fetched, and the
    trimmed text read back, which is the [lastSync] of the result, starts
    like a date (four digits, dash, two digits, dash, two digits). *)
Definition MarkerVerified (sb : Sandbox) (t : nat)
    (res : Sync.SyncResult) (evs : list Event) : Prop :=
  exists pre timestampProc k logs,
    evs = (pre ++ EStart (Sync.readTimestampCmd R2_MOUNT_PATH)
           :: repeat (ESleep Utils.defaultPollIntervalMs) k
           ++ [EGetLogs (procId timestampProc)])%list
    /\ In (Sync.writeTimestampCmd R2_MOUNT_PATH) (started pre)
    /\ startProcess sb (t + length pre) (Sync.readTimestampCmd R2_MOUNT_PATH)
       = Resolved timestampProc
    /\ Utils.active (status timestampProc (t + length pre + 1 + k)) = false
    /\ getLogs timestampProc (t + length pre + 1 + k) = Resolved logs
    /\ res = Sync.mkResult true (Some (Js.trim (stdout logs))) None None
    /\ Js.matchesDatePrefix (Js.trim (stdout logs)) = true.

(** The run ended on the dedup check: the last interaction is the process
    listing, which showed an active [rsync] on the mount path; the result
    carries the informational detail and no [lastSync]. *)
Definition DedupSkipped (sb : Sandbox) (t : nat)
    (res : Sync.SyncResult) (evs : list Event) : Prop :=
  exists pre infos p,
    evs = (pre ++ [EList])%list
    /\ listProcesses sb (t + length pre) = Resolved infos
    /\ find (Sync.isActiveRsync R2_MOUNT_PATH) infos = Some p
    /\ res = Sync.mkResult true None None (Some (Sync.skippedDetails p)).

(** The interactions begin with the start of a stage. *)
Definition stageFirst (evs : list Event) : Prop :=
  match evs with
  | EStart cmd :: _ => isStage cmd = true
  | _ => False
  end.

(** The three facts carried along the chain of stages. *)
Definition GoodRun (sb : Sandbox) (t : nat)
    (run : Outcome Sync.SyncResult * list Event) : Prop :=
  stageFirst (snd run)
  /\ FailedPassStops sb t (fst run) (snd run)
  /\ StagesGated sb t (snd run).

End SyncVocabulary.
End Stages.
Import Stages.

(** * Vocabulary of the further properties *)

(** Weighted count of some interactions. *)
Fixpoint weigh (w : Event -> Z) (evs : list Event) : Z :=
  match evs with
  | [] => 0%Z
  | ev :: evs' => (w ev + weigh w evs')%Z
  end.

(** A price list for the interactions: a price per process start, per
    millisecond slept ([setTimeout] takes a negative delay as zero), per log
    fetch, per mount call, per kill and per process listing. *)
Record Rates : Type := mkRates {
  perStart : Z;
  perSleptMs : Z;
  perLogFetch : Z;
  perMount : Z;
  perKill : Z;
  perListing : Z
}.

Definition price (r : Rates) (ev : Event) : Z :=
  match ev with
  | EStart _ => perStart r
  | ESleep ms => (perSleptMs r * Z.max 0 ms)%Z
  | EGetLogs _ => perLogFetch r
  | EMount _ _ _ => perMount r
  | EKill _ => perKill r
  | EList => perListing r
  end.

Definition fairRates (r : Rates) : Prop :=
  (0 <= perStart r /\ 0 <= perSleptMs r /\ 0 <= perLogFetch r
   /\ 0 <= perMount r /\ 0 <= perKill r /\ 0 <= perListing r)%Z.

(** Number of processes started, milliseconds slept, mount calls made. *)
Definition startsOf (evs : list Event) : Z :=
  weigh (price (mkRates 1 0 0 0 0 0)) evs.

Definition sleptMs (evs : list Event) : Z :=
  weigh (price (mkRates 0 1 0 0 0 0)) evs.

Definition mountsOf (evs : list Event) : Z :=
  weigh (price (mkRates 0 0 0 1 0 0)) evs.

Definition killsOf (evs : list Event) : Z :=
  weigh (price (mkRates 0 0 0 0 1 0)) evs.

(** The computation never exceeds the weight [B], whenever it is started. *)
Definition Within {A} (w : Event -> Z) (B : Z) (m : M A) : Prop :=
  forall t, (weigh w (snd (m t)) <= B)%Z.

(** The computation finishes within the fuel of its waits. *)
Definition Halts {A} (m : M A) : Prop :=
  forall t, fst (m t) <> OutOfFuel.

(** The computation returns a value: it neither throws nor runs out of
    fuel. *)
Definition Safe {A} (m : M A) : Prop :=
  forall t, exists a, fst (m t) = Ok a.

(** A sandbox that accepts every process start. *)
Definition startsReliably (sb : Sandbox) : Prop :=
  forall t cmd, exists proc, startProcess sb t cmd = Resolved proc.


(** Every value returned by a computation satisfies [P]. *)
Definition Returns {A} (P : A -> Prop) (m : M A) : Prop :=
  forall t a, fst (m t) = Ok a -> P a.

(** The commands the gateway hands to [startProcess]. *)
Definition knownCommands (R2_MOUNT_PATH : string) : list string :=
  [ R2.probeCmd R2_MOUNT_PATH;
    R2.lazyUnmountCmd R2_MOUNT_PATH;
    Sync.verifyCmd R2_MOUNT_PATH;
    Sync.syncOpenclawCmd R2_MOUNT_PATH;
    Sync.syncWorkspaceCmd R2_MOUNT_PATH;
    Sync.syncSkillsCmd R2_MOUNT_PATH;
    Sync.writeTimestampCmd R2_MOUNT_PATH;
    Sync.readTimestampCmd R2_MOUNT_PATH;
    Sync.diagCmd R2_MOUNT_PATH ].

(** An interaction that starts a process starts one of [knownCommands]. *)
Definition startsKnown (R2_MOUNT_PATH : string) (ev : Event) : Prop :=
  match ev with
  | EStart cmd => In cmd (knownCommands R2_MOUNT_PATH)
  | _ => True
  end.

(** The [error] texts of [syncToR2]. *)
Definition knownErrors : list string :=
  [ "R2 storage is not configured";
    "Failed to mount R2 storage";
    "Failed to verify source files";
    "Sync aborted: source missing openclaw.json";
    "Sync aborted: local workspace appears empty";
    "Sync failed";
    "Sync error" ].

(** The shape of a [SyncResult]: a success carries no [error], and a
    [lastSync] that starts like a date if it has one; a failure carries no
    [lastSync] and one of the [knownErrors]. *)
Definition wellFormed (res : Sync.SyncResult) : bool :=
  if Sync.success res then
    match Sync.error res, Sync.lastSync res with
    | None, Some ls => Js.matchesDatePrefix ls
    | None, None => true
    | Some _, _ => false
    end
  else
    match Sync.lastSync res, Sync.error res with
    | None, Some msg => existsb (String.eqb msg) knownErrors
    | _, _ => false
    end.

(** The interactions of [n] rounds of the loop polling the logs of the
    verification: a log fetch and a sleep of 100 ms each. *)
Fixpoint verifyRounds (id : string) (n : nat) : list Event :=
  match n with
  | O => []
  | S n' => EGetLogs id :: ESleep 100 :: verifyRounds id n'
  end.

(** The output of the verification shows the sentinel of the config file. *)
Definition showsSentinel (l : Logs) : bool :=
  Js.includes "__OK__" (stdout l) || Js.includes "__MISSING__" (stdout l).

(** The text [needle] occurs in [s]. *)
Definition occurs (needle s : string) : Prop :=
  exists pre post, s = pre ++ needle ++ post.

(** [p.command || ''] *)
Definition commandOf (p : ProcessInfo) : string :=
  match infoCommand p with Some c => c | None => EmptyString end.

(** The attempted kill of a handle, if it has a [kill] method. *)
Definition killAttempt (proc : Process) : list Event :=
  match kill proc with
  | Some _ => [EKill (procId proc)]
  | None => []
  end.

(** The discipline of kills of a run: no kill at all, or a single kill as
    the last interaction of a run that raises. *)
Definition killsLast {A} (run : Outcome A * list Event) : Prop :=
  killsOf (snd run) = 0%Z
  \/ exists pre id e,
      snd run = (pre ++ [EKill id])%list /\ killsOf pre = 0%Z
      /\ fst run = Throw e.


(** A copy pass that does not settle ends the run.  Take any copy pass of
    the run: its command [cmd] was started after the interactions [pre] and
    answered with the handle [proc], then polled [k] times.  If the handle is
    still [starting] or [running] then, whatever its exit code, these were
    the 1200 polls of the ten-minute wait; the only interactions left are
    the fetch of that handle's logs and the attempt to kill it, so nothing
    is started any more; and the run ends as [final] tells of the time-out
    condition of the wait. *)
Definition UnsettledPassEnds (final : Error -> Outcome Sync.SyncResult)
    (sb : Sandbox) (t : nat)
    (r : Outcome Sync.SyncResult) (evs : list Event) : Prop :=
  forall pre cmd k post proc,
    evs = (pre ++ EStart cmd :: repeat (ESleep Utils.defaultPollIntervalMs) k ++ post)%list ->
    isCopyPass cmd = true ->
    pollsEnded post ->
    startProcess sb (t + length pre) cmd = Resolved proc ->
    Utils.active (status proc (t + length pre + 1 + k)) = true ->
    k = 1200
    /\ r = final (TimeoutError 600000 (status proc (t + length pre + 1 + k)))
    /\ post = EGetLogs (procId proc) :: killAttempt proc.

(** In [syncToR2] the time-out condition is returned as the failure
    [Sync error]. *)
Definition UnsettledPassStops :=
  UnsettledPassEnds
    (fun e => Ok (Sync.failure "Sync error" (Some (message e)))).

(** ** Words and white space of a text *)

(** A list of white-space characters. *)
Definition allWhite (blanks : list string) : bool :=
  forallb (Js.among Js.whiteSpaces) blanks.

(** A text in which none of the white-space characters occurs. *)
Definition noWhite (s : string) : bool :=
  forallb (fun w => negb (Js.includes w s)) Js.whiteSpaces.

(** A text that begins with a white-space character. *)
Definition beginsWhite (s : string) : bool :=
  existsb (fun w => Js.startsWith w s) Js.whiteSpaces.

(** The bytes 128 to 191, which UTF-8 uses for the second and later bytes
    of a character only. *)
Definition continuation (a : ascii) : bool :=
  Nat.leb 128 (nat_of_ascii a) && Nat.ltb (nat_of_ascii a) 192.
(** * The first draft of [gateway/sync.ts] *)

(** The source file opens with an earlier draft of [syncToR2]: a single
    combined copy command that also writes the marker, a verification that
    waits for its process and reads the logs once, no dedup check and no
    workspace guard.  It is embedded here for any [mountR2Storage], since
    the draft only looks at the boolean it returns. *)
Module SyncDraft.
Section WithConfig.

Variable R2_MOUNT_PATH : string.
Variable mountR2Storage : Sandbox -> OpenClawEnv -> M bool.

Definition checkCmd : string :=
  "test -f /root/.openclaw/openclaw.json && echo " ++ Js.dq ++ "ok" ++ Js.dq.

Definition syncCmd : string :=
  "rsync -r --no-times --delete --exclude='*.lock' --exclude='*.log' --exclude='*.tmp' /root/.openclaw/ "
  ++ R2_MOUNT_PATH ++ "/openclaw/ && rsync -r --no-times --delete /root/openclaw/skills/ "
  ++ R2_MOUNT_PATH ++ "/skills/ && date -Iseconds > " ++ R2_MOUNT_PATH ++ "/.last-sync".

Definition readTimestampCmd : string := Sync.readTimestampCmd R2_MOUNT_PATH.

Definition diagCmd : string :=
  "echo " ++ Js.dq ++ "[diag] mount:" ++ Js.dq ++ " && mount | grep s3fs || true; "
  ++ "echo " ++ Js.dq ++ "[diag] r2_path:" ++ Js.dq ++ " && ls -la "
  ++ R2_MOUNT_PATH ++ " || true; "
  ++ "echo " ++ Js.dq ++ "[diag] openclaw_src:" ++ Js.dq
  ++ " && ls -la /root/.openclaw || true; "
  ++ "echo " ++ Js.dq ++ "[diag] skills_src:" ++ Js.dq
  ++ " && ls -la /root/openclaw/skills || true".

(** The first [try] block: the check is waited for (a time-out is an
    error) and its logs are read once. *)
Definition verifySource (sb : Sandbox) : M (option Sync.SyncResult) :=
  catch
    (checkProc <- start sb checkCmd ;;
     Utils.waitForProcess callFuel checkProc 5000 Utils.defaultPollIntervalMs ;;
     checkLogs <- fetchLogs checkProc ;;
     if negb (Js.includes "ok" (stdout checkLogs))
     then ret (Some Sync.missingResult)
     else ret None)
    (fun err =>
       ret (Some (Sync.failure "Failed to verify source files"
                    (Some (message err))))).

(** The [else] branch of the unverified marker; nothing is best-effort
    here. *)
Definition markerUnverified (sb : Sandbox) (proc : Process) : M Sync.SyncResult :=
  logs <- fetchLogs proc ;;
  diagProc <- start sb diagCmd ;;
  Utils.waitForProcess callFuel diagProc 5000 Utils.defaultPollIntervalMs ;;
  diagLogs <- fetchLogs diagProc ;;
  ret (Sync.failure "Sync failed"
    (Some (Js.joinLines (Js.filterTruthy
      [ Js.orElse (stderr logs)
          (Js.orElse (stdout logs) "No timestamp file created");
        Js.trim (stdout diagLogs);
        Js.trim (stderr diagLogs) ])))).

(** The second [try] block. *)
Definition replicate (sb : Sandbox) : M Sync.SyncResult :=
  catch
    (proc <- start sb syncCmd ;;
     Utils.waitForProcess callFuel proc 120000 Utils.defaultPollIntervalMs ;;
     timestampProc <- start sb readTimestampCmd ;;
     Utils.waitForProcess callFuel timestampProc 15000 Utils.defaultPollIntervalMs ;;
     timestampLogs <- fetchLogs timestampProc ;;
     match Sync.lastSyncOf (Js.trim (stdout timestampLogs)) with
     | Some ls =>
         if Js.matchesDatePrefix ls
         then ret (Sync.mkResult true (Some ls) None None)
         else markerUnverified sb proc
     | None => markerUnverified sb proc
     end)
    (fun err => ret (Sync.failure "Sync error" (Some (message err)))).

Definition syncToR2 (sb : Sandbox) (env : OpenClawEnv) : M Sync.SyncResult :=
  match credentials env with
  | None => ret (Sync.failure "R2 storage is not configured" None)
  | Some _ =>
      mounted <- mountR2Storage sb env ;;
      if negb mounted then ret (Sync.failure "Failed to mount R2 storage" None)
      else
        verdict <- verifySource sb ;;
        match verdict with
        | Some r => ret r
        | None => replicate sb
        end
  end.

End WithConfig.
End SyncDraft.

(** * Concrete handles and sandboxes used as test inputs *)

(** A handle whose fields never change. *)
Definition constantProcess (st : string) (code : option Z) (out : string) : Process :=
  mkProcess "proc" (fun _ => st) (fun _ => code)
    (fun _ => Resolved (mkLogs out EmptyString)) None.

(** A handle that stays [running] for ever. *)
Definition stuckProcess : Process := constantProcess "running" None EmptyString.

(** Example values of the two configuration constants. *)
Definition examplePath : string := "/data/openclaw".
Definition exampleBucket : string := "openclaw-data".

Definition exampleEnv : OpenClawEnv :=
  mkEnv (Some "key-id") (Some "secret") (Some "account").

Definition exampleCredentials : Credentials :=
  mkCredentials "key-id" "secret" "account".

(** A finished process with the given standard output. *)
Definition done (out : string) : Process :=
  constantProcess "completed" (Some 0%Z) out.

Definition conflictMessage : string :=
  "InvalidMountConfigError: Mount path /data/openclaw is already in use".

(** A sandbox answering by command: [procs] gives the handle of each known
    command, any other command gets an empty finished process; [mounts]
    gives the answers of the successive [mountBucket] calls, found by the
    instant of the call; [listing] is the answer of [listProcesses]. *)
Fixpoint lookupProc (procs : list (string * Process)) (cmd : string) : Process :=
  match procs with
  | [] => done EmptyString
  | (c, p) :: rest => if (c =? cmd) then p else lookupProc rest cmd
  end.

Definition scripted (procs : list (string * Process))
    (mounts : nat -> Reply unit) (listing : Reply (list ProcessInfo)) : Sandbox :=
  mkSandbox (fun _ cmd => Resolved (lookupProc procs cmd))
            (fun t _ _ _ => mounts t)
            (fun _ => listing).

(** The remote bucket is mounted and healthy. *)
Definition mountedSandbox : Sandbox :=
  scripted [(R2.probeCmd examplePath, done ("fuse.s3fs" ++ Js.nl))]
           (fun _ => Resolved tt) (Resolved []).

(** The mount is hung: the filesystem-type query never settles. *)
Definition hungSandbox : Sandbox :=
  scripted [(R2.probeCmd examplePath, stuckProcess)]
           (fun _ => Resolved tt) (Resolved []).

(** A query handle that is settled (with empty output) up to instant 3 and
    hangs afterwards. *)
Definition hangingLater : Process :=
  mkProcess "probe"
    (fun t => if (t <? 3)%nat then "completed" else "running")
    (fun _ => None) (fun _ => Resolved noLogs) None.

(** The platform reports the path as in use, and the mount hangs from then
    on; every [mountBucket] call fails with the conflict. *)
Definition raceSandbox : Sandbox :=
  scripted [(R2.probeCmd examplePath, hangingLater)]
           (fun _ => Rejected (SandboxError conflictMessage)) (Resolved []).

Definition healthyProbe : string * Process :=
  (R2.probeCmd examplePath, done ("fuse.s3fs" ++ Js.nl)).

(** The end-to-end happy path of the test suite: mounted bucket, verified
    source, three clean copy passes, marker read back. *)
Definition happySandbox : Sandbox :=
  scripted
    [ healthyProbe;
      (Sync.verifyCmd examplePath, done "__OK__");
      (Sync.readTimestampCmd examplePath, done "2026-01-27T12:00:00+00:00") ]
    (fun _ => Resolved tt) (Resolved []).

(** The first copy pass exits with code 1. *)
Definition failedCopy : Process := constantProcess "completed" (Some 1%Z) EmptyString.

Definition failingSandbox : Sandbox :=
  scripted
    [ healthyProbe;
      (Sync.verifyCmd examplePath, done "__OK__");
      (Sync.syncOpenclawCmd examplePath, failedCopy) ]
    (fun _ => Resolved tt) (Resolved []).

(** A copy pass of an earlier run is still running. *)
Definition runningRsync : ProcessInfo :=
  mkProcessInfo (Some "proc-7") (Some "running")
    (Some (Sync.syncWorkspaceCmd examplePath)).

Definition busySandbox : Sandbox :=
  scripted [ healthyProbe ] (fun _ => Resolved tt) (Resolved [runningRsync]).

(** The container was wiped: no config file, empty workspace, and a
    non-empty workspace backup in the bucket. *)
Definition wipedOutput : string :=
  "__MISSING__" ++ Js.nl ++ "__WORKSPACE_LOCAL_EMPTY__" ++ Js.nl
  ++ "__WORKSPACE_REMOTE_NONEMPTY__" ++ Js.nl.

Definition wipedSandbox : Sandbox :=
  scripted [ healthyProbe; (Sync.verifyCmd examplePath, done wipedOutput) ]
    (fun _ => Resolved tt) (Resolved []).

(** The config file is there but the workspace is empty, with a non-empty
    workspace backup in the bucket. *)
Definition emptyWorkspaceOutput : string :=
  "__OK__" ++ Js.nl ++ "__WORKSPACE_LOCAL_EMPTY__" ++ Js.nl
  ++ "__WORKSPACE_REMOTE_NONEMPTY__" ++ Js.nl.

Definition emptyWorkspaceSandbox : Sandbox :=
  scripted
    [ healthyProbe; (Sync.verifyCmd examplePath, done emptyWorkspaceOutput) ]
    (fun _ => Resolved tt) (Resolved []).

(** * Further test inputs *)

(** A sandbox that rejects every process start. *)
Definition refusingSandbox : Sandbox :=
  mkSandbox (fun _ _ => Rejected (SandboxError "sandbox unavailable"))
            (fun _ _ _ _ => Resolved tt)
            (fun _ => Resolved []).

(** The bucket is not mounted yet and the mount call succeeds. *)
Definition freshSandbox : Sandbox :=
  scripted [] (fun _ => Resolved tt) (Resolved []).

(** A copy pass that never settles, whose logs cannot be fetched and whose
    [kill] is rejected. *)
Definition hungRsync : Process :=
  mkProcess "rsync-1" (fun _ => "running") (fun _ => None)
    (fun _ => Rejected (SandboxError "logs unavailable"))
    (Some (fun _ => Rejected (SandboxError "kill failed"))).

(** The first copy pass hangs. *)
Definition hungCopySandbox : Sandbox :=
  scripted
    [ healthyProbe;
      (Sync.verifyCmd examplePath, done "__OK__");
      (Sync.syncOpenclawCmd examplePath, hungRsync) ]
    (fun _ => Resolved tt) (Resolved []).

(** The copy passes succeed but the marker never shows up. *)
Definition markerlessSandbox : Sandbox :=
  scripted
    [ healthyProbe;
      (Sync.verifyCmd examplePath, done "__OK__");
      (Sync.readTimestampCmd examplePath, done "__MISSING__") ]
    (fun _ => Resolved tt) (Resolved []).

(** The mount call is refused for a reason other than a path conflict. *)
Definition unmountableSandbox : Sandbox :=
  scripted [] (fun _ => Rejected (SandboxError "Mount failed")) (Resolved []).

(** The happy path for the first draft: the check prints [ok]. *)
Definition draftSandbox : Sandbox :=
  scripted
    [ healthyProbe;
      (SyncDraft.checkCmd, done "ok");
      (Sync.readTimestampCmd examplePath, done "2026-01-27T12:00:00+00:00") ]
    (fun _ => Resolved tt) (Resolved []).

(** A handle that is [running] at its first three observations and
    [completed] from the fourth on. *)
Definition settlingLater : Process :=
  mkProcess "job"
    (fun t => if (t <? 3)%nat then "running" else "completed")
    (fun _ => None) (fun _ => Resolved noLogs) None.

(** A copy pass that has exited with code 1 while its status stays
    [running]. *)
Definition lingeringCopy : Process :=
  constantProcess "running" (Some 1%Z) EmptyString.

Definition lingeringSandbox : Sandbox :=
  scripted
    [ healthyProbe;
      (Sync.verifyCmd examplePath, done "__OK__");
      (Sync.syncOpenclawCmd examplePath, lingeringCopy) ]
    (fun _ => Resolved tt) (Resolved []).

(** The probe prints the filesystem type between a no-break space (U+00A0)
    and an em space (U+2003). *)
Definition paddedOutput : string :=
  Js.bytes2 194 160 ++ "fuse.s3fs" ++ Js.bytes3 226 128 131 ++ "rw".

Definition paddedSandbox : Sandbox :=
  scripted [ (R2.probeCmd examplePath, done paddedOutput) ]
    (fun _ => Resolved tt) (Resolved []).

(** * Properties *)

Local Open Scope list_scope.

(** ** The effect monad *)

Section MonadFacts.

Context {A B : Type}.

Lemma bind_ok (m : M A) (f : A -> M B) t a e1 :
  m t = (Ok a, e1) ->
  bind m f t = (fst (f a (t + length e1)), e1 ++ snd (f a (t + length e1))).
Proof.
  intros H. unfold bind. rewrite H.
  destruct (f a (t + length e1)); reflexivity.
Qed.

Lemma bind_throw (m : M A) (f : A -> M B) t e e1 :
  m t = (Throw e, e1) -> bind m f t = (Throw e, e1).
Proof. intros H. unfold bind. rewrite H. reflexivity. Qed.

Lemma bind_out_of_fuel (m : M A) (f : A -> M B) t e1 :
  m t = (OutOfFuel, e1) -> bind m f t = (OutOfFuel, e1).
Proof. intros H. unfold bind. rewrite H. reflexivity. Qed.

Lemma catch_ok (m : M A) (h : Error -> M A) t a e1 :
  m t = (Ok a, e1) -> catch m h t = (Ok a, e1).
Proof. intros H. unfold catch. rewrite H. reflexivity. Qed.

Lemma catch_throw (m : M A) (h : Error -> M A) t e e1 :
  m t = (Throw e, e1) ->
  catch m h t = (fst (h e (t + length e1)), e1 ++ snd (h e (t + length e1))).
Proof.
  intros H. unfold catch. rewrite H.
  destruct (h e (t + length e1)); reflexivity.
Qed.

Lemma catch_out_of_fuel (m : M A) (h : Error -> M A) t e1 :
  m t = (OutOfFuel, e1) -> catch m h t = (OutOfFuel, e1).
Proof. intros H. unfold catch. rewrite H. reflexivity. Qed.

End MonadFacts.

(** Finishes the evaluation of a run whose sub-runs have been rewritten. *)
Ltac run_done :=
  unfold ret, throw, now;
  cbn [fst snd app length];
  rewrite ?app_nil_r, ?Nat.add_0_r;
  try reflexivity.

(** ** The process wait utility *)

Module UtilsFacts.
Import Utils.

Lemma polledMs_repeat ms n :
  polledMs (repeat (ESleep ms) n) = (Z.of_nat n * ms)%Z.
Proof. induction n; cbn [repeat polledMs]; lia. Qed.

(** A process that is already settled is not waited for. *)
Lemma waitLoop_settled fuel proc ms bound attempts t :
  active (status proc t) = false ->
  waitLoop fuel proc ms bound attempts t = (Ok tt, []).
Proof. intros H. destruct fuel; cbn [waitLoop]; rewrite H; reflexivity. Qed.

(** The bound stops the loop. *)
Lemma waitLoop_exhausted fuel proc ms bound attempts t :
  below attempts bound = false ->
  waitLoop fuel proc ms bound attempts t = (Ok tt, []).
Proof.
  intros H. destruct fuel; cbn [waitLoop]; rewrite H, andb_false_r; reflexivity.
Qed.

(** [k] sleeps are performed while the process stays active and the bound
    is not reached. *)
Lemma waitLoop_steps proc ms bound k :
  forall fuel attempts t,
    (forall j, j < k -> active (status proc (t + j)) = true) ->
    (forall j, j < k -> below (attempts + Z.of_nat j) bound = true) ->
    k <= fuel ->
    waitLoop fuel proc ms bound attempts t =
    (fst (waitLoop (fuel - k) proc ms bound (attempts + Z.of_nat k) (t + k)),
     repeat (ESleep ms) k
     ++ snd (waitLoop (fuel - k) proc ms bound (attempts + Z.of_nat k) (t + k))).
Proof.
  induction k as [|k IH]; intros fuel attempts t Hact Hbel Hfuel.
  - rewrite Nat.sub_0_r, Z.add_0_r, Nat.add_0_r. cbn [repeat app].
    destruct (waitLoop fuel proc ms bound attempts t); reflexivity.
  - destruct fuel as [|fuel]; [lia|].
    cbn [waitLoop].
    pose proof (Hact 0 ltac:(lia)) as H0. rewrite Nat.add_0_r in H0.
    pose proof (Hbel 0 ltac:(lia)) as B0. rewrite Z.add_0_r in B0.
    rewrite H0, B0. cbn [andb].
    unfold bind, sleep, await. cbn [length].
    rewrite (IH fuel (attempts + 1)%Z (t + 1)).
    + replace (attempts + 1 + Z.of_nat k)%Z with (attempts + Z.of_nat (S k))%Z by lia.
      replace (t + 1 + k) with (t + S k) by lia.
      replace (S fuel - S k) with (fuel - k) by lia.
      reflexivity.
    + intros j Hj. replace (t + 1 + j) with (t + S j) by lia. apply Hact. lia.
    + intros j Hj.
      replace (attempts + 1 + Z.of_nat j)%Z with (attempts + Z.of_nat (S j))%Z by lia.
      apply Hbel. lia.
    + lia.
Qed.

Lemma maxAttempts_pos timeoutMs pollIntervalMs :
  (0 < pollIntervalMs)%Z ->
  maxAttempts timeoutMs pollIntervalMs
  = Finite (- ((- timeoutMs) / pollIntervalMs)).
Proof.
  intros H. unfold maxAttempts.
  destruct (Z.eqb_spec pollIntervalMs 0); [lia | reflexivity].
Qed.


(** What a run of the loop under a finite bound looks like: only sleeps,
    never a throw; on exit either the process is settled or the bound is
    reached; the fuel runs out only below the bound. *)
Lemma waitLoop_finite_shape proc ms N fuel :
  forall attempts t r evs,
    waitLoop fuel proc ms (Finite N) attempts t = (r, evs) ->
    evs = repeat (ESleep ms) (length evs)
    /\ match r with
       | Ok _ =>
           active (status proc (t + length evs)) = false
           \/ (N <= attempts + Z.of_nat (length evs))%Z
       | Throw _ => False
       | OutOfFuel =>
           fuel = length evs /\ (attempts + Z.of_nat (length evs) < N)%Z
       end.
Proof.
  induction fuel as [|fuel IH]; intros attempts t r evs Hrun;
    cbn [waitLoop] in Hrun.
  - destruct (active (status proc t)) eqn:Ha; cbn [andb] in Hrun.
    + unfold below in Hrun. destruct (Z.ltb_spec attempts N);
        inversion Hrun; subst; cbn; split; auto; lia.
    + inversion Hrun; subst; cbn. rewrite Nat.add_0_r. auto.
  - destruct (active (status proc t)) eqn:Ha; cbn [andb] in Hrun.
    + unfold below in Hrun. destruct (Z.ltb_spec attempts N).
      * unfold bind, sleep, await in Hrun. cbn [length] in Hrun.
        destruct (waitLoop fuel proc ms (Finite N) (attempts + 1) (t + 1))
          as [r' evs'] eqn:Hrec.
        apply IH in Hrec. destruct Hrec as [Hev Hr].
        assert (r = r' /\ evs = ESleep ms :: evs') as [-> ->].
        { destruct r'; inversion Hrun; auto. }
        cbn [length repeat]. split; [congruence|].
        destruct r' as [u| |]; [| exact Hr | ].
        -- replace (t + S (length evs')) with (t + 1 + length evs') by lia.
           destruct Hr; [left; assumption | right; lia].
        -- destruct Hr. split; lia.
      * inversion Hrun; subst; cbn. split; auto. right. lia.
    + inversion Hrun; subst; cbn. rewrite Nat.add_0_r. auto.
Qed.

Lemma ceil_covers timeoutMs pollIntervalMs :
  (0 < pollIntervalMs)%Z ->
  (timeoutMs <= - (- timeoutMs / pollIntervalMs) * pollIntervalMs)%Z.
Proof.
  intros Hp.
  pose proof (Z.mul_div_le (- timeoutMs) pollIntervalMs Hp). nia.
Qed.

End UtilsFacts.

(** C10. A handle whose status is already outside [{starting, running}] when
    [waitForProcess] is called makes the wait resolve at once: no poll sleep
    is performed and nothing is thrown, whatever the positive timeout and
    whatever the poll interval (zero and negative ones included), even with
    no fuel at all. *)
Theorem waitForProcess_settled_at_call
    (fuel : nat) (proc : Process) (timeoutMs pollIntervalMs : Z) (t : nat) :
  (0 < timeoutMs)%Z ->
  Utils.active (status proc t) = false ->
  Utils.waitForProcess fuel proc timeoutMs pollIntervalMs t = (Ok tt, [])
  /\ Utils.sleeps (snd (Utils.waitForProcess fuel proc timeoutMs pollIntervalMs t)) = 0.
Proof.
  intros _ Hs.
  assert (Utils.waitForProcess fuel proc timeoutMs pollIntervalMs t = (Ok tt, [])) as E.
  { unfold Utils.waitForProcess.
    rewrite (bind_ok _ _ t tt [])
      by (apply UtilsFacts.waitLoop_settled; exact Hs).
    cbn [length fst snd app]. rewrite Nat.add_0_r.
    unfold bind, now. cbn [length]. rewrite Nat.add_0_r, Hs. reflexivity. }
  rewrite E. split; reflexivity.
Qed.

Lemma waitForProcess_settled_at_call_witness :
  Utils.waitForProcess 0 (constantProcess "completed" (Some 0%Z) EmptyString)
    5000 0 7 = (Ok tt, [])
  /\ Utils.sleeps
       (snd (Utils.waitForProcess 0
               (constantProcess "completed" (Some 0%Z) EmptyString) 5000 0 7)) = 0.
Proof.
  apply waitForProcess_settled_at_call; [lia | reflexivity].
Defined.

(** ** Claims on [waitForProcess] *)

Section WaitClaims.
Import Utils UtilsFacts.

Variables (fuel : nat) (proc : Process) (timeoutMs pollIntervalMs : Z).
Hypothesis interval_pos : (0 < pollIntervalMs)%Z.
Hypothesis enough_fuel : polls timeoutMs pollIntervalMs <= fuel.

Let n := polls timeoutMs pollIntervalMs.

Lemma below_polls j :
  j < n -> below (0 + Z.of_nat j) (maxAttempts timeoutMs pollIntervalMs) = true.
Proof.
  intros Hj. rewrite maxAttempts_pos by assumption. cbn [below].
  apply Z.ltb_lt. subst n. unfold polls in Hj. lia.
Qed.

Lemma below_polls_end :
  below (0 + Z.of_nat n) (maxAttempts timeoutMs pollIntervalMs) = false.
Proof.
  rewrite maxAttempts_pos by assumption. cbn [below].
  apply Z.ltb_ge. subst n. unfold polls. lia.
Qed.

(** The run of the wait on a process that is active at the first [k]
    observations, [k <= n]. *)
Lemma wait_after_steps t k :
  k <= n ->
  (forall j, j < k -> active (status proc (t + j)) = true) ->
  (k = n \/ active (status proc (t + k)) = false) ->
  waitForProcess fuel proc timeoutMs pollIntervalMs t =
  (if active (status proc (t + k))
   then Throw (TimeoutError timeoutMs (status proc (t + k))) else Ok tt,
   repeat (ESleep pollIntervalMs) k).
Proof.
  intros Hk Hact Hend. unfold waitForProcess.
  assert (waitLoop fuel proc pollIntervalMs
            (maxAttempts timeoutMs pollIntervalMs) 0 t
          = (Ok tt, repeat (ESleep pollIntervalMs) k)) as Hloop.
  { rewrite (waitLoop_steps proc pollIntervalMs _ k); try assumption.
    - assert (waitLoop (fuel - k) proc pollIntervalMs
                (maxAttempts timeoutMs pollIntervalMs) (0 + Z.of_nat k) (t + k)
              = (Ok tt, [])) as ->.
      { destruct Hend as [-> | Hs].
        - apply waitLoop_exhausted, below_polls_end.
        - apply waitLoop_settled, Hs. }
      cbn [fst snd]. rewrite app_nil_r. reflexivity.
    - intros j Hj. apply below_polls. lia.
    - subst n. lia. }
  rewrite (bind_ok _ _ _ _ _ Hloop). rewrite repeat_length.
  unfold bind, now. cbn [length]. rewrite Nat.add_0_r.
  destruct (active (status proc (t + k))); cbn; rewrite app_nil_r; reflexivity.
Qed.

(** With a positive interval and the fuel for [n] sleeps the wait always
    finishes, and it throws only the timeout condition, after [n] sleeps. *)
Lemma wait_outcome t r evs :
  waitForProcess fuel proc timeoutMs pollIntervalMs t = (r, evs) ->
  evs = repeat (ESleep pollIntervalMs) (length evs)
  /\ match r with
     | Ok _ => active (status proc (t + length evs)) = false
     | Throw e =>
         e = TimeoutError timeoutMs (status proc (t + length evs))
         /\ active (status proc (t + length evs)) = true
         /\ (timeoutMs <= polledMs evs)%Z
     | OutOfFuel => False
     end.
Proof.
  unfold waitForProcess. intros Hrun.
  destruct (waitLoop fuel proc pollIntervalMs
              (maxAttempts timeoutMs pollIntervalMs) 0 t) as [r0 evs0] eqn:Hloop.
  pose proof Hloop as Hshape.
  rewrite maxAttempts_pos in Hshape by assumption.
  apply waitLoop_finite_shape in Hshape. destruct Hshape as [Hev Hr].
  destruct r0 as [[]| |].
  - rewrite (bind_ok _ _ _ _ _ Hloop) in Hrun.
    unfold bind, now in Hrun. cbn [length fst snd] in Hrun.
    rewrite Nat.add_0_r in Hrun.
    destruct (active (status proc (t + length evs0))) eqn:Ha;
      cbn in Hrun; rewrite app_nil_r in Hrun; inversion Hrun; subst.
    + split; [assumption|]. repeat split; try assumption.
      destruct Hr as [Hr | Hr]; [congruence|].
      rewrite Hev, polledMs_repeat.
      pose proof (ceil_covers timeoutMs pollIntervalMs interval_pos). nia.
    + split; assumption.
  - contradiction.
  - destruct Hr as [Hf Hlt]. pose proof enough_fuel as Hfuel.
    unfold polls in Hfuel. lia.
Qed.

End WaitClaims.







(** ** The mount prober and the mount controller *)

Lemma first_settle (f : nat -> bool) (n : nat) :
  exists k, k <= n /\ (forall j, j < k -> f j = true) /\ (k = n \/ f k = false).
Proof.
  induction n as [|n (k & Hk & Hbefore & Hend)].
  - exists 0. repeat split; auto. intros j Hj. lia.
  - destruct Hend as [-> | Hend].
    + destruct (f n) eqn:Hn.
      * exists (S n). repeat split; auto. intros j Hj.
        destruct (Nat.eq_dec j n) as [-> | Hne]; [assumption | apply Hbefore; lia].
      * exists n. repeat split; auto.
    + exists k. repeat split; auto.
Qed.

Lemma start_run sb cmd t :
  start sb cmd t =
  match startProcess sb t cmd with
  | Resolved proc => (Ok proc, [EStart cmd])
  | Rejected e => (Throw e, [EStart cmd])
  end.
Proof. reflexivity. Qed.

Lemma fetchLogsOrEmpty_run proc t :
  fetchLogsOrEmpty proc t =
  (Ok (logsOrEmpty proc t), [EGetLogs (procId proc)]).
Proof.
  unfold fetchLogsOrEmpty, catch, fetchLogs, await, logsOrEmpty.
  destruct (getLogs proc t); reflexivity.
Qed.

Lemma callSite_5000_200 : callSite 5000 200.
Proof. split; [lia | vm_compute; lia]. Qed.

Lemma callSite_15000_500 : callSite 15000 Utils.defaultPollIntervalMs.
Proof. split; [reflexivity | vm_compute; lia]. Qed.

Lemma callSite_sync : callSite Sync.DEFAULT_SYNC_TIMEOUT_MS Utils.defaultPollIntervalMs.
Proof. split; [reflexivity | vm_compute; lia]. Qed.

(** A best-effort wait performs some sleeps and resolves. *)
Lemma waitBestEffort_run proc timeoutMs pollIntervalMs t :
  callSite timeoutMs pollIntervalMs ->
  exists k,
    k <= Utils.polls timeoutMs pollIntervalMs
    /\ waitBestEffort proc timeoutMs pollIntervalMs t
       = (Ok tt, repeat (ESleep pollIntervalMs) k).
Proof.
  intros [Hp Hfuel].
  destruct (first_settle (fun j => Utils.active (status proc (t + j)))
              (Utils.polls timeoutMs pollIntervalMs)) as (k & Hk & Hbefore & Hend).
  exists k. split; [assumption|].
  unfold waitBestEffort.
  pose proof (wait_after_steps callFuel proc timeoutMs pollIntervalMs Hp Hfuel
                t k Hk Hbefore Hend) as Hrun.
  destruct (Utils.active (status proc (t + k))).
  - rewrite (catch_throw _ _ _ _ _ Hrun). run_done.
  - rewrite (catch_ok _ _ _ _ _ Hrun). reflexivity.
Qed.

Module R2Facts.
Section WithConfig.

Variables (R2_MOUNT_PATH R2_BUCKET_NAME : string).

#[local] Abbreviation probeCmd := (R2.probeCmd R2_MOUNT_PATH).
#[local] Abbreviation lazyUnmountCmd := (R2.lazyUnmountCmd R2_MOUNT_PATH).
#[local] Abbreviation probeMount := (R2.probeMount R2_MOUNT_PATH).
#[local] Abbreviation lazyUnmountR2 := (R2.lazyUnmountR2 R2_MOUNT_PATH).
#[local] Abbreviation mountR2Storage := (R2.mountR2Storage R2_MOUNT_PATH R2_BUCKET_NAME).
#[local] Abbreviation callMountBucket := (R2.callMountBucket R2_MOUNT_PATH R2_BUCKET_NAME).
#[local] Abbreviation mountEvent := (R2.mountEvent R2_MOUNT_PATH R2_BUCKET_NAME).

(** The run of [probeMount] once the query is started, given the number
    [k] of observations at which the handle is still active. *)
Lemma probeMount_after_steps sb t proc k :
  startProcess sb t probeCmd = Resolved proc ->
  k <= 25 ->
  (forall j, j < k -> Utils.active (status proc (t + 1 + j)) = true) ->
  (k = 25 \/ Utils.active (status proc (t + 1 + k)) = false) ->
  probeMount sb t =
  if Utils.active (status proc (t + 1 + k))
  then (Ok R2.Unresponsive, EStart probeCmd :: repeat (ESleep 200) k)
  else (Ok (R2.classify (R2.fsTypeOf (stdout (logsOrEmpty proc (t + 1 + k))))),
        EStart probeCmd :: repeat (ESleep 200) k ++ [EGetLogs (procId proc)]).
Proof.
  intros Hstart Hk Hbefore Hend.
  destruct callSite_5000_200 as [Hp Hfuel].
  pose proof (wait_after_steps callFuel proc 5000 200 Hp Hfuel
                (t + 1) k Hk Hbefore Hend) as Hwait.
  unfold R2.probeMount.
  rewrite (bind_ok _ _ t proc [EStart probeCmd])
    by (rewrite start_run, Hstart; reflexivity).
  cbn [length].
  destruct (Utils.active (status proc (t + 1 + k))) eqn:Ha.
  - rewrite (bind_ok _ _ (t + 1) false (repeat (ESleep 200) k)).
    + run_done.
    + rewrite (catch_throw _ _ _ _ _ (bind_throw _ _ _ _ _ Hwait)). run_done.
  - rewrite (bind_ok _ _ (t + 1) true (repeat (ESleep 200) k)).
    + rewrite repeat_length.
      rewrite (bind_ok _ _ _ _ _ (fetchLogsOrEmpty_run proc (t + 1 + k))).
      run_done.
    + apply catch_ok. rewrite (bind_ok _ _ _ _ _ Hwait). run_done.
Qed.

(** Every run of [probeMount] has one of three shapes. *)
Lemma probeMount_run sb t :
  match startProcess sb t probeCmd with
  | Rejected e => probeMount sb t = (Throw e, [EStart probeCmd])
  | Resolved proc =>
      exists k, k <= 25 /\
        (probeMount sb t
         = (Ok R2.Unresponsive, EStart probeCmd :: repeat (ESleep 200) k)
         \/ exists fsType,
             probeMount sb t
             = (Ok (R2.classify fsType),
                EStart probeCmd :: repeat (ESleep 200) k
                ++ [EGetLogs (procId proc)]))
  end.
Proof.
  destruct (startProcess sb t probeCmd) as [proc | e] eqn:Hstart.
  - destruct (first_settle (fun j => Utils.active (status proc (t + 1 + j))) 25)
      as (k & Hk & Hbefore & Hend).
    exists k. split; [assumption|].
    rewrite (probeMount_after_steps sb t proc k Hstart Hk Hbefore Hend).
    destruct (Utils.active (status proc (t + 1 + k))); eauto.
  - unfold R2.probeMount.
    apply bind_throw. rewrite start_run, Hstart. reflexivity.
Qed.

(** [classify] answers [Mounted] only on a token of the fuse family. *)
Lemma classify_mounted tok fsType :
  R2.classify tok = R2.Mounted fsType ->
  fsType = tok /\ Js.startsWith "fuse" fsType = true.
Proof.
  unfold R2.classify.
  destruct (negb (Js.truthy tok) || (tok =? "__ERR__")); [discriminate|].
  destruct (Js.startsWith "fuse" tok) eqn:E; [|discriminate].
  intros [= <-]. auto.
Qed.

(** [lazyUnmountR2]: the unmount command is started, waited for at most 25
    polls, and failures of the wait are swallowed. *)
Lemma lazyUnmountR2_run sb t :
  match startProcess sb t lazyUnmountCmd with
  | Rejected e => lazyUnmountR2 sb t = (Throw e, [EStart lazyUnmountCmd])
  | Resolved proc =>
      exists k, k <= 25 /\
        lazyUnmountR2 sb t
        = (Ok tt, EStart lazyUnmountCmd :: repeat (ESleep 200) k)
  end.
Proof.
  unfold R2.lazyUnmountR2.
  destruct (startProcess sb t lazyUnmountCmd) as [proc | e] eqn:Hstart.
  - destruct (waitBestEffort_run proc 5000 200 (t + 1) callSite_5000_200)
      as (k & Hk & Hrun).
    exists k. split; [exact Hk|].
    rewrite (bind_ok _ _ t proc [EStart lazyUnmountCmd])
      by (rewrite start_run, Hstart; reflexivity).
    cbn [length]. rewrite Hrun. reflexivity.
  - apply bind_throw. rewrite start_run, Hstart. reflexivity.
Qed.

End WithConfig.
End R2Facts.

(** ** Claims on [probeMount] and [mountR2Storage] *)

Section MountClaims.

Variables (R2_MOUNT_PATH R2_BUCKET_NAME : string).

#[local] Abbreviation probeCmd := (R2.probeCmd R2_MOUNT_PATH).
#[local] Abbreviation lazyUnmountCmd := (R2.lazyUnmountCmd R2_MOUNT_PATH).
#[local] Abbreviation probeMount := (R2.probeMount R2_MOUNT_PATH).
#[local] Abbreviation lazyUnmountR2 := (R2.lazyUnmountR2 R2_MOUNT_PATH).
#[local] Abbreviation recoverIfUnresponsive :=
  (R2.recoverIfUnresponsive R2_MOUNT_PATH).
#[local] Abbreviation mountR2Storage :=
  (R2.mountR2Storage R2_MOUNT_PATH R2_BUCKET_NAME).
#[local] Abbreviation callMountBucket :=
  (R2.callMountBucket R2_MOUNT_PATH R2_BUCKET_NAME).
#[local] Abbreviation mountEvent := (R2.mountEvent R2_MOUNT_PATH R2_BUCKET_NAME).

Lemma probeCmd_not_unmount : probeCmd <> lazyUnmountCmd.
Proof.
  unfold R2.probeCmd, R2.lazyUnmountCmd. cbn. intros H. discriminate H.
Qed.

Lemma mountCalls_app e1 e2 : mountCalls (e1 ++ e2) = mountCalls e1 + mountCalls e2.
Proof.
  induction e1 as [|[] e1 IH]; cbn [app mountCalls]; rewrite ?IH; reflexivity.
Qed.

Lemma mountCalls_sleeps ms k : mountCalls (repeat (ESleep ms) k) = 0.
Proof. induction k; cbn [repeat mountCalls]; auto. Qed.

Lemma started_app e1 e2 : started (e1 ++ e2) = started e1 ++ started e2.
Proof.
  induction e1 as [|[] e1 IH]; cbn [app started]; rewrite ?IH; reflexivity.
Qed.

Lemma started_sleeps ms k : started (repeat (ESleep ms) k) = [].
Proof. induction k; cbn [repeat started]; auto. Qed.

(** A probe starts the probe command and nothing else, and calls no
    mount. *)
Lemma probeMount_events sb t :
  started (snd (probeMount sb t)) = [probeCmd]
  /\ mountCalls (snd (probeMount sb t)) = 0.
Proof.
  pose proof (R2Facts.probeMount_run R2_MOUNT_PATH sb t) as H.
  destruct (startProcess sb t probeCmd) as [proc | e].
  - destruct H as (k & _ & [H | (fsType & H)]); rewrite H; cbn [snd started mountCalls];
      rewrite ?started_app, ?mountCalls_app, started_sleeps, mountCalls_sleeps;
      split; reflexivity.
  - rewrite H. split; reflexivity.
Qed.

(** So does a lazy unmount with the unmount command. *)
Lemma lazyUnmountR2_events sb t :
  exists rest,
    snd (lazyUnmountR2 sb t) = EStart lazyUnmountCmd :: rest
    /\ started rest = [] /\ mountCalls rest = 0.
Proof.
  pose proof (R2Facts.lazyUnmountR2_run R2_MOUNT_PATH sb t) as H.
  destruct (startProcess sb t lazyUnmountCmd) as [proc | e].
  - destruct H as (k & _ & H). rewrite H. exists (repeat (ESleep 200) k).
    rewrite started_sleeps, mountCalls_sleeps. auto.
  - rewrite H. exists []. auto.
Qed.



(** The run of the controller when the initial probe answers. *)
Lemma mountR2Storage_after_probe sb env c t pr0 e0 :
  credentials env = Some c ->
  probeMount sb t = (Ok pr0, e0) ->
  mountR2Storage sb env t =
  match pr0 with
  | R2.Mounted _ => (Ok true, e0)
  | _ =>
      let rest :=
        (recoverIfUnresponsive sb pr0 ;;
         catch (callMountBucket sb c ;; ret true)
               (R2.onMountError R2_MOUNT_PATH R2_BUCKET_NAME sb c))
          (t + length e0) in
      (fst rest, e0 ++ snd rest)
  end.
Proof.
  intros Hc Hprobe. unfold R2.mountR2Storage. rewrite Hc.
  rewrite (bind_ok _ _ _ _ _ Hprobe).
  destruct pr0; [run_done | reflexivity | reflexivity].
Qed.

(** C8. When the initial probe reports the mounted state, whose [fsType]
    is then of the fuse family, [mountR2Storage] returns [true] at once:
    its interactions are exactly those of the probe, among which there is
    no [mountBucket] call and no start of the lazy-unmount command. *)
Theorem mountR2Storage_already_mounted
    (sb : Sandbox) (env : OpenClawEnv) (c : Credentials) (t : nat)
    (fsType : string) (evs : list Event) :
  credentials env = Some c ->
  probeMount sb t = (Ok (R2.Mounted fsType), evs) ->
  mountR2Storage sb env t = (Ok true, evs)
  /\ Js.startsWith "fuse" fsType = true
  /\ mountCalls evs = 0
  /\ ~ In lazyUnmountCmd (started evs).
Proof.
  intros Hc Hprobe.
  split; [rewrite (mountR2Storage_after_probe sb env c t _ _ Hc Hprobe); reflexivity|].
  pose proof (probeMount_events sb t) as [Hst Hm].
  rewrite Hprobe in Hst, Hm. cbn [snd] in Hst, Hm.
  split; [|split; [exact Hm|]].
  - pose proof (R2Facts.probeMount_run R2_MOUNT_PATH sb t) as H.
    rewrite Hprobe in H.
    destruct (startProcess sb t probeCmd); [|discriminate].
    destruct H as (k & _ & [H | (tok & H)]); [discriminate|].
    injection H as H _.
    symmetry in H. apply R2Facts.classify_mounted in H. apply H.
  - rewrite Hst. intros [H | []]. apply probeCmd_not_unmount. exact H.
Qed.



(** The [try]/[catch] around the first [mountBucket] call, started at
    instant [tm]. *)
Lemma first_mount_attempt sb c tm :
  catch (callMountBucket sb c ;; ret true)
        (R2.onMountError R2_MOUNT_PATH R2_BUCKET_NAME sb c) tm =
  match mountBucket sb tm R2_BUCKET_NAME R2_MOUNT_PATH (R2.mountOptions c) with
  | Resolved _ => (Ok true, [mountEvent c])
  | Rejected err =>
      (fst (R2.onMountError R2_MOUNT_PATH R2_BUCKET_NAME sb c err (tm + 1)),
       mountEvent c
       :: snd (R2.onMountError R2_MOUNT_PATH R2_BUCKET_NAME sb c err (tm + 1)))
  end.
Proof.
  unfold catch at 1, bind, R2.callMountBucket, await.
  destruct (mountBucket sb tm R2_BUCKET_NAME R2_MOUNT_PATH (R2.mountOptions c)).
  - reflexivity.
  - cbn [length].
    destruct (R2.onMountError R2_MOUNT_PATH R2_BUCKET_NAME sb c e (tm + 1)).
    reflexivity.
Qed.


(** The run of the controller up to a failed first mount call. *)
Lemma mountR2Storage_after_failure sb env c t pr0 e0 e1 err :
  credentials env = Some c ->
  probeMount sb t = (Ok pr0, e0) ->
  (forall fs, pr0 <> R2.Mounted fs) ->
  recoverIfUnresponsive sb pr0 (t + length e0) = (Ok tt, e1) ->
  mountBucket sb (t + length e0 + length e1) R2_BUCKET_NAME R2_MOUNT_PATH
    (R2.mountOptions c) = Rejected err ->
  mountR2Storage sb env t =
  (fst (R2.onMountError R2_MOUNT_PATH R2_BUCKET_NAME sb c err
          (t + length e0 + length e1 + 1)),
   (e0 ++ e1 ++ [mountEvent c])
   ++ snd (R2.onMountError R2_MOUNT_PATH R2_BUCKET_NAME sb c err
             (t + length e0 + length e1 + 1))).
Proof.
  intros Hc Hprobe Hnot Hrec Hmount.
  rewrite (mountR2Storage_after_probe sb env c t _ _ Hc Hprobe).
  assert ((recoverIfUnresponsive sb pr0 ;;
           catch (callMountBucket sb c ;; ret true)
                 (R2.onMountError R2_MOUNT_PATH R2_BUCKET_NAME sb c))
            (t + length e0)
          = (fst (R2.onMountError R2_MOUNT_PATH R2_BUCKET_NAME sb c err
                    (t + length e0 + length e1 + 1)),
             e1 ++ mountEvent c
             :: snd (R2.onMountError R2_MOUNT_PATH R2_BUCKET_NAME sb c err
                       (t + length e0 + length e1 + 1)))) as Hrest.
  { rewrite (bind_ok _ _ _ _ _ Hrec), first_mount_attempt, Hmount. reflexivity. }
  destruct pr0 as [fs | fs |]; [exfalso; exact (Hnot fs eq_refl) | |];
    cbv zeta; rewrite Hrest; cbn [fst snd];
    rewrite <- !app_assoc; reflexivity.
Qed.



(** C9. Whenever a probe made by [mountR2Storage] reports [Unresponsive],
    be it the initial probe or the re-probe that follows a mount failure
    with the path-already-in-use signature, the very next interaction is
    the start of the lazy-unmount command: no [mountBucket] call is made
    during the probe, and any later one comes after that start. *)
Theorem unresponsive_probe_unmounts_before_mount
    (sb : Sandbox) (env : OpenClawEnv) (c : Credentials) (t : nat) :
  credentials env = Some c ->
  (forall e0,
     probeMount sb t = (Ok R2.Unresponsive, e0) ->
     mountCalls e0 = 0
     /\ exists rest,
         snd (mountR2Storage sb env t) = e0 ++ EStart lazyUnmountCmd :: rest)
  /\ (forall pr0 e0 e1 err e2,
        probeMount sb t = (Ok pr0, e0) ->
        (forall fs, pr0 <> R2.Mounted fs) ->
        recoverIfUnresponsive sb pr0 (t + length e0) = (Ok tt, e1) ->
        mountBucket sb (t + length e0 + length e1)
          R2_BUCKET_NAME R2_MOUNT_PATH (R2.mountOptions c) = Rejected err ->
        R2.isMountPathInUseError (message err) = true ->
        probeMount sb (t + length e0 + length e1 + 1) = (Ok R2.Unresponsive, e2) ->
        mountCalls e2 = 0
        /\ exists rest,
            snd (mountR2Storage sb env t)
            = (e0 ++ e1 ++ [mountEvent c]) ++ e2 ++ EStart lazyUnmountCmd :: rest).
Proof.
  intros Hc. split.
  - intros e0 Hprobe.
    pose proof (probeMount_events sb t) as [_ H0].
    rewrite Hprobe in H0. split; [exact H0|].
    rewrite (mountR2Storage_after_probe sb env c t _ _ Hc Hprobe).
    cbv zeta. cbn [snd R2.recoverIfUnresponsive].
    destruct (lazyUnmountR2_events sb (t + length e0)) as (rest & E & _).
    unfold bind at 1.
    destruct (lazyUnmountR2 sb (t + length e0)) as [[[]| |] ev] eqn:Hun;
      cbn [snd] in E; subst ev.
    + destruct (catch _ _ _) as [r ev2]. cbn [snd].
      exists (rest ++ ev2). reflexivity.
    + exists rest. reflexivity.
    + exists rest. reflexivity.
  - intros pr0 e0 e1 err e2 Hprobe Hnot Hrec Hmount Hsig Hre.
    pose proof (probeMount_events sb (t + length e0 + length e1 + 1)) as [_ H2].
    rewrite Hre in H2. split; [exact H2|].
    rewrite (mountR2Storage_after_failure sb env c t pr0 e0 e1 err
               Hc Hprobe Hnot Hrec Hmount).
    cbn [snd]. unfold R2.onMountError. rewrite Hsig.
    rewrite (bind_ok _ _ _ _ _ Hre). cbn [snd].
    set (tu := t + length e0 + length e1 + 1 + length e2).
    destruct (lazyUnmountR2_events sb tu) as (rest & E & _).
    unfold bind at 1.
    destruct (lazyUnmountR2 sb tu) as [[[]| |] ev] eqn:Hun;
      cbn [snd] in E; subst ev.
    + destruct (catch _ _ _) as [r ev2]. cbn [snd].
      exists (rest ++ ev2). reflexivity.
    + exists rest. reflexivity.
    + exists rest. reflexivity.
Qed.

End MountClaims.


Lemma mountR2Storage_already_mounted_witness :
  R2.mountR2Storage examplePath exampleBucket mountedSandbox exampleEnv 0
  = (Ok true, [EStart (R2.probeCmd examplePath); EGetLogs "proc"]).
Proof.
  destruct (mountR2Storage_already_mounted examplePath exampleBucket
              mountedSandbox exampleEnv exampleCredentials 0 "fuse.s3fs"
              [EStart (R2.probeCmd examplePath); EGetLogs "proc"])
    as [Hrun _].
  - reflexivity.
  - reflexivity.
  - exact Hrun.
Defined.


Lemma unresponsive_probe_unmounts_before_mount_witness :
  exists rest,
    snd (R2.mountR2Storage examplePath exampleBucket hungSandbox exampleEnv 0)
    = (EStart (R2.probeCmd examplePath) :: repeat (ESleep 200) 25)
      ++ EStart (R2.lazyUnmountCmd examplePath) :: rest.
Proof.
  destruct (unresponsive_probe_unmounts_before_mount examplePath exampleBucket
              hungSandbox exampleEnv exampleCredentials 0 eq_refl)
    as [Hinitial _].
  destruct (Hinitial (EStart (R2.probeCmd examplePath) :: repeat (ESleep 200) 25)
              eq_refl) as [_ Hrest].
  exact Hrest.
Defined.

(** ** The sync orchestrator *)

Section RunInversion.

Context {A B : Type}.

Lemma bind_inv_ok (m : M A) (f : A -> M B) t b evs :
  bind m f t = (Ok b, evs) ->
  exists a e1 e2,
    m t = (Ok a, e1) /\ f a (t + length e1) = (Ok b, e2) /\ evs = e1 ++ e2.
Proof.
  unfold bind. destruct (m t) as [[a | e |] e1]; try discriminate.
  destruct (f a (t + length e1)) as [r e2] eqn:Hf.
  intros [= -> <-]. exists a, e1, e2. auto.
Qed.

Lemma catch_inv_ok (m : M A) (h : Error -> M A) t a evs :
  catch m h t = (Ok a, evs) ->
  m t = (Ok a, evs)
  \/ exists e e1 e2,
      m t = (Throw e, e1) /\ h e (t + length e1) = (Ok a, e2) /\ evs = e1 ++ e2.
Proof.
  unfold catch. destruct (m t) as [[a' | e |] e1]; try discriminate.
  - intros [= -> <-]. auto.
  - destruct (h e (t + length e1)) as [r e2] eqn:Hh.
    intros [= -> <-]. right. exists e, e1, e2. auto.
Qed.

(** The interactions of a sequence start with those of its first part. *)
Lemma bind_events (m : M A) (f : A -> M B) t :
  snd (bind m f t) = snd (m t)
  \/ exists a,
      fst (m t) = Ok a
      /\ bind m f t
         = (fst (f a (t + length (snd (m t)))),
            snd (m t) ++ snd (f a (t + length (snd (m t))))).
Proof.
  unfold bind. destruct (m t) as [[a | e |] e1]; cbn [fst snd]; auto.
  right. exists a. split; [reflexivity|].
  destruct (f a (t + length e1)); reflexivity.
Qed.

End RunInversion.

Lemma catch_events {A} (m : M A) (h : Error -> M A) t :
  snd (catch m h t) = snd (m t)
  \/ exists e,
      fst (m t) = Throw e
      /\ catch m h t
         = (fst (h e (t + length (snd (m t)))),
            snd (m t) ++ snd (h e (t + length (snd (m t))))).
Proof.
  unfold catch. destruct (m t) as [[a | e |] e1]; cbn [fst snd]; auto.
  right. exists e. split; [reflexivity|].
  destruct (h e (t + length e1)); reflexivity.
Qed.

(** The loop of [waitForProcess] only sleeps, whatever the bound. *)
Lemma waitLoop_only_sleeps proc ms bound fuel :
  forall attempts t,
    snd (Utils.waitLoop fuel proc ms bound attempts t)
    = repeat (ESleep ms)
        (length (snd (Utils.waitLoop fuel proc ms bound attempts t))).
Proof.
  induction fuel as [|fuel IH]; intros attempts t; cbn [Utils.waitLoop].
  - destruct (_ && _); reflexivity.
  - destruct (_ && _); [|reflexivity].
    unfold bind, sleep, await. cbn [length].
    specialize (IH (attempts + 1)%Z (t + 1)).
    destruct (Utils.waitLoop fuel proc ms bound (attempts + 1) (t + 1))
      as [[[]| |] evs]; cbn [snd length repeat app] in *; congruence.
Qed.

Lemma waitForProcess_only_sleeps fuel proc timeoutMs ms t :
  snd (Utils.waitForProcess fuel proc timeoutMs ms t)
  = repeat (ESleep ms)
      (length (snd (Utils.waitForProcess fuel proc timeoutMs ms t))).
Proof.
  unfold Utils.waitForProcess.
  pose proof (waitLoop_only_sleeps proc ms (Utils.maxAttempts timeoutMs ms)
                fuel 0%Z t) as H.
  destruct (bind_events
              (Utils.waitLoop fuel proc ms (Utils.maxAttempts timeoutMs ms) 0%Z)
              (fun _ => t0 <- now ;;
                 if Utils.active (status proc t0)
                 then throw (TimeoutError timeoutMs (status proc t0))
                 else ret tt) t) as [E | (a & _ & E)].
  - rewrite E. exact H.
  - rewrite E. cbn [snd].
    assert (forall t', snd ((t0 <- now ;;
                             if Utils.active (status proc t0)
                             then throw (TimeoutError timeoutMs (status proc t0))
                             else ret tt) t') = []) as Htail.
    { intros t'. unfold bind, now. cbn [length].
      destruct (Utils.active _); reflexivity. }
    rewrite Htail, app_nil_r. exact H.
Qed.

(** *** Lists of interactions *)

Lemma in_started cmd evs : In (EStart cmd) evs -> In cmd (started evs).
Proof.
  induction evs as [|ev evs IH]; [intros []|].
  intros [-> | H]; [left; reflexivity|].
  destruct ev; cbn [started]; auto. right. auto.
Qed.

Lemma not_started cmd evs : started evs = [] -> ~ In (EStart cmd) evs.
Proof. intros H Hin. apply in_started in Hin. rewrite H in Hin. exact Hin. Qed.

(** An element found in [a ++ b] that [a] does not contain is found in [b]. *)
Lemma app_split_at (x : Event) a :
  forall b pre rest,
    a ++ b = pre ++ x :: rest ->
    ~ In x a ->
    exists pre', pre = a ++ pre' /\ b = pre' ++ x :: rest.
Proof.
  induction a as [|y a IH]; intros b pre rest E Hnot.
  - exists pre. auto.
  - destruct pre as [|z pre]; cbn [app] in E; injection E as -> E.
    + exfalso. apply Hnot. left. reflexivity.
    + destruct (IH b pre rest E) as (pre' & -> & ->).
      * intros H. apply Hnot. right. exact H.
      * exists pre'. auto.
Qed.

Lemma sleeps_not_start ms k cmd : ~ In (EStart cmd) (repeat (ESleep ms) k).
Proof. intros H. apply repeat_spec in H. discriminate H. Qed.

(** Two ways of cutting the same interactions after a run of poll sleeps
    agree. *)
Lemma sleeps_unique ms k :
  forall k' post post',
    repeat (ESleep ms) k ++ post = repeat (ESleep ms) k' ++ post' ->
    pollsEnded post -> pollsEnded post' ->
    k = k' /\ post = post'.
Proof.
  induction k as [|k IH]; intros [|k'] post post' E H H'; cbn [repeat app] in E.
  - auto.
  - subst post. contradiction.
  - subst post'. contradiction.
  - injection E as E. destruct (IH k' post post' E H H') as [-> ->]. auto.
Qed.

Section SyncFacts.

Variables (R2_MOUNT_PATH R2_BUCKET_NAME : string).

#[local] Abbreviation isStage := (isStage R2_MOUNT_PATH).
#[local] Abbreviation stageStarts := (stageStarts R2_MOUNT_PATH).
#[local] Abbreviation syncOpenclawCmd := (Sync.syncOpenclawCmd R2_MOUNT_PATH).
#[local] Abbreviation syncWorkspaceCmd := (Sync.syncWorkspaceCmd R2_MOUNT_PATH).
#[local] Abbreviation syncSkillsCmd := (Sync.syncSkillsCmd R2_MOUNT_PATH).
#[local] Abbreviation writeTimestampCmd := (Sync.writeTimestampCmd R2_MOUNT_PATH).
#[local] Abbreviation readTimestampCmd := (Sync.readTimestampCmd R2_MOUNT_PATH).
#[local] Abbreviation verifyCmd := (Sync.verifyCmd R2_MOUNT_PATH).
#[local] Abbreviation diagCmd := (Sync.diagCmd R2_MOUNT_PATH).

(** *** Which commands are stages *)

Lemma stage_probe : isStage (R2.probeCmd R2_MOUNT_PATH) = false.
Proof. reflexivity. Qed.

Lemma stage_unmount : isStage (R2.lazyUnmountCmd R2_MOUNT_PATH) = false.
Proof. reflexivity. Qed.

Lemma stage_verify : isStage verifyCmd = false.
Proof. reflexivity. Qed.

Lemma stage_read : isStage readTimestampCmd = false.
Proof. reflexivity. Qed.

Lemma stage_diag : isStage diagCmd = false.
Proof. reflexivity. Qed.

Lemma stage_write : isStage writeTimestampCmd = true.
Proof.
  unfold Stages.isStage. rewrite String.eqb_refl. apply orb_true_r.
Qed.

Lemma copyPass_write : isCopyPass writeTimestampCmd = false.
Proof. reflexivity. Qed.

Lemma copyPass_openclaw : isCopyPass syncOpenclawCmd = true.
Proof. reflexivity. Qed.

Lemma copyPass_workspace : isCopyPass syncWorkspaceCmd = true.
Proof. reflexivity. Qed.

Lemma copyPass_skills : isCopyPass syncSkillsCmd = true.
Proof. reflexivity. Qed.

Lemma copyPass_is_stage cmd : isCopyPass cmd = true -> isStage cmd = true.
Proof. intros H. unfold Stages.isStage. rewrite H. reflexivity. Qed.


(** *** Interactions that start no stage *)

Lemma stageStarts_app e1 e2 :
  stageStarts (e1 ++ e2) = stageStarts e1 ++ stageStarts e2.
Proof.
  unfold Stages.stageStarts. rewrite started_app. apply filter_app.
Qed.

Lemma stageStarts_sleeps ms k : stageStarts (repeat (ESleep ms) k) = [].
Proof. unfold Stages.stageStarts. rewrite started_sleeps. reflexivity. Qed.

Lemma quiet_bind {A B} (m : M A) (f : A -> M B) t :
  stageStarts (snd (m t)) = [] ->
  (forall a t', stageStarts (snd (f a t')) = []) ->
  stageStarts (snd (bind m f t)) = [].
Proof.
  intros Hm Hf. destruct (bind_events m f t) as [E | (a & _ & E)]; rewrite E.
  - exact Hm.
  - cbn [snd]. rewrite stageStarts_app, Hm, Hf. reflexivity.
Qed.

Lemma quiet_catch {A} (m : M A) (h : Error -> M A) t :
  stageStarts (snd (m t)) = [] ->
  (forall e t', stageStarts (snd (h e t')) = []) ->
  stageStarts (snd (catch m h t)) = [].
Proof.
  intros Hm Hh. destruct (catch_events m h t) as [E | (e & _ & E)]; rewrite E.
  - exact Hm.
  - cbn [snd]. rewrite stageStarts_app, Hm, Hh. reflexivity.
Qed.

Lemma quiet_wait fuel proc timeoutMs ms t :
  stageStarts (snd (Utils.waitForProcess fuel proc timeoutMs ms t)) = [].
Proof. rewrite waitForProcess_only_sleeps. apply stageStarts_sleeps. Qed.

Lemma quiet_start sb cmd t :
  isStage cmd = false -> stageStarts (snd (start sb cmd t)) = [].
Proof.
  intros H. rewrite start_run.
  destruct (startProcess sb t cmd); cbn [snd];
    unfold Stages.stageStarts; cbn [started filter]; rewrite H; reflexivity.
Qed.

Lemma quiet_await {A} ev (reply : nat -> Reply A) t :
  started [ev] = [] -> stageStarts (snd (await ev reply t)) = [].
Proof.
  intros H. unfold await.
  destruct (reply t); cbn [snd]; unfold Stages.stageStarts; rewrite H; reflexivity.
Qed.

(** Proves that a computation starts no stage, by following its structure. *)
Ltac quiet :=
  repeat first
    [ reflexivity
    | apply quiet_wait
    | apply quiet_start; reflexivity
    | apply quiet_await; reflexivity
    | apply quiet_bind; [|intros]
    | apply quiet_catch; [|intros]
    | match goal with
      | |- context [match ?x with _ => _ end] => destruct x
      end ].

Lemma quiet_fetchLogsOrEmpty proc t :
  stageStarts (snd (fetchLogsOrEmpty proc t)) = [].
Proof. unfold fetchLogsOrEmpty, fetchLogs. quiet. Qed.

Lemma quiet_waitBestEffort proc timeoutMs ms t :
  stageStarts (snd (waitBestEffort proc timeoutMs ms t)) = [].
Proof. unfold waitBestEffort. quiet. Qed.

Lemma quiet_probeMount sb t :
  stageStarts (snd (R2.probeMount R2_MOUNT_PATH sb t)) = [].
Proof.
  unfold R2.probeMount. quiet; try apply quiet_fetchLogsOrEmpty.
Qed.

Lemma quiet_lazyUnmountR2 sb t :
  stageStarts (snd (R2.lazyUnmountR2 R2_MOUNT_PATH sb t)) = [].
Proof.
  unfold R2.lazyUnmountR2. quiet; try apply quiet_waitBestEffort.
Qed.

Lemma quiet_mountR2Storage sb env t :
  stageStarts (snd (R2.mountR2Storage R2_MOUNT_PATH R2_BUCKET_NAME sb env t)) = [].
Proof.
  unfold R2.mountR2Storage, R2.recoverIfUnresponsive, R2.onMountError,
    R2.callMountBucket.
  quiet; try apply quiet_probeMount; try apply quiet_lazyUnmountR2.
Qed.

Lemma quiet_checkForActiveRsync sb t :
  stageStarts (snd (Sync.checkForActiveRsync R2_MOUNT_PATH sb t)) = [].
Proof. unfold Sync.checkForActiveRsync. quiet. Qed.

Lemma quiet_pollVerifyLogs proc n :
  forall out err t,
    stageStarts (snd (Sync.pollVerifyLogs proc n out err t)) = [].
Proof.
  induction n as [|n IH]; intros out err t; cbn [Sync.pollVerifyLogs].
  - reflexivity.
  - apply quiet_bind; [apply quiet_fetchLogsOrEmpty|]. intros logs t'.
    destruct (_ || _); [reflexivity|].
    apply quiet_bind; [reflexivity|]. intros _ t''. apply IH.
Qed.

Lemma quiet_verifySource sb t :
  stageStarts (snd (Sync.verifySource R2_MOUNT_PATH sb t)) = [].
Proof.
  unfold Sync.verifySource, Sync.judgeVerify.
  quiet; try apply quiet_waitBestEffort; try apply quiet_pollVerifyLogs.
Qed.

Lemma quiet_bestEffortKill proc t :
  stageStarts (snd (Sync.bestEffortKill proc t)) = [].
Proof. unfold Sync.bestEffortKill. quiet. Qed.

Lemma quiet_markerUnverified sb proc t :
  stageStarts (snd (Sync.markerUnverified R2_MOUNT_PATH sb proc t)) = [].
Proof.
  unfold Sync.markerUnverified, fetchLogs.
  quiet; try apply quiet_waitBestEffort; try apply quiet_fetchLogsOrEmpty.
Qed.


(** *** One copy pass *)

Lemma bestEffortKill_run proc t :
  exists tail,
    Sync.bestEffortKill proc t = (Ok tt, tail) /\ started tail = [].
Proof.
  unfold Sync.bestEffortKill. destruct (kill proc) as [k|].
  - unfold catch, await. destruct (k t) as [[]|]; eexists; split; reflexivity.
  - eexists; split; reflexivity.
Qed.

Lemma waitOrKill_run proc t :
  exists k,
    (Utils.active (status proc (t + k)) = false
     /\ Sync.waitOrKill proc t
        = (Ok tt, repeat (ESleep Utils.defaultPollIntervalMs) k))
    \/ (Utils.active (status proc (t + k)) = true
        /\ exists e tail,
            Sync.waitOrKill proc t
            = (Throw e,
               repeat (ESleep Utils.defaultPollIntervalMs) k
               ++ EGetLogs (procId proc) :: tail)
            /\ started tail = []).
Proof.
  destruct callSite_sync as [Hp Hfuel].
  destruct (first_settle (fun j => Utils.active (status proc (t + j)))
              (Utils.polls Sync.DEFAULT_SYNC_TIMEOUT_MS Utils.defaultPollIntervalMs))
    as (k & Hk & Hbefore & Hend).
  exists k.
  pose proof (wait_after_steps callFuel proc _ _ Hp Hfuel t k Hk Hbefore Hend)
    as Hwait.
  unfold Sync.waitOrKill.
  destruct (Utils.active (status proc (t + k))) eqn:Ha.
  - right. split; [reflexivity|].
    rewrite (catch_throw _ _ _ _ _ Hwait). rewrite repeat_length.
    rewrite (bind_ok _ _ _ _ _ (fetchLogsOrEmpty_run proc (t + k))).
    destruct (bestEffortKill_run proc (t + k + length [EGetLogs (procId proc)]))
      as (tail & Hkill & Htail).
    rewrite (bind_ok _ _ _ _ _ Hkill).
    unfold throw. cbn [fst snd app]. rewrite app_nil_r.
    eexists _, tail. split; [reflexivity | exact Htail].
  - left. split; [reflexivity|]. apply catch_ok. exact Hwait.
Qed.

Lemma ensureRsyncSuccess_run proc which t :
  if Sync.rsyncFailed proc t
  then exists d,
      Sync.ensureRsyncSuccess proc which t
      = (Ok (Some (Sync.failure "Sync failed" d)), [EGetLogs (procId proc)])
  else Sync.ensureRsyncSuccess proc which t = (Ok None, []).
Proof.
  unfold Sync.ensureRsyncSuccess.
  rewrite (bind_ok now _ t t []) by reflexivity.
  cbn [length app]. rewrite Nat.add_0_r.
  destruct (Sync.rsyncFailed proc t).
  - rewrite (bind_ok _ _ _ _ _ (fetchLogsOrEmpty_run proc t)).
    unfold ret. cbn [fst snd app]. eexists. reflexivity.
  - reflexivity.
Qed.

(** The three ways a started copy pass can go: the wait times out, the
    check fails, or the check passes and the run goes on with [next]. *)
Lemma copyPass_run sb cmd which next t :
  match startProcess sb t cmd with
  | Rejected e => copyPass sb cmd which next t = (Throw e, [EStart cmd])
  | Resolved proc =>
      exists k,
        (Utils.active (status proc (t + 1 + k)) = true
         /\ exists e tail,
             copyPass sb cmd which next t
             = (Throw e,
                EStart cmd :: repeat (ESleep Utils.defaultPollIntervalMs) k
                ++ EGetLogs (procId proc) :: tail)
             /\ started tail = [])
        \/ (Utils.active (status proc (t + 1 + k)) = false
            /\ Sync.rsyncFailed proc (t + 1 + k) = true
            /\ exists d,
                copyPass sb cmd which next t
                = (Ok (Sync.failure "Sync failed" d),
                   EStart cmd :: repeat (ESleep Utils.defaultPollIntervalMs) k
                   ++ [EGetLogs (procId proc)]))
        \/ (Utils.active (status proc (t + 1 + k)) = false
            /\ Sync.rsyncFailed proc (t + 1 + k) = false
            /\ copyPass sb cmd which next t
               = (fst (next proc (t + 1 + k)),
                  EStart cmd :: repeat (ESleep Utils.defaultPollIntervalMs) k
                  ++ snd (next proc (t + 1 + k))))
  end.
Proof.
  unfold copyPass.
  destruct (startProcess sb t cmd) as [proc | e] eqn:Hstart.
  - rewrite (bind_ok _ _ t proc [EStart cmd])
      by (rewrite start_run, Hstart; reflexivity).
    cbn [length].
    destruct (waitOrKill_run proc (t + 1)) as (k & [(Ha & Hw) | (Ha & e & tail & Hw & Ht)]).
    + exists k. right.
      rewrite (bind_ok _ _ _ _ _ Hw). rewrite repeat_length.
      pose proof (ensureRsyncSuccess_run proc which (t + 1 + k)) as He.
      destruct (Sync.rsyncFailed proc (t + 1 + k)).
      * left. repeat split; auto. destruct He as (d & He). exists d.
        rewrite (bind_ok _ _ _ _ _ He). run_done.
      * right. repeat split; auto.
        rewrite (bind_ok _ _ _ _ _ He). run_done.
    + exists k. left. split; [exact Ha|]. exists e, tail. split; [|exact Ht].
      rewrite (bind_throw _ _ _ _ _ Hw). cbn [fst snd app]. reflexivity.
  - apply bind_throw. rewrite start_run, Hstart. reflexivity.
Qed.


(** *** The chain of stages *)

#[local] Abbreviation GoodRun := (GoodRun R2_MOUNT_PATH).
#[local] Abbreviation StagesGated := (StagesGated R2_MOUNT_PATH).
#[local] Abbreviation stageFirst := (stageFirst R2_MOUNT_PATH).

Lemma stageFirst_pollsEnded evs : stageFirst evs -> pollsEnded evs.
Proof. destruct evs as [|[] evs]; cbn; auto. Qed.

Lemma stageFirst_starts evs pre :
  stageFirst evs -> (exists rest, evs = pre ++ rest) -> pre <> [] ->
  stageStarts pre <> [].
Proof.
  intros Hf (rest & ->) Hne. destruct pre as [|ev pre]; [congruence|].
  cbn [app] in Hf. destruct ev; cbn in Hf; try contradiction.
  unfold Stages.stageStarts. cbn [started filter]. rewrite Hf. discriminate.
Qed.

(** Where the start of a command can stand in the interactions of a
    stage. *)
Lemma stage_split cmd ms k0 X pre c rest :
  EStart cmd :: repeat (ESleep ms) k0 ++ X = pre ++ EStart c :: rest ->
  (pre = [] /\ c = cmd /\ rest = repeat (ESleep ms) k0 ++ X)
  \/ exists pre',
      pre = EStart cmd :: repeat (ESleep ms) k0 ++ pre'
      /\ X = pre' ++ EStart c :: rest.
Proof.
  intros E. destruct pre as [|ev pre]; cbn [app] in E; injection E as E1 E2.
  - left. subst. auto.
  - right. subst ev.
    destruct (app_split_at (EStart c) _ _ _ _ E2 (sleeps_not_start ms k0 c))
      as (pre' & -> & ->).
    exists pre'. auto.
Qed.

Lemma stage_time t cmd ms k0 (pre' : list Event) :
  t + length (EStart cmd :: repeat (ESleep ms) k0 ++ pre')
  = t + 1 + k0 + length pre'.
Proof. cbn [length]. rewrite length_app, repeat_length. lia. Qed.

Lemma copyPass_good sb cmd which next t :
  isCopyPass cmd = true ->
  (forall proc t', GoodRun sb t' (next proc t')) ->
  GoodRun sb t (copyPass sb cmd which next t).
Proof.
  intros Hcp Hnext.
  pose proof (copyPass_run sb cmd which next t) as Hrun.
  destruct (startProcess sb t cmd) as [proc | e] eqn:Hstart.
  - destruct Hrun as (k0 & Hrun).
    assert (exists r X,
              copyPass sb cmd which next t
              = (r, EStart cmd :: repeat (ESleep Utils.defaultPollIntervalMs) k0 ++ X)
              /\ pollsEnded X
              /\ ((Utils.active (status proc (t + 1 + k0)) = true
                   /\ forall c, ~ In (EStart c) X)
                  \/ (Utils.active (status proc (t + 1 + k0)) = false
                      /\ Sync.rsyncFailed proc (t + 1 + k0) = true
                      /\ (exists d, r = Ok (Sync.failure "Sync failed" d))
                      /\ X = [EGetLogs (procId proc)])
                  \/ (Utils.active (status proc (t + 1 + k0)) = false
                      /\ Sync.rsyncFailed proc (t + 1 + k0) = false
                      /\ GoodRun sb (t + 1 + k0) (r, X))))
      as (r & X & -> & HX & Hcases).
    { destruct Hrun as [(Ha & e & tail & E & Ht) | [(Ha & Hf & d & E) | (Ha & Hf & E)]].
      - exists (Throw e), (EGetLogs (procId proc) :: tail).
        split; [exact E|]. split; [exact I|]. left. split; [exact Ha|].
        intros c [H | H]; [discriminate H | exact (not_started c tail Ht H)].
      - exists (Ok (Sync.failure "Sync failed" d)), [EGetLogs (procId proc)].
        split; [exact E|]. split; [exact I|]. right. left.
        repeat split; eauto.
      - exists (fst (next proc (t + 1 + k0))), (snd (next proc (t + 1 + k0))).
        split; [exact E|].
        pose proof (Hnext proc (t + 1 + k0)) as Hgood.
        split; [apply stageFirst_pollsEnded, Hgood|]. right. right.
        split; [exact Ha|]. split; [exact Hf|].
        destruct (next proc (t + 1 + k0)); exact Hgood. }
    unfold Stages.GoodRun. cbn [fst snd]. split; [|split].
    + cbn. apply copyPass_is_stage, Hcp.
    + intros pre c k post p E Hc Hend Hp Hsettled Hfailed.
      destruct (stage_split _ _ _ _ _ _ _ E) as [(-> & -> & Hrest) | (pre' & -> & HX')].
      * cbn [length] in Hp, Hsettled, Hfailed. rewrite Nat.add_0_r in Hp, Hsettled, Hfailed.
        rewrite Hstart in Hp. injection Hp as <-.
        destruct (sleeps_unique _ _ _ _ _ Hrest Hend HX) as [-> ->].
        destruct Hcases as [(Ha & _) | [(_ & _ & Hr & ->) | (_ & Hf & _)]].
        -- congruence.
        -- auto.
        -- congruence.
      * destruct Hcases as [(_ & Hno) | [(_ & _ & _ & ->) | (_ & _ & Hgood)]].
        -- exfalso. apply (Hno c). rewrite HX'. apply in_elt.
        -- exfalso. destruct pre' as [|? [|? ?]]; discriminate HX'.
        -- rewrite stage_time in Hp, Hsettled, Hfailed.
           destruct Hgood as (_ & Hstops & _). cbn [fst snd] in Hstops.
           exact (Hstops pre' c k post p HX' Hc Hend Hp Hsettled Hfailed).
    + intros pre nxt post E Hstage Hne.
      destruct (stage_split _ _ _ _ _ _ _ E) as [(-> & _) | (pre' & -> & HX')].
      * exfalso. apply Hne. reflexivity.
      * destruct Hcases as [(_ & Hno) | [(_ & _ & _ & ->) | (Ha & Hf & Hgood)]].
        -- exfalso. apply (Hno nxt). rewrite HX'. apply in_elt.
        -- exfalso. destruct pre' as [|? [|? ?]]; discriminate HX'.
        -- destruct Hgood as (Hfirst & _ & Hgated). cbn [fst snd] in Hfirst, Hgated.
           destruct pre' as [|ev pre'].
           ++ exists [], cmd, k0, proc. rewrite stage_time. cbn [length app].
              rewrite !Nat.add_0_r, app_nil_r. auto.
           ++ assert (stageStarts (ev :: pre') <> []) as Hne'.
              { apply (stageFirst_starts X); [exact Hfirst | eauto | discriminate]. }
              destruct (Hgated (ev :: pre') nxt post HX' Hstage Hne')
                as (before & prev & k & p & Hpre & Hprev & Hp & Hsettled & Hpass).
              exists (EStart cmd :: repeat (ESleep Utils.defaultPollIntervalMs) k0
                      ++ before), prev, k, p.
              rewrite !stage_time. rewrite Hpre in Hsettled, Hpass |- *.
              cbn [app]. rewrite <- app_assoc. auto.
  - rewrite Hrun. unfold Stages.GoodRun. cbn [fst snd]. split; [|split].
    + cbn. apply copyPass_is_stage, Hcp.
    + intros pre c k post p E _ _ Hp _ _.
      destruct pre as [|ev [|ev' pre]]; try discriminate E.
      injection E as -> _. cbn [length] in Hp. rewrite Nat.add_0_r in Hp.
      congruence.
    + intros pre nxt post E _ Hne.
      destruct pre as [|ev [|ev' pre]]; try discriminate E.
      exfalso. apply Hne. reflexivity.
Qed.


#[local] Abbreviation InStageOrder := (InStageOrder R2_MOUNT_PATH).
#[local] Abbreviation replicateBody := (replicateBody R2_MOUNT_PATH).
#[local] Abbreviation replicate := (Sync.replicate R2_MOUNT_PATH).
#[local] Abbreviation syncToR2 := (Sync.syncToR2 R2_MOUNT_PATH R2_BUCKET_NAME).

Lemma quiet_no_stage evs cmd :
  stageStarts evs = [] -> isStage cmd = true -> ~ In (EStart cmd) evs.
Proof.
  intros Hq Hs Hin. apply in_started in Hin.
  assert (In cmd (stageStarts evs)) as H
      by (apply filter_In; split; assumption).
  rewrite Hq in H. exact H.
Qed.

(** Interactions that start no stage satisfy the two stage properties. *)
Lemma quiet_failstops sb t r evs :
  stageStarts evs = [] -> FailedPassStops sb t r evs.
Proof.
  intros Hq pre cmd k post proc E Hc _ _ _ _. exfalso.
  apply (quiet_no_stage evs cmd Hq (copyPass_is_stage cmd Hc)).
  rewrite E. apply in_elt.
Qed.

Lemma quiet_gated sb t evs : stageStarts evs = [] -> StagesGated sb t evs.
Proof.
  intros Hq pre next post E Hs _. exfalso.
  apply (quiet_no_stage evs next Hq Hs). rewrite E. apply in_elt.
Qed.

(** They can be put in front of a run without breaking these properties. *)
Lemma failstops_shift sb t r a evs :
  stageStarts a = [] ->
  FailedPassStops sb (t + length a) r evs ->
  FailedPassStops sb t r (a ++ evs).
Proof.
  intros Hq H pre cmd k post proc E Hc Hend Hp Hsettled Hfailed.
  destruct (app_split_at (EStart cmd) a evs pre _ E
              (quiet_no_stage a cmd Hq (copyPass_is_stage cmd Hc)))
    as (pre' & -> & E').
  rewrite length_app, Nat.add_assoc in Hp, Hsettled, Hfailed.
  exact (H pre' cmd k post proc E' Hc Hend Hp Hsettled Hfailed).
Qed.

Lemma gated_shift sb t a evs :
  stageStarts a = [] ->
  StagesGated sb (t + length a) evs ->
  StagesGated sb t (a ++ evs).
Proof.
  intros Hq H pre next post E Hs Hne.
  destruct (app_split_at (EStart next) a evs pre _ E (quiet_no_stage a next Hq Hs))
    as (pre' & -> & E').
  rewrite stageStarts_app, Hq in Hne. cbn [app] in Hne.
  destruct (H pre' next post E' Hs Hne)
    as (before & prev & k & proc & -> & Hprev & Hp & Hsettled & Hpass).
  exists (a ++ before), prev, k, proc.
  rewrite !length_app, !Nat.add_assoc, <- app_assoc.
  rewrite length_app, !Nat.add_assoc in Hsettled, Hpass. auto.
Qed.

(** A stage that is not a copy pass and after which no stage starts. *)
Lemma last_stage_good sb t r cmd rest :
  isStage cmd = true -> isCopyPass cmd = false -> stageStarts rest = [] ->
  GoodRun sb t (r, EStart cmd :: rest).
Proof.
  intros Hs Hc Hq. unfold Stages.GoodRun. cbn [fst snd]. split; [exact Hs|]. split.
  - intros pre c k post proc E Hcp _ _ _ _.
    destruct pre as [|ev pre]; cbn [app] in E; injection E as E1 E2.
    + congruence.
    + exfalso. apply (quiet_no_stage rest c Hq (copyPass_is_stage c Hcp)).
      rewrite E2. apply in_elt.
  - intros pre next post E Hn Hne.
    destruct pre as [|ev pre]; cbn [app] in E; injection E as E1 E2.
    + exfalso. apply Hne. reflexivity.
    + exfalso. apply (quiet_no_stage rest next Hq Hn). rewrite E2. apply in_elt.
Qed.

Lemma writeAndVerifyMarker_events sb proc t :
  exists rest,
    snd (Sync.writeAndVerifyMarker R2_MOUNT_PATH sb proc t)
    = EStart writeTimestampCmd :: rest
    /\ stageStarts rest = [].
Proof.
  unfold Sync.writeAndVerifyMarker.
  match goal with
  | |- context [bind (start sb writeTimestampCmd) ?f] =>
      destruct (bind_events (start sb writeTimestampCmd) f t) as [E | (w & _ & E)];
      assert (forall p t', stageStarts (snd (f p t')) = []) as Hrest
  end.
  1,3: intros p t'; unfold fetchLogs;
       quiet; try apply quiet_markerUnverified.
  - rewrite E. rewrite start_run.
    destruct (startProcess sb t writeTimestampCmd); exists []; auto.
  - rewrite E. cbn [snd]. rewrite start_run.
    destruct (startProcess sb t writeTimestampCmd); cbn [snd app length];
      eexists; split; try reflexivity; apply Hrest.
Qed.

Lemma writeAndVerifyMarker_good sb proc t :
  GoodRun sb t (Sync.writeAndVerifyMarker R2_MOUNT_PATH sb proc t).
Proof.
  destruct (writeAndVerifyMarker_events sb proc t) as (rest & E & Hq).
  destruct (Sync.writeAndVerifyMarker R2_MOUNT_PATH sb proc t) as [r evs].
  cbn [snd] in E. subst evs.
  apply last_stage_good; [apply stage_write | apply copyPass_write | exact Hq].
Qed.

Lemma replicateBody_good sb t : GoodRun sb t (replicateBody sb t).
Proof.
  unfold Stages.replicateBody.
  apply copyPass_good; [apply copyPass_openclaw|]. intros proc t1.
  apply copyPass_good; [apply copyPass_workspace|]. intros _ t2.
  apply copyPass_good; [apply copyPass_skills|]. intros _ t3.
  apply writeAndVerifyMarker_good.
Qed.

(** The stages started by a copy pass: its own, then those of what
    follows, if it is reached. *)
Lemma copyPass_stageStarts sb cmd which next t :
  isCopyPass cmd = true ->
  stageStarts (snd (copyPass sb cmd which next t)) = [cmd]
  \/ exists proc t',
      stageStarts (snd (copyPass sb cmd which next t))
      = cmd :: stageStarts (snd (next proc t')).
Proof.
  intros Hc. pose proof (copyPass_is_stage cmd Hc) as Hs.
  assert (forall X, stageStarts (EStart cmd :: X) = cmd :: stageStarts X) as Hhead.
  { intros X. unfold Stages.stageStarts. cbn [started filter]. rewrite Hs. reflexivity. }
  pose proof (copyPass_run sb cmd which next t) as Hrun.
  destruct (startProcess sb t cmd) as [proc | e].
  - destruct Hrun as (k & [(_ & e & tail & -> & Ht) | [(_ & _ & d & ->) | (_ & _ & ->)]]);
      cbn [snd]; rewrite Hhead, stageStarts_app, stageStarts_sleeps; cbn [app].
    + left. unfold Stages.stageStarts. cbn [started]. rewrite Ht. reflexivity.
    + left. reflexivity.
    + right. eauto.
  - rewrite Hrun. cbn [snd]. rewrite Hhead. left. reflexivity.
Qed.

Lemma replicateBody_order sb t : InStageOrder (snd (replicateBody sb t)).
Proof.
  unfold Stages.InStageOrder, Stages.replicateBody, stageOrder.
  destruct (copyPass_stageStarts sb syncOpenclawCmd "openclaw"
              (fun proc =>
                 copyPass sb syncWorkspaceCmd "workspace" (fun _ =>
                 copyPass sb syncSkillsCmd "skills" (fun _ =>
                 Sync.writeAndVerifyMarker R2_MOUNT_PATH sb proc))) t
              copyPass_openclaw) as [-> | (proc & t1 & ->)];
    [eexists; reflexivity|].
  destruct (copyPass_stageStarts sb syncWorkspaceCmd "workspace"
              (fun _ =>
                 copyPass sb syncSkillsCmd "skills" (fun _ =>
                 Sync.writeAndVerifyMarker R2_MOUNT_PATH sb proc)) t1
              copyPass_workspace) as [-> | (p2 & t2 & ->)];
    [eexists; reflexivity|].
  destruct (copyPass_stageStarts sb syncSkillsCmd "skills"
              (fun _ => Sync.writeAndVerifyMarker R2_MOUNT_PATH sb proc) t2
              copyPass_skills) as [-> | (p3 & t3 & ->)];
    [eexists; reflexivity|].
  destruct (writeAndVerifyMarker_events sb proc t3) as (rest & -> & Hq).
  exists []. unfold Stages.stageStarts at 1. cbn [started filter].
  rewrite stage_write. fold (stageStarts rest). rewrite Hq. reflexivity.
Qed.

(** [replicate] is its body inside the [try]: same interactions, same
    results, a thrown condition turned into the failure [Sync error]. *)
Lemma replicate_run sb t :
  snd (replicate sb t) = snd (replicateBody sb t)
  /\ match fst (replicateBody sb t) with
     | Ok res => fst (replicate sb t) = Ok res
     | Throw e =>
         fst (replicate sb t) = Ok (Sync.failure "Sync error" (Some (message e)))
     | OutOfFuel => fst (replicate sb t) = OutOfFuel
     end.
Proof.
  change (replicate sb)
    with (catch (replicateBody sb)
            (fun err => ret (Sync.failure "Sync error" (Some (message err))))).
  unfold catch, ret. destruct (replicateBody sb t) as [[res | e |] evs];
    cbn [fst snd]; rewrite ?app_nil_r; auto.
Qed.

End SyncFacts.

(** ** Claims on [syncToR2] *)

Section SyncClaims.

Variables (R2_MOUNT_PATH R2_BUCKET_NAME : string).

#[local] Abbreviation stageStarts := (stageStarts R2_MOUNT_PATH).
#[local] Abbreviation InStageOrder := (InStageOrder R2_MOUNT_PATH).
#[local] Abbreviation StagesGated := (StagesGated R2_MOUNT_PATH).
#[local] Abbreviation mountR2Storage :=
  (R2.mountR2Storage R2_MOUNT_PATH R2_BUCKET_NAME).
#[local] Abbreviation checkForActiveRsync :=
  (Sync.checkForActiveRsync R2_MOUNT_PATH).
#[local] Abbreviation verifySource := (Sync.verifySource R2_MOUNT_PATH).
#[local] Abbreviation verifyCmd := (Sync.verifyCmd R2_MOUNT_PATH).
#[local] Abbreviation replicate := (Sync.replicate R2_MOUNT_PATH).
#[local] Abbreviation syncToR2 := (Sync.syncToR2 R2_MOUNT_PATH R2_BUCKET_NAME).

(** The run of [syncToR2] up to the replication: either it ends before,
    having started no stage, or it goes on with [replicate]. *)
Lemma syncToR2_phases sb env t :
  exists a,
    stageStarts a = []
    /\ (snd (syncToR2 sb env t) = a
        \/ syncToR2 sb env t
           = (fst (replicate sb (t + length a)),
              a ++ snd (replicate sb (t + length a)))).
Proof.
  unfold Sync.syncToR2.
  destruct (credentials env) as [c|]; [|exists []; auto].
  pose proof (quiet_mountR2Storage R2_MOUNT_PATH R2_BUCKET_NAME sb env t) as Q0.
  destruct (mountR2Storage sb env t) as [[mounted | e |] e0] eqn:Hm; cbn [snd] in Q0.
  2: { exists e0. split; [exact Q0|]. left. rewrite (bind_throw _ _ _ _ _ Hm). reflexivity. }
  2: { exists e0. split; [exact Q0|]. left. rewrite (bind_out_of_fuel _ _ _ _ Hm). reflexivity. }
  rewrite (bind_ok _ _ _ _ _ Hm).
  destruct mounted; cbn [negb];
    [|exists e0; split; [exact Q0|]; left; run_done].
  pose proof (quiet_checkForActiveRsync R2_MOUNT_PATH sb (t + length e0)) as Q1.
  destruct (checkForActiveRsync sb (t + length e0)) as [[[has d] | e |] e1] eqn:Hc;
    cbn [snd] in Q1.
  2: { exists (e0 ++ e1). rewrite stageStarts_app, Q0, Q1. split; [reflexivity|].
       left. rewrite (bind_throw _ _ _ _ _ Hc). reflexivity. }
  2: { exists (e0 ++ e1). rewrite stageStarts_app, Q0, Q1. split; [reflexivity|].
       left. rewrite (bind_out_of_fuel _ _ _ _ Hc). reflexivity. }
  rewrite (bind_ok _ _ _ _ _ Hc). cbn [fst snd].
  destruct has.
  { exists (e0 ++ e1). rewrite stageStarts_app, Q0, Q1. split; [reflexivity|].
    left. run_done. }
  pose proof (quiet_verifySource R2_MOUNT_PATH sb (t + length e0 + length e1)) as Q2.
  destruct (verifySource sb (t + length e0 + length e1)) as [[[res|] | e |] e2] eqn:Hv;
    cbn [snd] in Q2;
    exists (e0 ++ e1 ++ e2);
    (split; [rewrite !stageStarts_app, Q0, Q1, Q2; reflexivity|]).
  - left. rewrite (bind_ok _ _ _ _ _ Hv). run_done.
  - right. rewrite (bind_ok _ _ _ _ _ Hv). cbn [fst snd].
    rewrite !length_app, !Nat.add_assoc, <- !app_assoc. reflexivity.
  - left. rewrite (bind_throw _ _ _ _ _ Hv). cbn [snd]. reflexivity.
  - left. rewrite (bind_out_of_fuel _ _ _ _ Hv). cbn [snd]. reflexivity.
Qed.

(** In every run of [syncToR2]: (1) the stages started are an initial
    part of the declared order config copy, workspace copy, skills copy,
    marker write, in that order; (2) a copy pass whose handle is settled and
    fails the ensure-success check ([status] is [failed] or the exit code
    is a non-zero number) makes the run return the failure [Sync failed],
    with no process started afterwards; (3) a stage is started after another
    one only right after the polls of that previous copy pass, whose handle
    is then settled and passes the ensure-success check. *)
Lemma syncToR2_settled_stages
    (sb : Sandbox) (env : OpenClawEnv) (t : nat)
    (r : Outcome Sync.SyncResult) (evs : list Event) :
  syncToR2 sb env t = (r, evs) ->
  InStageOrder evs
  /\ FailedPassStops sb t r evs
  /\ StagesGated sb t evs.
Proof.
  intros Hrun.
  destruct (syncToR2_phases sb env t) as (a & Hq & [Hearly | Hgo]).
  - rewrite Hrun in Hearly. cbn [snd] in Hearly. subst a. split; [|split].
    + unfold Stages.InStageOrder. rewrite Hq. eexists. reflexivity.
    + apply (quiet_failstops R2_MOUNT_PATH). exact Hq.
    + apply quiet_gated. exact Hq.
  - rewrite Hrun in Hgo. injection Hgo as -> ->.
    destruct (replicate_run R2_MOUNT_PATH sb (t + length a)) as [Hsame Hres].
    pose proof (replicateBody_good R2_MOUNT_PATH sb (t + length a))
      as (_ & Hstops & Hgated).
    rewrite Hsame. split; [|split].
    + pose proof (replicateBody_order R2_MOUNT_PATH sb (t + length a)) as Hord.
      unfold Stages.InStageOrder in *. rewrite stageStarts_app, Hq. exact Hord.
    + apply (failstops_shift R2_MOUNT_PATH); [exact Hq|].
      intros pre cmd k post proc E Hc Hend Hp Hsettled Hfailed.
      destruct (Hstops pre cmd k post proc E Hc Hend Hp Hsettled Hfailed)
        as ((d & Hd) & Hpost).
      split; [|exact Hpost]. exists d. rewrite Hd in Hres. exact Hres.
    + apply gated_shift; assumption.
Qed.


Lemma credentials_absent env :
  absent (R2_ACCESS_KEY_ID env) \/ absent (R2_SECRET_ACCESS_KEY env)
  \/ absent (CF_ACCOUNT_ID env) ->
  credentials env = None.
Proof.
  unfold credentials, absent.
  destruct (R2_ACCESS_KEY_ID env) as [[|? ?]|], (R2_SECRET_ACCESS_KEY env) as [[|? ?]|],
    (CF_ACCOUNT_ID env) as [[|? ?]|]; cbn; try reflexivity;
    intros [[H | H] | [[H | H] | [H | H]]]; discriminate H.
Qed.

(** C7. In every environment where one of the three required bindings
    (access key id, secret access key, account id) is absent, [syncToR2]
    returns the failure [R2 storage is not configured] and performs no
    interaction with the sandbox at all: no process is started. *)
Theorem syncToR2_not_configured (sb : Sandbox) (env : OpenClawEnv) (t : nat) :
  absent (R2_ACCESS_KEY_ID env) \/ absent (R2_SECRET_ACCESS_KEY env)
  \/ absent (CF_ACCOUNT_ID env) ->
  syncToR2 sb env t
  = (Ok (Sync.mkResult false None (Some "R2 storage is not configured") None), []).
Proof.
  intros H. unfold Sync.syncToR2. rewrite (credentials_absent env H). reflexivity.
Qed.

End SyncClaims.

Lemma syncToR2_not_configured_witness :
  Sync.syncToR2 examplePath exampleBucket happySandbox
    (mkEnv (Some "key-id") None (Some "account")) 0
  = (Ok (Sync.mkResult false None (Some "R2 storage is not configured") None), []).
Proof.
  apply syncToR2_not_configured. right. left. left. reflexivity.
Defined.



Section MarkerClaims.

Variables (R2_MOUNT_PATH R2_BUCKET_NAME : string).

#[local] Abbreviation mountR2Storage :=
  (R2.mountR2Storage R2_MOUNT_PATH R2_BUCKET_NAME).
#[local] Abbreviation checkForActiveRsync :=
  (Sync.checkForActiveRsync R2_MOUNT_PATH).
#[local] Abbreviation isActiveRsync := (Sync.isActiveRsync R2_MOUNT_PATH).
#[local] Abbreviation verifySource := (Sync.verifySource R2_MOUNT_PATH).
#[local] Abbreviation verifyCmd := (Sync.verifyCmd R2_MOUNT_PATH).
#[local] Abbreviation writeTimestampCmd := (Sync.writeTimestampCmd R2_MOUNT_PATH).
#[local] Abbreviation readTimestampCmd := (Sync.readTimestampCmd R2_MOUNT_PATH).
#[local] Abbreviation writeAndVerifyMarker :=
  (Sync.writeAndVerifyMarker R2_MOUNT_PATH).
#[local] Abbreviation markerUnverified := (Sync.markerUnverified R2_MOUNT_PATH).
#[local] Abbreviation replicate := (Sync.replicate R2_MOUNT_PATH).
#[local] Abbreviation replicateBody := (replicateBody R2_MOUNT_PATH).
#[local] Abbreviation syncToR2 := (Sync.syncToR2 R2_MOUNT_PATH R2_BUCKET_NAME).

Lemma checkForActiveRsync_run sb t :
  checkForActiveRsync sb t
  = (Ok match listProcesses sb t with
        | Resolved infos =>
            match find isActiveRsync infos with
            | Some p => (true, Some (Sync.skippedDetails p))
            | None => (false, None)
            end
        | Rejected _ => (false, None)
        end, [EList]).
Proof.
  unfold Sync.checkForActiveRsync, catch, bind, await.
  destruct (listProcesses sb t) as [infos | e]; [|reflexivity].
  destruct (find isActiveRsync infos); reflexivity.
Qed.

(** A wait of the gateway that resolves has polled a settled handle. *)
Lemma wait_call_ok proc timeoutMs ms t evs :
  callSite timeoutMs ms ->
  Utils.waitForProcess callFuel proc timeoutMs ms t = (Ok tt, evs) ->
  exists k,
    evs = repeat (ESleep ms) k /\ Utils.active (status proc (t + k)) = false.
Proof.
  intros [Hp Hfuel] Hrun.
  destruct (wait_outcome callFuel proc timeoutMs ms Hp Hfuel t _ _ Hrun) as [Hev Hs].
  exists (length evs). auto.
Qed.

Lemma start_inv_ok sb cmd t proc evs :
  start sb cmd t = (Ok proc, evs) ->
  startProcess sb t cmd = Resolved proc /\ evs = [EStart cmd].
Proof.
  rewrite start_run. destruct (startProcess sb t cmd); intros [= <- <-]; auto.
Qed.

Lemma fetchLogs_inv_ok proc t logs evs :
  fetchLogs proc t = (Ok logs, evs) ->
  getLogs proc t = Resolved logs /\ evs = [EGetLogs (procId proc)].
Proof.
  unfold fetchLogs, await. destruct (getLogs proc t); intros [= <- <-]; auto.
Qed.

(** The branch of the unverified marker never reports a success. *)
Lemma markerUnverified_fails sb proc t res evs :
  markerUnverified sb proc t = (Ok res, evs) -> Sync.success res = false.
Proof.
  unfold Sync.markerUnverified. intros H.
  apply bind_inv_ok in H as (logs & e1 & e1' & _ & H & _).
  apply bind_inv_ok in H as (diagProc & e2 & e2' & _ & H & _).
  apply bind_inv_ok in H as (u & e3 & e3' & _ & H & _).
  apply bind_inv_ok in H as (diagLogs & e4 & e4' & _ & H & _).
  injection H as <- _. reflexivity.
Qed.

(** Neither does the source verification. *)
Lemma verifySource_fails sb t res evs :
  verifySource sb t = (Ok (Some res), evs) -> Sync.success res = false.
Proof.
  unfold Sync.verifySource. intros H.
  apply catch_inv_ok in H as [H | (e & e1 & e2 & _ & H & _)].
  - apply bind_inv_ok in H as (checkProc & e1 & e1' & _ & H & _).
    apply bind_inv_ok in H as (u & e2 & e2' & _ & H & _).
    apply bind_inv_ok in H as (polled & e3 & e3' & _ & H & _).
    unfold Sync.judgeVerify in H.
    destruct (Js.includes "__MISSING__" (fst polled));
      [injection H as <- _; reflexivity|].
    destruct (_ && _); [injection H as <- _; reflexivity|].
    destruct (negb _); [|discriminate H].
    unfold bind, now, throw in H. discriminate H.
  - injection H as <- _. reflexivity.
Qed.

(** A success of the marker stage: the marker was written, then read back
    through a settled read process, and the text read has the shape of a
    date. *)
Lemma writeAndVerifyMarker_success sb proc t res evs :
  writeAndVerifyMarker sb proc t = (Ok res, evs) ->
  Sync.success res = true ->
  exists kw timestampProc k logs,
    evs = (EStart writeTimestampCmd :: repeat (ESleep Utils.defaultPollIntervalMs) kw)
          ++ EStart readTimestampCmd
             :: repeat (ESleep Utils.defaultPollIntervalMs) k
             ++ [EGetLogs (procId timestampProc)]
    /\ startProcess sb (t + 1 + kw) readTimestampCmd = Resolved timestampProc
    /\ Utils.active (status timestampProc (t + 1 + kw + 1 + k)) = false
    /\ getLogs timestampProc (t + 1 + kw + 1 + k) = Resolved logs
    /\ res = Sync.mkResult true (Some (Js.trim (stdout logs))) None None
    /\ Js.matchesDatePrefix (Js.trim (stdout logs)) = true.
Proof.
  unfold Sync.writeAndVerifyMarker. intros H Hsucc.
  apply bind_inv_ok in H as (writeProc & e1 & e1' & Hw & H & ->).
  apply start_inv_ok in Hw as [_ ->]. cbn [length] in H.
  apply bind_inv_ok in H as ([] & e2 & e2' & Hww & H & ->).
  apply (wait_call_ok _ _ _ _ _ callSite_15000_500) in Hww as (kw & -> & _).
  rewrite repeat_length in H.
  apply bind_inv_ok in H as (timestampProc & e3 & e3' & Hr & H & ->).
  apply start_inv_ok in Hr as [Hr ->]. cbn [length] in H.
  apply bind_inv_ok in H as ([] & e4 & e4' & Hrw & H & ->).
  apply (wait_call_ok _ _ _ _ _ callSite_15000_500) in Hrw as (k & -> & Hsettled).
  rewrite repeat_length in H.
  apply bind_inv_ok in H as (logs & e5 & e5' & Hl & H & ->).
  apply fetchLogs_inv_ok in Hl as [Hl ->].
  exists kw, timestampProc, k, logs.
  unfold Sync.lastSyncOf in H.
  destruct (Js.truthy (Js.trim (stdout logs)) && negb (Js.trim (stdout logs) =? "__MISSING__")).
  - destruct (Js.matchesDatePrefix (Js.trim (stdout logs))) eqn:Hdate.
    + injection H as <- <-. cbn [app]. repeat split; auto.
    + apply markerUnverified_fails in H. congruence.
  - apply markerUnverified_fails in H. congruence.
Qed.


#[local] Abbreviation MarkerVerified := (MarkerVerified R2_MOUNT_PATH).
#[local] Abbreviation DedupSkipped := (DedupSkipped R2_MOUNT_PATH).

Lemma markerVerified_shift sb t res a evs :
  MarkerVerified sb (t + length a) res evs ->
  MarkerVerified sb t res (a ++ evs).
Proof.
  intros (pre & tp & k & logs & -> & Hw & Hs & Ha & Hl & Hres & Hd).
  exists (a ++ pre), tp, k, logs.
  rewrite length_app, !Nat.add_assoc, <- app_assoc, started_app.
  repeat split; auto. apply in_or_app. right. exact Hw.
Qed.

Lemma writeAndVerifyMarker_verified sb proc t res evs :
  writeAndVerifyMarker sb proc t = (Ok res, evs) ->
  Sync.success res = true ->
  MarkerVerified sb t res evs.
Proof.
  intros H Hsucc.
  destruct (writeAndVerifyMarker_success sb proc t res evs H Hsucc)
    as (kw & tp & k & logs & -> & Hs & Ha & Hl & Hres & Hd).
  exists (EStart writeTimestampCmd :: repeat (ESleep Utils.defaultPollIntervalMs) kw),
    tp, k, logs.
  cbn [length]. rewrite repeat_length.
  replace (t + S kw) with (t + 1 + kw) by lia.
  repeat split; auto. left. reflexivity.
Qed.

(** A copy pass is left with a success only through what follows it. *)
Lemma copyPass_verified sb cmd which next t res evs :
  (forall proc t' res' evs',
     next proc t' = (Ok res', evs') -> Sync.success res' = true ->
     MarkerVerified sb t' res' evs') ->
  copyPass sb cmd which next t = (Ok res, evs) ->
  Sync.success res = true ->
  MarkerVerified sb t res evs.
Proof.
  intros Hnext H Hsucc.
  pose proof (copyPass_run sb cmd which next t) as Hrun.
  destruct (startProcess sb t cmd) as [proc | e]; [|congruence].
  destruct Hrun as (k & [(_ & e & tail & E & _) | [(_ & _ & d & E) | (_ & _ & E)]]).
  - congruence.
  - rewrite E in H. injection H as <- _. discriminate Hsucc.
  - rewrite E in H. injection H as Hres <-.
    change (EStart cmd :: repeat (ESleep Utils.defaultPollIntervalMs) k
            ++ snd (next proc (t + 1 + k)))
      with ((EStart cmd :: repeat (ESleep Utils.defaultPollIntervalMs) k)
            ++ snd (next proc (t + 1 + k))).
    apply markerVerified_shift. cbn [length]. rewrite repeat_length.
    replace (t + S k) with (t + 1 + k) by lia.
    apply (Hnext proc); [|exact Hsucc].
    destruct (next proc (t + 1 + k)) as [r evs']. cbn [fst snd] in *. congruence.
Qed.

Lemma replicate_verified sb t res evs :
  replicate sb t = (Ok res, evs) ->
  Sync.success res = true ->
  MarkerVerified sb t res evs.
Proof.
  intros H Hsucc.
  destruct (replicate_run R2_MOUNT_PATH sb t) as [Hev Hres].
  rewrite H in Hev, Hres. cbn [fst snd] in Hev, Hres.
  destruct (replicateBody sb t) as [[res' | e |] evs'] eqn:Hbody;
    cbn [fst snd] in Hev, Hres; subst evs'.
  - injection Hres as <-. revert Hbody Hsucc.
    unfold Stages.replicateBody.
    apply copyPass_verified. intros proc t1 res1 evs1.
    apply copyPass_verified. intros _ t2 res2 evs2.
    apply copyPass_verified. intros _ t3 res3 evs3.
    apply writeAndVerifyMarker_verified.
  - injection Hres as ->. discriminate Hsucc.
  - discriminate Hres.
Qed.

(** C1, as amended.  A result with [success = true] is returned by
    [syncToR2] in two ways only: by the dedup check, when the process
    listing shows an active [rsync] on the mount path (the result then
    carries an informational detail and no [lastSync]); or after the three
    copy passes and the marker write, once the marker has been read back
    through a settled read process and its trimmed text matches the
    date-like prefix.  In the second case the status of a process alone
    never yields the success: the text read back decides. *)
Theorem syncToR2_success_cases
    (sb : Sandbox) (env : OpenClawEnv) (t : nat)
    (res : Sync.SyncResult) (evs : list Event) :
  syncToR2 sb env t = (Ok res, evs) ->
  Sync.success res = true ->
  DedupSkipped sb t res evs \/ MarkerVerified sb t res evs.
Proof.
  unfold Sync.syncToR2. intros H Hsucc.
  destruct (credentials env) as [c|];
    [|injection H as <- _; discriminate Hsucc].
  apply bind_inv_ok in H as (mounted & e0 & e0' & _ & H & ->).
  destruct mounted; cbn [negb] in H;
    [|injection H as <- _; discriminate Hsucc].
  apply bind_inv_ok in H as ([has d] & e1 & e1' & Hc & H & ->).
  rewrite checkForActiveRsync_run in Hc. injection Hc as Hc <-.
  cbn [fst snd] in H. destruct has.
  - left. injection H as <- <-.
    destruct (listProcesses sb (t + length e0)) as [infos | e] eqn:Hlist;
      [|discriminate Hc].
    destruct (find isActiveRsync infos) as [p|] eqn:Hfind; [|discriminate Hc].
    injection Hc as <-.
    exists e0, infos, p. rewrite app_nil_r. auto.
  - right. apply bind_inv_ok in H as (verdict & e2 & e2' & Hv & H & ->).
    destruct verdict as [r|].
    + injection H as <- _. apply verifySource_fails in Hv. congruence.
    + cbn [length] in H.
      apply markerVerified_shift.
      change (EList :: e2 ++ e2') with ([EList] ++ e2 ++ e2').
      apply markerVerified_shift. apply markerVerified_shift.
      exact (replicate_verified sb _ res e2' H Hsucc).
Qed.

End MarkerClaims.

(** C1 as stated fails: with an [rsync] of an earlier run still active,
    [syncToR2] returns [success = true] right after the process listing.  No
    marker is written or read back in that run: the only process started is
    the mount probe. *)
Lemma syncToR2_success_without_marker :
  Sync.syncToR2 examplePath exampleBucket busySandbox exampleEnv 0
  = (Ok (Sync.mkResult true None None
           (Some "Skipped: another rsync appears to be running (id=proc-7).")),
     [EStart (R2.probeCmd examplePath); EGetLogs "proc"; EList]).
Proof. reflexivity. Qed.

Lemma syncToR2_success_cases_witness :
  MarkerVerified examplePath happySandbox 0
    (Sync.mkResult true (Some "2026-01-27T12:00:00+00:00") None None)
    (snd (Sync.syncToR2 examplePath exampleBucket happySandbox exampleEnv 0)).
Proof.
  destruct (syncToR2_success_cases examplePath exampleBucket happySandbox
              exampleEnv 0
              (Sync.mkResult true (Some "2026-01-27T12:00:00+00:00") None None)
              (snd (Sync.syncToR2 examplePath exampleBucket happySandbox
                      exampleEnv 0)))
    as [(pre & infos & p & _ & _ & _ & Hres) | Hmarker].
  - vm_compute. reflexivity.
  - reflexivity.
  - discriminate Hres.
  - exact Hmarker.
Defined.

Section PreflightClaims.

Variables (R2_MOUNT_PATH R2_BUCKET_NAME : string).

#[local] Abbreviation stageStarts := (stageStarts R2_MOUNT_PATH).
#[local] Abbreviation mountR2Storage :=
  (R2.mountR2Storage R2_MOUNT_PATH R2_BUCKET_NAME).
#[local] Abbreviation checkForActiveRsync :=
  (Sync.checkForActiveRsync R2_MOUNT_PATH).
#[local] Abbreviation verifySource := (Sync.verifySource R2_MOUNT_PATH).
#[local] Abbreviation verifyCmd := (Sync.verifyCmd R2_MOUNT_PATH).
#[local] Abbreviation syncToR2 := (Sync.syncToR2 R2_MOUNT_PATH R2_BUCKET_NAME).

Lemma quiet_no_copy evs :
  stageStarts evs = [] -> filter isCopyPass (started evs) = [].
Proof.
  unfold Stages.stageStarts.
  induction (started evs) as [|cmd l IH]; [reflexivity|].
  cbn [filter]. destruct (isStage R2_MOUNT_PATH cmd) eqn:Hs; [discriminate|].
  unfold isStage in Hs. apply orb_false_elim in Hs as [-> _]. exact IH.
Qed.

(** The run of the source verification, from its three steps. *)
Lemma verifySource_after_poll sb t checkProc ew out err ep :
  startProcess sb t verifyCmd = Resolved checkProc ->
  waitBestEffort checkProc 10000 200 (t + 1) = (Ok tt, ew) ->
  Sync.pollVerifyLogs checkProc 50 EmptyString EmptyString (t + 1 + length ew)
  = (Ok (out, err), ep) ->
  Js.includes "__MISSING__" out = true
  \/ (Js.includes "__WORKSPACE_REMOTE_NONEMPTY__" out = true
      /\ Js.includes "__WORKSPACE_LOCAL_EMPTY__" out = true) ->
  verifySource sb t
  = (Ok (Some (if Js.includes "__MISSING__" out
               then Sync.missingResult else Sync.localEmptyResult)),
     EStart verifyCmd :: ew ++ ep).
Proof.
  intros Hstart Hwait Hpoll Hout. unfold Sync.verifySource.
  apply catch_ok.
  rewrite (bind_ok _ _ t checkProc [EStart verifyCmd])
    by (rewrite start_run, Hstart; reflexivity).
  cbn [length]. rewrite (bind_ok _ _ _ _ _ Hwait), (bind_ok _ _ _ _ _ Hpoll).
  cbn [fst snd]. unfold Sync.judgeVerify.
  destruct (Js.includes "__MISSING__" out).
  - run_done.
  - destruct Hout as [H | [-> ->]]; [discriminate H|]. run_done.
Qed.

(** C6, as amended.  Let the mount succeed, the dedup check find nothing and
    the verification command be started; let [out] be the verification
    output that the poll loop ends with.  If [out] shows the remote
    workspace backup non-empty and the local workspace empty, [syncToR2]
    aborts without starting any copy pass: with the error [Sync aborted:
    local workspace appears empty] when [out] does not also report the
    config file missing, and with the error of the missing config file
    when it does. *)
Theorem syncToR2_empty_local_workspace
    (sb : Sandbox) (env : OpenClawEnv) (c : Credentials) (t : nat)
    (e0 e1 ew ep : list Event) (d : option string)
    (checkProc : Process) (out err : string) :
  credentials env = Some c ->
  mountR2Storage sb env t = (Ok true, e0) ->
  checkForActiveRsync sb (t + length e0) = (Ok (false, d), e1) ->
  let tv := t + length e0 + length e1 in
  startProcess sb tv verifyCmd = Resolved checkProc ->
  waitBestEffort checkProc 10000 200 (tv + 1) = (Ok tt, ew) ->
  Sync.pollVerifyLogs checkProc 50 EmptyString EmptyString (tv + 1 + length ew)
  = (Ok (out, err), ep) ->
  Js.includes "__WORKSPACE_REMOTE_NONEMPTY__" out = true ->
  Js.includes "__WORKSPACE_LOCAL_EMPTY__" out = true ->
  let evs := e0 ++ e1 ++ EStart verifyCmd :: ew ++ ep in
  (Js.includes "__MISSING__" out = false ->
     syncToR2 sb env t = (Ok Sync.localEmptyResult, evs)
     /\ exists msg,
         Sync.error Sync.localEmptyResult = Some msg
         /\ Js.includes "local workspace appears empty" msg = true)
  /\ (Js.includes "__MISSING__" out = true ->
      syncToR2 sb env t = (Ok Sync.missingResult, evs))
  /\ filter isCopyPass (started evs) = [].
Proof.
  intros Hc Hm Hd tv Hstart Hwait Hpoll Hremote Hlocal evs.
  assert (syncToR2 sb env t
          = (Ok (if Js.includes "__MISSING__" out
                 then Sync.missingResult else Sync.localEmptyResult), evs)) as Hrun.
  { unfold Sync.syncToR2. rewrite Hc.
    rewrite (bind_ok _ _ _ _ _ Hm). cbn [negb].
    rewrite (bind_ok _ _ _ _ _ Hd). cbn [fst snd].
    rewrite (bind_ok _ _ _ _ _
               (verifySource_after_poll sb tv checkProc ew out err ep
                  Hstart Hwait Hpoll (or_intror (conj Hremote Hlocal)))).
    run_done. }
  split; [|split].
  - intros Hmiss. rewrite Hmiss in Hrun. split; [exact Hrun|].
    eexists. split; reflexivity.
  - intros Hmiss. rewrite Hmiss in Hrun. exact Hrun.
  - apply quiet_no_copy. subst evs.
    pose proof (quiet_mountR2Storage R2_MOUNT_PATH R2_BUCKET_NAME sb env t) as Q0.
    pose proof (quiet_checkForActiveRsync R2_MOUNT_PATH sb (t + length e0)) as Q1.
    pose proof (quiet_waitBestEffort R2_MOUNT_PATH checkProc 10000 200 (tv + 1)) as Q2.
    pose proof (quiet_pollVerifyLogs R2_MOUNT_PATH checkProc 50 EmptyString
                  EmptyString (tv + 1 + length ew)) as Q3.
    rewrite Hm in Q0. rewrite Hd in Q1. rewrite Hwait in Q2. rewrite Hpoll in Q3.
    cbn [snd] in Q0, Q1, Q2, Q3.
    change (EStart verifyCmd :: ew ++ ep) with ([EStart verifyCmd] ++ ew ++ ep).
    rewrite !stageStarts_app, Q0, Q1, Q2, Q3. reflexivity.
Qed.

End PreflightClaims.

(** C6 as stated fails on a wiped container: the verification output shows
    the remote workspace backup non-empty and the local workspace empty, and
    also the config file missing; [syncToR2] aborts with the error of the
    missing config file, which does not contain [local workspace appears
    empty]. *)
Lemma syncToR2_wiped_container :
  Js.includes "__WORKSPACE_REMOTE_NONEMPTY__" wipedOutput = true
  /\ Js.includes "__WORKSPACE_LOCAL_EMPTY__" wipedOutput = true
  /\ Sync.syncToR2 examplePath exampleBucket wipedSandbox exampleEnv 0
     = (Ok (Sync.mkResult false None
              (Some "Sync aborted: source missing openclaw.json")
              (Some "The local config directory is missing critical files. This could indicate corruption or an incomplete setup.")),
        [EStart (R2.probeCmd examplePath); EGetLogs "proc"; EList;
         EStart (Sync.verifyCmd examplePath); EGetLogs "proc"])
  /\ Js.includes "local workspace appears empty"
       "Sync aborted: source missing openclaw.json" = false.
Proof. repeat split; reflexivity. Qed.

Lemma syncToR2_empty_local_workspace_witness :
  Sync.syncToR2 examplePath exampleBucket emptyWorkspaceSandbox exampleEnv 0
  = (Ok Sync.localEmptyResult,
     [EStart (R2.probeCmd examplePath); EGetLogs "proc"; EList;
      EStart (Sync.verifyCmd examplePath); EGetLogs "proc"]).
Proof.
  destruct (syncToR2_empty_local_workspace examplePath exampleBucket
              emptyWorkspaceSandbox exampleEnv exampleCredentials 0
              [EStart (R2.probeCmd examplePath); EGetLogs "proc"] [EList] []
              [EGetLogs "proc"] None (done emptyWorkspaceOutput)
              emptyWorkspaceOutput EmptyString)
    as [Hguard _].
  - reflexivity.
  - reflexivity.
  - reflexivity.
  - reflexivity.
  - reflexivity.
  - reflexivity.
  - reflexivity.
  - reflexivity.
  - destruct (Hguard eq_refl) as [Hrun _]. exact Hrun.
Defined.

(** ** The end-to-end scenarios of the test suite, evaluated *)

(** Happy path: mounted bucket, [__OK__], three clean copy passes, marker
    write, marker read back. *)
Example happy_path :
  let run := Sync.syncToR2 examplePath exampleBucket happySandbox exampleEnv 0 in
  fst run = Ok (Sync.mkResult true (Some "2026-01-27T12:00:00+00:00") None None)
  /\ started (snd run)
     = [ R2.probeCmd examplePath;
         Sync.verifyCmd examplePath;
         Sync.syncOpenclawCmd examplePath;
         Sync.syncWorkspaceCmd examplePath;
         Sync.syncSkillsCmd examplePath;
         Sync.writeTimestampCmd examplePath;
         Sync.readTimestampCmd examplePath ].
Proof. split; reflexivity. Qed.

(** Mid-stage failure: the first copy pass exits with code 1. *)
Example first_copy_pass_fails :
  let run := Sync.syncToR2 examplePath exampleBucket failingSandbox exampleEnv 0 in
  fst run = Ok (Sync.failure "Sync failed"
                  (Some "rsync failed (openclaw) exitCode=1"))
  /\ filter isCopyPass (started (snd run)) = [Sync.syncOpenclawCmd examplePath].
Proof. split; reflexivity. Qed.

(** The mount fails for a reason other than a path conflict. *)
Example mount_fails :
  Sync.syncToR2 examplePath exampleBucket
    (scripted [] (fun _ => Rejected (SandboxError "Mount failed")) (Resolved []))
    exampleEnv 0
  = (Ok (Sync.failure "Failed to mount R2 storage" None),
     [EStart (R2.probeCmd examplePath); EGetLogs "proc";
      R2.mountEvent examplePath exampleBucket exampleCredentials]).
Proof. reflexivity. Qed.

(** The first token of the captured output is the filesystem type. *)
Example fsTypeOf_first_token :
  R2.fsTypeOf ("  fuse.s3fs  extra" ++ Js.nl) = "fuse.s3fs"
  /\ R2.fsTypeOf (" " ++ Js.nl) = EmptyString
  /\ R2.classify "ext4" = R2.NotMounted "ext4"
  /\ R2.classify "__ERR__" = R2.NotMounted "__ERR__".
Proof. repeat split; reflexivity. Qed.

(** White space outside ASCII separates the token as well. *)
Example probeMount_unicode_white_space :
  R2.fsTypeOf paddedOutput = "fuse.s3fs"
  /\ fst (R2.probeMount examplePath paddedSandbox 0) = Ok (R2.Mounted "fuse.s3fs")
  /\ Js.trim (Js.bytes3 239 187 191 ++ "a b" ++ Js.bytes3 226 128 169) = "a b"
  /\ Js.splitWs ("a" ++ Js.bytes3 227 128 128 ++ Js.nl ++ "b") = ["a"; "b"].
Proof. repeat split; reflexivity. Qed.

(** The message of the timeout condition. *)
Example timeout_message :
  message (TimeoutError 5000 "running")
  = "Process timed out after 5000ms (status=running)".
Proof. reflexivity. Qed.

(** * Further properties *)

(** ** Composition rules for bounds, termination and safety *)

Lemma weigh_app w e1 e2 : weigh w (e1 ++ e2) = (weigh w e1 + weigh w e2)%Z.
Proof. induction e1 as [|ev e1 IH]; cbn [app weigh] in *; lia. Qed.

Lemma weigh_repeat w ev k : weigh w (repeat ev k) = (Z.of_nat k * w ev)%Z.
Proof. induction k as [|k IH]; cbn [repeat weigh] in *; lia. Qed.

Lemma weigh_nonneg w evs : (forall ev, 0 <= w ev)%Z -> (0 <= weigh w evs)%Z.
Proof.
  intros Hw. induction evs as [|ev evs IH]; cbn [weigh] in *; [lia|].
  specialize (Hw ev). lia.
Qed.

(** The first interactions of a run weigh no more than the run. *)
Lemma weigh_firstn w n evs :
  (forall ev, 0 <= w ev)%Z -> (weigh w (firstn n evs) <= weigh w evs)%Z.
Proof.
  intros Hw. rewrite <- (firstn_skipn n evs) at 2. rewrite weigh_app.
  pose proof (weigh_nonneg w (skipn n evs) Hw). lia.
Qed.

Section Composition.

Variable w : Event -> Z.
Hypothesis w_nonneg : forall ev, (0 <= w ev)%Z.

Lemma within_ret {A} (a : A) : Within w 0 (ret a).
Proof. intros t. cbn. lia. Qed.

Lemma within_throw {A} e : Within w 0 (@throw A e).
Proof. intros t. cbn. lia. Qed.

Lemma within_now : Within w 0 now.
Proof. intros t. cbn. lia. Qed.

Lemma within_await {A} ev (reply : nat -> Reply A) :
  Within w (w ev) (await ev reply).
Proof.
  intros t. unfold await. destruct (reply t); cbn [snd weigh]; lia.
Qed.

Lemma within_bind {A B} (m : M A) (f : A -> M B) B1 B2 Bound :
  Within w B1 m -> (forall a, Within w B2 (f a)) ->
  (0 <= B2)%Z -> (B1 + B2 <= Bound)%Z ->
  Within w Bound (bind m f).
Proof.
  intros Hm Hf H2 Hsum t.
  destruct (bind_events m f t) as [E | (a & _ & E)]; rewrite E.
  - specialize (Hm t). lia.
  - cbn [snd]. rewrite weigh_app.
    specialize (Hm t). specialize (Hf a (t + length (snd (m t)))). lia.
Qed.

Lemma within_catch {A} (m : M A) (h : Error -> M A) B1 B2 Bound :
  Within w B1 m -> (forall e, Within w B2 (h e)) ->
  (0 <= B2)%Z -> (B1 + B2 <= Bound)%Z ->
  Within w Bound (catch m h).
Proof.
  intros Hm Hh H2 Hsum t.
  destruct (catch_events m h t) as [E | (e & _ & E)]; rewrite E.
  - specialize (Hm t). lia.
  - cbn [snd]. rewrite weigh_app.
    specialize (Hm t). specialize (Hh e (t + length (snd (m t)))). lia.
Qed.

Lemma within_weaken {A} (m : M A) B1 B2 :
  Within w B1 m -> (B1 <= B2)%Z -> Within w B2 m.
Proof. intros H Hle t. specialize (H t). lia. Qed.

(** A wait performs at most [polls] sleeps, whatever the handle does. *)
Lemma waitLoop_at_most proc ms N fuel :
  forall attempts t,
    (Z.of_nat (length (snd (Utils.waitLoop fuel proc ms (Utils.Finite N) attempts t)))
     <= Z.max 0 (N - attempts))%Z.
Proof.
  induction fuel as [|fuel IH]; intros attempts t; cbn [Utils.waitLoop].
  - destruct (_ && _); cbn; lia.
  - destruct (Utils.active (status proc t)); cbn [andb]; [|cbn; lia].
    unfold Utils.below. destruct (Z.ltb_spec attempts N); [|cbn; lia].
    unfold bind, sleep, await. cbn [length].
    specialize (IH (attempts + 1)%Z (t + 1)).
    destruct (Utils.waitLoop fuel proc ms (Utils.Finite N) (attempts + 1) (t + 1))
      as [[[]| |] evs]; cbn [snd length app] in *; lia.
Qed.

Lemma waitForProcess_at_most fuel proc timeoutMs ms t :
  (0 < ms)%Z ->
  length (snd (Utils.waitForProcess fuel proc timeoutMs ms t))
  <= Utils.polls timeoutMs ms.
Proof.
  intros Hp. unfold Utils.waitForProcess.
  rewrite UtilsFacts.maxAttempts_pos by exact Hp.
  pose proof (waitLoop_at_most proc ms (- (- timeoutMs / ms)) fuel 0%Z t) as H.
  assert (forall t', snd ((t0 <- now ;;
                           if Utils.active (status proc t0)
                           then throw (TimeoutError timeoutMs (status proc t0))
                           else ret tt) t') = []) as Htail.
  { intros t'. unfold bind, now. cbn [length].
    destruct (Utils.active _); reflexivity. }
  match goal with
  | |- context [bind ?m ?f] =>
      destruct (bind_events m f t) as [E | (a & _ & E)]
  end; rewrite E; cbn [snd]; rewrite ?Htail, ?app_nil_r;
    unfold Utils.polls; lia.
Qed.

Lemma within_wait fuel proc timeoutMs ms :
  (0 < ms)%Z ->
  Within w (Z.of_nat (Utils.polls timeoutMs ms) * w (ESleep ms))
    (Utils.waitForProcess fuel proc timeoutMs ms).
Proof.
  intros Hp t. rewrite waitForProcess_only_sleeps, weigh_repeat.
  pose proof (waitForProcess_at_most fuel proc timeoutMs ms t Hp).
  specialize (w_nonneg (ESleep ms)). nia.
Qed.

End Composition.

Lemma halts_ret {A} (a : A) : Halts (ret a).
Proof. intros t. discriminate. Qed.

Lemma halts_throw {A} e : Halts (@throw A e).
Proof. intros t. discriminate. Qed.

Lemma halts_now : Halts now.
Proof. intros t. discriminate. Qed.

Lemma halts_await {A} ev (reply : nat -> Reply A) : Halts (await ev reply).
Proof. intros t. unfold await. destruct (reply t); discriminate. Qed.

Lemma halts_bind {A B} (m : M A) (f : A -> M B) :
  Halts m -> (forall a, Halts (f a)) -> Halts (bind m f).
Proof.
  intros Hm Hf t. specialize (Hm t). unfold bind.
  destruct (m t) as [[a | e |] e1]; cbn [fst] in *; try discriminate; try congruence.
  specialize (Hf a (t + length e1)).
  destruct (f a (t + length e1)); exact Hf.
Qed.

Lemma halts_catch {A} (m : M A) (h : Error -> M A) :
  Halts m -> (forall e, Halts (h e)) -> Halts (catch m h).
Proof.
  intros Hm Hh t. specialize (Hm t). unfold catch.
  destruct (m t) as [[a | e |] e1]; cbn [fst] in *; try discriminate; try congruence.
  specialize (Hh e (t + length e1)).
  destruct (h e (t + length e1)); exact Hh.
Qed.

Lemma halts_wait proc timeoutMs ms :
  callSite timeoutMs ms -> Halts (Utils.waitForProcess callFuel proc timeoutMs ms).
Proof.
  intros [Hp Hfuel] t.
  destruct (Utils.waitForProcess callFuel proc timeoutMs ms t) as [r evs] eqn:E.
  pose proof (wait_outcome callFuel proc timeoutMs ms Hp Hfuel t r evs E) as [_ H].
  cbn [fst]. intros ->. exact H.
Qed.

Lemma safe_ret {A} (a : A) : Safe (ret a).
Proof. intros t. exists a. reflexivity. Qed.

Lemma safe_now : Safe now.
Proof. intros t. exists t. reflexivity. Qed.

Lemma safe_halts {A} (m : M A) : Safe m -> Halts m.
Proof. intros H t. destruct (H t) as (a & E). rewrite E. discriminate. Qed.

Lemma safe_bind {A B} (m : M A) (f : A -> M B) :
  Safe m -> (forall a, Safe (f a)) -> Safe (bind m f).
Proof.
  intros Hm Hf t. destruct (Hm t) as (a & E). unfold bind.
  destruct (m t) as [r e1]. cbn [fst] in E. subst r.
  destruct (Hf a (t + length e1)) as (b & E').
  destruct (f a (t + length e1)) as [r e2]. cbn [fst] in *. eauto.
Qed.

Lemma safe_catch {A} (m : M A) (h : Error -> M A) :
  Halts m -> (forall e, Safe (h e)) -> Safe (catch m h).
Proof.
  intros Hm Hh t. specialize (Hm t). unfold catch.
  destruct (m t) as [[a | e |] e1]; cbn [fst] in *.
  - eauto.
  - destruct (Hh e (t + length e1)) as (b & E').
    destruct (h e (t + length e1)) as [r e2]. cbn [fst] in *. eauto.
  - congruence.
Qed.

Lemma price_nonneg r : fairRates r -> forall ev, (0 <= price r ev)%Z.
Proof. intros H ev. unfold fairRates in H. destruct ev; cbn [price]; nia. Qed.

(** Proves that a computation halts, by following its structure. *)
Ltac halts :=
  repeat first
    [ apply halts_ret
    | apply halts_throw
    | apply halts_now
    | apply halts_await
    | apply halts_wait; first [ exact callSite_5000_200
                              | exact callSite_15000_500
                              | exact callSite_sync
                              | (split; [lia | vm_compute; lia]) ]
    | apply halts_bind; [|intros]
    | apply halts_catch; [|intros]
    | match goal with
      | |- Halts (match ?x with _ => _ end) => destruct x
      | |- Halts (if ?x then _ else _) => destruct x
      end ].

(** ** More on [waitForProcess] *)

Lemma waitLoop_polls_while_active proc ms bound fuel :
  forall attempts t j,
    j < length (snd (Utils.waitLoop fuel proc ms bound attempts t)) ->
    Utils.active (status proc (t + j)) = true.
Proof.
  induction fuel as [|fuel IH]; intros attempts t j; cbn [Utils.waitLoop].
  - destruct (_ && _); cbn; lia.
  - destruct (Utils.active (status proc t)) eqn:Ha; cbn [andb]; [|cbn; lia].
    destruct (Utils.below attempts bound); [|cbn; lia].
    unfold bind, sleep, await. cbn [length].
    specialize (IH (attempts + 1)%Z (t + 1)).
    destruct (Utils.waitLoop fuel proc ms bound (attempts + 1) (t + 1))
      as [[[]| |] evs]; cbn [snd length app] in *; intros Hj;
      (destruct j as [|j]; [rewrite Nat.add_0_r; exact Ha|];
       replace (t + S j) with (t + 1 + j) by lia; apply IH; lia).
Qed.

Lemma waitForProcess_length fuel proc timeoutMs ms t :
  length (snd (Utils.waitForProcess fuel proc timeoutMs ms t))
  = length (snd (Utils.waitLoop fuel proc ms (Utils.maxAttempts timeoutMs ms) 0%Z t)).
Proof.
  unfold Utils.waitForProcess.
  assert (forall t', snd ((t0 <- now ;;
                           if Utils.active (status proc t0)
                           then throw (TimeoutError timeoutMs (status proc t0))
                           else ret tt) t') = []) as Htail.
  { intros t'. unfold bind, now. cbn [length].
    destruct (Utils.active _); reflexivity. }
  match goal with
  | |- context [bind ?m ?f] =>
      destruct (bind_events m f t) as [E | (a & _ & E)]
  end; rewrite E; cbn [snd]; rewrite ?Htail, ?app_nil_r; reflexivity.
Qed.

(** X1. With a positive poll interval the wait never overshoots, whatever
    the handle does and whatever the fuel: it only sleeps, at most
    [ceil(timeoutMs / pollIntervalMs)] times, so for a non-negative timeout
    the time polled stays below [timeoutMs + pollIntervalMs]. *)
Theorem waitForProcess_never_overshoots
    (fuel : nat) (proc : Process) (timeoutMs pollIntervalMs : Z) (t : nat) :
  (0 < pollIntervalMs)%Z ->
  let evs := snd (Utils.waitForProcess fuel proc timeoutMs pollIntervalMs t) in
  evs = repeat (ESleep pollIntervalMs) (length evs)
  /\ length evs <= Utils.polls timeoutMs pollIntervalMs
  /\ ((0 <= timeoutMs)%Z ->
      (Utils.polledMs evs < timeoutMs + pollIntervalMs)%Z).
Proof.
  intros Hp evs.
  pose proof (waitForProcess_only_sleeps fuel proc timeoutMs pollIntervalMs t) as Hev.
  pose proof (waitForProcess_at_most fuel proc timeoutMs pollIntervalMs t Hp) as Hle.
  fold evs in Hev, Hle. split; [exact Hev|]. split; [exact Hle|].
  intros Ht. rewrite Hev, UtilsFacts.polledMs_repeat.
  unfold Utils.polls in Hle.
  pose proof (Z.mul_succ_div_gt (- timeoutMs) pollIntervalMs Hp).
  pose proof (Z.mul_div_le (- timeoutMs) pollIntervalMs Hp).
  nia.
Qed.

Lemma waitForProcess_never_overshoots_witness :
  let evs := snd (Utils.waitForProcess 100 stuckProcess 1000 300 0) in
  (Utils.polledMs evs < 1000 + 300)%Z.
Proof.
  destruct (waitForProcess_never_overshoots 100 stuckProcess 1000 300 0)
    as (_ & _ & H).
  - lia.
  - apply H. lia.
Defined.

(** X2. With a positive poll interval and enough fuel, for every handle:
    the wait sleeps only after an observation that found the process
    active; it resolves exactly when the status observed last is outside
    [{starting, running}]; and if it stops before the last allowed poll,
    that status is settled. *)
Theorem waitForProcess_stops_at_first_settled
    (fuel : nat) (proc : Process) (timeoutMs pollIntervalMs : Z) (t : nat) :
  (0 < pollIntervalMs)%Z ->
  Utils.polls timeoutMs pollIntervalMs <= fuel ->
  let run := Utils.waitForProcess fuel proc timeoutMs pollIntervalMs t in
  let k := length (snd run) in
  (forall j, j < k -> Utils.active (status proc (t + j)) = true)
  /\ (fst run = Ok tt <-> Utils.active (status proc (t + k)) = false)
  /\ (k < Utils.polls timeoutMs pollIntervalMs ->
      Utils.active (status proc (t + k)) = false).
Proof.
  intros Hp Hfuel run k.
  split; [|split].
  - intros j Hj. subst k run. rewrite waitForProcess_length in Hj.
    exact (waitLoop_polls_while_active _ _ _ _ _ _ _ Hj).
  - destruct run as [r evs] eqn:Hrun. subst k. cbn [fst snd].
    pose proof (wait_outcome fuel proc timeoutMs pollIntervalMs Hp Hfuel t r evs Hrun)
      as [_ Hr].
    destruct r as [[]| e |]; split; intros H; try discriminate; try assumption;
      try reflexivity.
    + destruct Hr as (_ & Ha & _). congruence.
    + contradiction.
  - intros Hk. subst k run. rewrite waitForProcess_length in *.
    destruct (Utils.waitLoop fuel proc pollIntervalMs
                (Utils.maxAttempts timeoutMs pollIntervalMs) 0%Z t) as [r evs] eqn:Hloop.
    rewrite UtilsFacts.maxAttempts_pos in Hloop by exact Hp.
    apply UtilsFacts.waitLoop_finite_shape in Hloop as [_ Hr].
    cbn [snd] in *. unfold Utils.polls in Hk, Hfuel.
    destruct r as [[]| e |].
    + destruct Hr as [Hr | Hr]; [exact Hr | lia].
    + contradiction.
    + lia.
Qed.

Lemma waitForProcess_stops_at_first_settled_witness :
  let run := Utils.waitForProcess 30 settlingLater 5000 200 0 in
  snd run = repeat (ESleep 200) 3
  /\ fst run = Ok tt
  /\ (forall j, j < 3 -> Utils.active (status settlingLater (0 + j)) = true)
  /\ Utils.active (status settlingLater (0 + 3)) = false.
Proof.
  cbv zeta.
  destruct (waitForProcess_stops_at_first_settled 30 settlingLater 5000 200 0)
    as (Hactive & Hok & Hearly).
  - lia.
  - vm_compute. lia.
  - assert (length (snd (Utils.waitForProcess 30 settlingLater 5000 200 0)) = 3)
      as Hlen by (vm_compute; reflexivity).
    rewrite Hlen in Hactive, Hok, Hearly.
    split; [vm_compute; reflexivity|].
    split; [apply Hok, Hearly; vm_compute; lia|].
    split; [exact Hactive|].
    apply Hearly. vm_compute. lia.
Defined.

(** ** Budgets of the gateway functions *)

Section Budgets.

Variables (R2_MOUNT_PATH R2_BUCKET_NAME : string).
Variable r : Rates.
Hypothesis fair : fairRates r.

Let w := price r.
Let S := perStart r.
Let Zr := perSleptMs r.
Let L := perLogFetch r.
Let Mo := perMount r.
Let K := perKill r.
Let Li := perListing r.

Lemma w_nonneg : forall ev, (0 <= w ev)%Z.
Proof. apply price_nonneg, fair. Qed.

Lemma rates_nonneg : (0 <= S /\ 0 <= Zr /\ 0 <= L /\ 0 <= Mo /\ 0 <= K /\ 0 <= Li)%Z.
Proof. exact fair. Qed.

Ltac wbind B1 B2 :=
  apply (within_bind w _ _ B1 B2);
  [ | intros | pose proof rates_nonneg; lia | pose proof rates_nonneg; lia ].

Ltac wcatch B1 B2 :=
  apply (within_catch w _ _ B1 B2);
  [ | intros | pose proof rates_nonneg; lia | pose proof rates_nonneg; lia ].

Ltac wleaf lem :=
  apply (within_weaken w _ _ _ lem); pose proof rates_nonneg; lia.

Lemma within_wait_ms fuel proc timeoutMs ms Bms :
  (0 < ms)%Z ->
  (Z.of_nat (Utils.polls timeoutMs ms) * ms <= Bms)%Z ->
  Within w (Zr * Bms) (Utils.waitForProcess fuel proc timeoutMs ms).
Proof.
  intros Hp HB.
  apply (within_weaken w _ _ _ (within_wait w w_nonneg fuel proc timeoutMs ms Hp)).
  subst w. cbn [price]. pose proof rates_nonneg. fold Zr. nia.
Qed.

Lemma within_start sb cmd : Within w S (start sb cmd).
Proof. apply (within_await w). Qed.

Lemma within_fetchLogs proc : Within w L (fetchLogs proc).
Proof. apply (within_await w). Qed.

Lemma within_fetchLogsOrEmpty proc : Within w L (fetchLogsOrEmpty proc).
Proof.
  unfold fetchLogsOrEmpty. wcatch L 0%Z.
  - apply within_fetchLogs.
  - apply within_ret.
Qed.

Lemma within_waitBestEffort proc timeoutMs ms Bms :
  (0 < ms)%Z ->
  (Z.of_nat (Utils.polls timeoutMs ms) * ms <= Bms)%Z ->
  (0 <= Bms)%Z ->
  Within w (Zr * Bms) (waitBestEffort proc timeoutMs ms).
Proof.
  intros Hp HB H0. unfold waitBestEffort.
  apply (within_catch w _ _ (Zr * Bms)%Z 0%Z);
    [ apply within_wait_ms; assumption | intros; apply within_ret | lia
    | pose proof rates_nonneg; nia ].
Qed.

Lemma within_probeMount sb :
  Within w (S + Zr * 5000 + L) (R2.probeMount R2_MOUNT_PATH sb).
Proof.
  unfold R2.probeMount. wbind S (Zr * 5000 + L)%Z; [apply within_start|].
  wbind (Zr * 5000)%Z L.
  - wcatch (Zr * 5000)%Z 0%Z; [|apply within_ret].
    wbind (Zr * 5000)%Z 0%Z; [|apply within_ret].
    apply within_wait_ms; [lia | vm_compute; discriminate].
  - destruct a0.
    + wbind L 0%Z; [apply within_fetchLogsOrEmpty | apply within_ret].
    + wleaf (within_ret w R2.Unresponsive).
Qed.

Lemma within_lazyUnmountR2 sb :
  Within w (S + Zr * 5000) (R2.lazyUnmountR2 R2_MOUNT_PATH sb).
Proof.
  unfold R2.lazyUnmountR2. wbind S (Zr * 5000)%Z; [apply within_start|].
  apply within_waitBestEffort; [lia | vm_compute; discriminate | lia].
Qed.

Lemma within_callMountBucket sb c :
  Within w Mo (R2.callMountBucket R2_MOUNT_PATH R2_BUCKET_NAME sb c).
Proof. apply (within_await w). Qed.

Lemma within_onMountError sb c err :
  Within w (2 * S + Zr * 10000 + L + Mo)
    (R2.onMountError R2_MOUNT_PATH R2_BUCKET_NAME sb c err).
Proof.
  unfold R2.onMountError.
  destruct (R2.isMountPathInUseError (message err));
    [|wleaf (within_ret w false)].
  wbind (S + Zr * 5000 + L)%Z (S + Zr * 5000 + Mo)%Z; [apply within_probeMount|].
  destruct a.
  - wleaf (within_ret w true).
  - wleaf (within_ret w false).
  - wbind (S + Zr * 5000)%Z Mo; [apply within_lazyUnmountR2|].
    wcatch Mo 0%Z; [|apply within_ret].
    wbind Mo 0%Z; [apply within_callMountBucket | apply within_ret].
Qed.

Lemma within_mountR2Storage sb env :
  Within w (4 * S + Zr * 20000 + 2 * L + 2 * Mo)
    (R2.mountR2Storage R2_MOUNT_PATH R2_BUCKET_NAME sb env).
Proof.
  unfold R2.mountR2Storage.
  destruct (credentials env) as [c|]; [|wleaf (within_ret w false)].
  wbind (S + Zr * 5000 + L)%Z (3 * S + Zr * 15000 + L + 2 * Mo)%Z;
    [apply within_probeMount|].
  assert (Within w (3 * S + Zr * 15000 + L + 2 * Mo)
            (R2.recoverIfUnresponsive R2_MOUNT_PATH sb a ;;
             catch (R2.callMountBucket R2_MOUNT_PATH R2_BUCKET_NAME sb c ;; ret true)
                   (R2.onMountError R2_MOUNT_PATH R2_BUCKET_NAME sb c))) as Hrest.
  { wbind (S + Zr * 5000)%Z (2 * S + Zr * 10000 + L + 2 * Mo)%Z.
    - destruct a; cbn [R2.recoverIfUnresponsive];
        [wleaf (within_ret w tt) | wleaf (within_ret w tt) | apply within_lazyUnmountR2].
    - wcatch Mo (2 * S + Zr * 10000 + L + Mo)%Z; [|apply within_onMountError].
      wbind Mo 0%Z; [apply within_callMountBucket | apply within_ret]. }
  destruct a; [wleaf (within_ret w true) | exact Hrest | exact Hrest].
Qed.

End Budgets.

(** Rules for a property of the interactions that holds of no interaction
    and is kept by concatenation. *)
Section Closed.

Variable Q : list Event -> Prop.
Hypothesis Q_nil : Q [].
Hypothesis Q_app : forall a b, Q a -> Q b -> Q (a ++ b).

Lemma closed_bind {A B} (m : M A) (f : A -> M B) t :
  Q (snd (m t)) -> (forall a t', Q (snd (f a t'))) -> Q (snd (bind m f t)).
Proof.
  intros Hm Hf. destruct (bind_events m f t) as [E | (a & _ & E)]; rewrite E.
  - exact Hm.
  - cbn [snd]. apply Q_app; [exact Hm | apply Hf].
Qed.

Lemma closed_catch {A} (m : M A) (h : Error -> M A) t :
  Q (snd (m t)) -> (forall e t', Q (snd (h e t'))) -> Q (snd (catch m h t)).
Proof.
  intros Hm Hh. destruct (catch_events m h t) as [E | (e & _ & E)]; rewrite E.
  - exact Hm.
  - cbn [snd]. apply Q_app; [exact Hm | apply Hh].
Qed.

Lemma closed_await {A} ev (reply : nat -> Reply A) t :
  Q [ev] -> Q (snd (await ev reply t)).
Proof. intros H. unfold await. destruct (reply t); exact H. Qed.

Lemma closed_sleeps ms k : Q [ESleep ms] -> Q (repeat (ESleep ms) k).
Proof.
  intros H. induction k as [|k IH]; [exact Q_nil|].
  change (repeat (ESleep ms) (Datatypes.S k))
    with ([ESleep ms] ++ repeat (ESleep ms) k).
  apply Q_app; assumption.
Qed.

Lemma closed_wait fuel proc timeoutMs ms t :
  Q [ESleep ms] -> Q (snd (Utils.waitForProcess fuel proc timeoutMs ms t)).
Proof. intros H. rewrite waitForProcess_only_sleeps. apply closed_sleeps, H. Qed.

End Closed.

Lemma safe_start sb cmd : startsReliably sb -> Safe (start sb cmd).
Proof.
  intros H t. destruct (H t cmd) as (proc & E). exists proc.
  rewrite start_run, E. reflexivity.
Qed.

Lemma safe_fetchLogsOrEmpty proc : Safe (fetchLogsOrEmpty proc).
Proof. intros t. rewrite fetchLogsOrEmpty_run. cbn [fst]. eauto. Qed.

Lemma safe_waitBestEffort proc timeoutMs ms :
  callSite timeoutMs ms -> Safe (waitBestEffort proc timeoutMs ms).
Proof.
  intros H. unfold waitBestEffort. apply safe_catch.
  - apply halts_wait, H.
  - intros e. apply safe_ret.
Qed.

Section MountMore.

Variables (R2_MOUNT_PATH R2_BUCKET_NAME : string).

#[local] Abbreviation probeMount := (R2.probeMount R2_MOUNT_PATH).
#[local] Abbreviation lazyUnmountR2 := (R2.lazyUnmountR2 R2_MOUNT_PATH).
#[local] Abbreviation recoverIfUnresponsive :=
  (R2.recoverIfUnresponsive R2_MOUNT_PATH).
#[local] Abbreviation mountR2Storage :=
  (R2.mountR2Storage R2_MOUNT_PATH R2_BUCKET_NAME).
#[local] Abbreviation callMountBucket :=
  (R2.callMountBucket R2_MOUNT_PATH R2_BUCKET_NAME).
#[local] Abbreviation onMountError :=
  (R2.onMountError R2_MOUNT_PATH R2_BUCKET_NAME).
#[local] Abbreviation mountEvent := (R2.mountEvent R2_MOUNT_PATH R2_BUCKET_NAME).

Lemma halts_probeMount sb : Halts (probeMount sb).
Proof. unfold R2.probeMount, start, fetchLogsOrEmpty, fetchLogs. halts. Qed.

Lemma halts_lazyUnmountR2 sb : Halts (lazyUnmountR2 sb).
Proof. unfold R2.lazyUnmountR2, start, waitBestEffort. halts. Qed.

Lemma halts_mountR2Storage sb env : Halts (mountR2Storage sb env).
Proof.
  unfold R2.mountR2Storage, R2.recoverIfUnresponsive, R2.onMountError,
    R2.callMountBucket.
  halts; try apply halts_probeMount; try apply halts_lazyUnmountR2.
Qed.

Lemma safe_probeMount sb : startsReliably sb -> Safe (probeMount sb).
Proof.
  intros H. unfold R2.probeMount.
  apply safe_bind; [apply safe_start, H|]. intros proc.
  apply safe_bind.
  - apply safe_catch; [|intros; apply safe_ret]. halts.
  - intros [|]; [|apply safe_ret].
    apply safe_bind; [apply safe_fetchLogsOrEmpty | intros; apply safe_ret].
Qed.

Lemma safe_lazyUnmountR2 sb : startsReliably sb -> Safe (lazyUnmountR2 sb).
Proof.
  intros H. unfold R2.lazyUnmountR2.
  apply safe_bind; [apply safe_start, H|]. intros proc.
  apply safe_waitBestEffort, callSite_5000_200.
Qed.

(** X3. [mountR2Storage] is bounded on every sandbox.  Take the first [n]
    interactions of a run, for any [n]: the whole run, or a run cut short at
    a sandbox call that never settles.  Among them at most four processes
    are started (two probes, two lazy unmounts), [mountBucket] is called at
    most twice and the poll sleeps add up to at most 20 seconds. *)
Theorem mountR2Storage_budget
    (sb : Sandbox) (env : OpenClawEnv) (t : nat) (n : nat) :
  let evs := firstn n (snd (mountR2Storage sb env t)) in
  (startsOf evs <= 4)%Z
  /\ (mountsOf evs <= 2)%Z
  /\ (sleptMs evs <= 20000)%Z.
Proof.
  cbv zeta.
  assert (forall r (fair : fairRates r),
            (weigh (price r) (firstn n (snd (mountR2Storage sb env t)))
             <= 4 * perStart r + perSleptMs r * 20000 + 2 * perLogFetch r
                + 2 * perMount r)%Z) as H.
  { intros r fair.
    pose proof (weigh_firstn (price r) n (snd (mountR2Storage sb env t))
                  (price_nonneg r fair)).
    pose proof (within_mountR2Storage R2_MOUNT_PATH R2_BUCKET_NAME r fair
                  sb env t).
    lia. }
  split; [|split].
  - apply (H (mkRates 1 0 0 0 0 0)). cbv. intuition discriminate.
  - apply (H (mkRates 0 0 0 1 0 0)). cbv. intuition discriminate.
  - apply (H (mkRates 0 1 0 0 0 0)). cbv. intuition discriminate.
Qed.

(** X4. On a sandbox that accepts every process start, [mountR2Storage]
    never raises: whatever [mountBucket] and the handles do, it returns a
    boolean. *)
Theorem mountR2Storage_never_raises (sb : Sandbox) (env : OpenClawEnv) (t : nat) :
  startsReliably sb ->
  exists mounted, fst (mountR2Storage sb env t) = Ok mounted.
Proof.
  intros H. revert t. change (Safe (mountR2Storage sb env)).
  unfold R2.mountR2Storage.
  destruct (credentials env) as [c|]; [|apply safe_ret].
  apply safe_bind; [apply safe_probeMount, H|]. intros pr0.
  assert (Safe (recoverIfUnresponsive sb pr0 ;;
                catch (callMountBucket sb c ;; ret true) (onMountError sb c)))
    as Hrest.
  { apply safe_bind.
    - destruct pr0; cbn [R2.recoverIfUnresponsive];
        [apply safe_ret | apply safe_ret | apply safe_lazyUnmountR2, H].
    - intros _. apply safe_catch.
      + unfold R2.callMountBucket. halts.
      + intros err. unfold R2.onMountError.
        destruct (R2.isMountPathInUseError (message err)); [|apply safe_ret].
        apply safe_bind; [apply safe_probeMount, H|].
        intros [fs | fs |]; try apply safe_ret.
        apply safe_bind; [apply safe_lazyUnmountR2, H|]. intros _.
        apply safe_catch; [unfold R2.callMountBucket; halts|].
        intros; apply safe_ret. }
  destruct pr0; [apply safe_ret | exact Hrest | exact Hrest].
Qed.

(** X5. A rejected start of the probe is not contained: with the
    credentials present, [mountR2Storage] raises the error of the sandbox
    after that single interaction, instead of returning [false]. *)
Theorem mountR2Storage_raises_on_rejected_probe
    (sb : Sandbox) (env : OpenClawEnv) (c : Credentials) (t : nat) (e : Error) :
  credentials env = Some c ->
  startProcess sb t (R2.probeCmd R2_MOUNT_PATH) = Rejected e ->
  mountR2Storage sb env t = (Throw e, [EStart (R2.probeCmd R2_MOUNT_PATH)]).
Proof.
  intros Hc Hstart. unfold R2.mountR2Storage. rewrite Hc.
  apply bind_throw.
  pose proof (R2Facts.probeMount_run R2_MOUNT_PATH sb t) as H.
  rewrite Hstart in H. exact H.
Qed.

(** X6. After an initial probe that did not report [Mounted] and the
    recovery that follows it, a [mountBucket] call that succeeds makes
    [mountR2Storage] return [true] at once; that call is the only one and it
    carries the configured bucket, path, endpoint of the account and
    credential pair. *)
Theorem mountR2Storage_mounts
    (sb : Sandbox) (env : OpenClawEnv) (c : Credentials) (t : nat)
    (pr0 : R2.MountProbe) (e0 e1 : list Event) :
  credentials env = Some c ->
  probeMount sb t = (Ok pr0, e0) ->
  (forall fs, pr0 <> R2.Mounted fs) ->
  recoverIfUnresponsive sb pr0 (t + length e0) = (Ok tt, e1) ->
  mountBucket sb (t + length e0 + length e1) R2_BUCKET_NAME R2_MOUNT_PATH
    (R2.mountOptions c) = Resolved tt ->
  mountR2Storage sb env t
  = (Ok true,
     e0 ++ e1
     ++ [EMount R2_BUCKET_NAME R2_MOUNT_PATH
           (mkMountOptions
              ("https://" ++ credAccountId c ++ ".r2.cloudflarestorage.com")
              (credAccessKeyId c) (credSecretAccessKey c))])
  /\ (mountsOf (snd (mountR2Storage sb env t)) = 1)%Z.
Proof.
  intros Hc Hprobe Hnot Hrec Hmount.
  assert (mountR2Storage sb env t = (Ok true, e0 ++ e1 ++ [mountEvent c])) as Hrun.
  { rewrite (mountR2Storage_after_probe R2_MOUNT_PATH R2_BUCKET_NAME
               sb env c t _ _ Hc Hprobe).
    assert ((recoverIfUnresponsive sb pr0 ;;
             catch (callMountBucket sb c ;; ret true) (onMountError sb c))
              (t + length e0)
            = (Ok true, e1 ++ [mountEvent c])) as Hrest.
    { rewrite (bind_ok _ _ _ _ _ Hrec), first_mount_attempt, Hmount. reflexivity. }
    destruct pr0 as [fs | fs |]; [exfalso; exact (Hnot fs eq_refl) | |];
      cbv zeta; rewrite Hrest; reflexivity. }
  split; [exact Hrun|]. rewrite Hrun. cbn [snd].
  unfold mountsOf. rewrite !weigh_app.
  pose proof (within_probeMount R2_MOUNT_PATH (mkRates 0 0 0 1 0 0)
                ltac:(cbv; intuition discriminate) sb t) as H0.
  rewrite Hprobe in H0. cbn in H0.
  pose proof (weigh_nonneg (price (mkRates 0 0 0 1 0 0)) e0
                (price_nonneg (mkRates 0 0 0 1 0 0) ltac:(cbv; intuition discriminate))) as H0'.
  assert (weigh (price (mkRates 0 0 0 1 0 0)) e1 = 0%Z) as H1.
  { destruct pr0; cbn [R2.recoverIfUnresponsive] in Hrec.
    - unfold ret in Hrec. injection Hrec as <-. reflexivity.
    - unfold ret in Hrec. injection Hrec as <-. reflexivity.
    - pose proof (within_lazyUnmountR2 R2_MOUNT_PATH (mkRates 0 0 0 1 0 0)
                    ltac:(cbv; intuition discriminate) sb (t + length e0)) as H1.
      rewrite Hrec in H1. cbn in H1.
      pose proof (weigh_nonneg (price (mkRates 0 0 0 1 0 0)) e1
                    (price_nonneg (mkRates 0 0 0 1 0 0) ltac:(cbv; intuition discriminate))). lia. }
  rewrite H1. cbn. lia.
Qed.

End MountMore.

Lemma mountR2Storage_never_raises_witness :
  exists mounted,
    fst (R2.mountR2Storage examplePath exampleBucket raceSandbox exampleEnv 0)
    = Ok mounted.
Proof.
  apply mountR2Storage_never_raises.
  intros t cmd. eexists. reflexivity.
Defined.

Lemma mountR2Storage_raises_on_rejected_probe_witness :
  R2.mountR2Storage examplePath exampleBucket refusingSandbox exampleEnv 0
  = (Throw (SandboxError "sandbox unavailable"), [EStart (R2.probeCmd examplePath)]).
Proof.
  apply (mountR2Storage_raises_on_rejected_probe examplePath exampleBucket
           refusingSandbox exampleEnv exampleCredentials 0); reflexivity.
Defined.

Lemma mountR2Storage_mounts_witness :
  R2.mountR2Storage examplePath exampleBucket freshSandbox exampleEnv 0
  = (Ok true,
     [EStart (R2.probeCmd examplePath); EGetLogs "proc";
      EMount "openclaw-data" "/data/openclaw"
        (mkMountOptions "https://account.r2.cloudflarestorage.com"
           "key-id" "secret")]).
Proof.
  destruct (mountR2Storage_mounts examplePath exampleBucket freshSandbox
              exampleEnv exampleCredentials 0 (R2.NotMounted "__ERR__")
              [EStart (R2.probeCmd examplePath); EGetLogs "proc"] [])
    as [Hrun _].
  - reflexivity.
  - reflexivity.
  - intros fs H. discriminate H.
  - reflexivity.
  - reflexivity.
  - exact Hrun.
Defined.

(** ** Budgets of the orchestrator *)

Section SyncBudgets.

Variables (R2_MOUNT_PATH R2_BUCKET_NAME : string).
Variable r : Rates.
Hypothesis fair : fairRates r.

Let w := price r.
Let St := perStart r.
Let Zr := perSleptMs r.
Let L := perLogFetch r.
Let Mo := perMount r.
Let K := perKill r.
Let Li := perListing r.

Lemma sync_rates_nonneg :
  (0 <= St /\ 0 <= Zr /\ 0 <= L /\ 0 <= Mo /\ 0 <= K /\ 0 <= Li)%Z.
Proof. exact fair. Qed.

Ltac wbind B1 B2 :=
  apply (within_bind w _ _ B1 B2);
  [ | intros | pose proof sync_rates_nonneg; lia | pose proof sync_rates_nonneg; lia ].

Ltac wcatch B1 B2 :=
  apply (within_catch w _ _ B1 B2);
  [ | intros | pose proof sync_rates_nonneg; lia | pose proof sync_rates_nonneg; lia ].

Ltac wleaf lem :=
  apply (within_weaken w _ _ _ lem); pose proof sync_rates_nonneg; lia.

Lemma within_sleep_100 : Within w (Zr * 100) (sleep 100).
Proof. apply (within_await w). Qed.

Lemma within_bestEffortKill proc : Within w K (Sync.bestEffortKill proc).
Proof.
  unfold Sync.bestEffortKill. destruct (kill proc) as [k|].
  - wcatch K 0%Z; [apply (within_await w) | apply within_ret].
  - wleaf (within_ret w tt).
Qed.

Lemma within_checkForActiveRsync sb :
  Within w Li (Sync.checkForActiveRsync R2_MOUNT_PATH sb).
Proof.
  unfold Sync.checkForActiveRsync. wcatch Li 0%Z; [|apply within_ret].
  wbind Li 0%Z; [apply (within_await w)|].
  destruct (find _ a); apply within_ret.
Qed.

Lemma within_ensureRsyncSuccess proc which :
  Within w L (Sync.ensureRsyncSuccess proc which).
Proof.
  unfold Sync.ensureRsyncSuccess. wbind 0%Z L; [apply within_now|].
  destruct (Sync.rsyncFailed proc a).
  - wbind L 0%Z; [apply (within_fetchLogsOrEmpty r fair) | apply within_ret].
  - wleaf (within_ret w (@None Sync.SyncResult)).
Qed.

Lemma within_pollVerifyLogs proc n :
  forall out err,
    Within w (Z.of_nat n * (L + Zr * 100)) (Sync.pollVerifyLogs proc n out err).
Proof.
  induction n as [|n IH]; intros out err.
  - apply within_ret.
  - cbn [Sync.pollVerifyLogs].
    apply (within_bind w _ _ L (Zr * 100 + Z.of_nat n * (L + Zr * 100))%Z);
      [ apply (within_fetchLogsOrEmpty r fair) | intros logs
      | pose proof sync_rates_nonneg; nia | pose proof sync_rates_nonneg; nia ].
    destruct (_ || _).
    + apply (within_weaken w _ _ _ (within_ret w _)).
      pose proof sync_rates_nonneg; nia.
    + apply (within_bind w _ _ (Zr * 100)%Z (Z.of_nat n * (L + Zr * 100))%Z);
        [ apply within_sleep_100 | intros; apply IH
        | pose proof sync_rates_nonneg; nia | lia ].
Qed.

Lemma within_judgeVerify proc out err :
  Within w 0 (Sync.judgeVerify proc out err).
Proof.
  unfold Sync.judgeVerify.
  destruct (Js.includes "__MISSING__" out); [apply within_ret|].
  destruct (_ && _); [apply within_ret|].
  destruct (negb _); [|apply within_ret].
  wbind 0%Z 0%Z; [apply within_now | apply within_throw].
Qed.

Lemma within_verifySource sb :
  Within w (St + Zr * 15000 + 50 * L) (Sync.verifySource R2_MOUNT_PATH sb).
Proof.
  unfold Sync.verifySource.
  wcatch (St + Zr * 15000 + 50 * L)%Z 0%Z; [|apply within_ret].
  wbind St (Zr * 15000 + 50 * L)%Z; [apply (within_start r)|].
  wbind (Zr * 10000)%Z (Zr * 5000 + 50 * L)%Z.
  - apply (within_waitBestEffort r fair); [lia | vm_compute; discriminate | lia].
  - wbind (Zr * 5000 + 50 * L)%Z 0%Z; [|apply within_judgeVerify].
    apply (within_weaken w _ _ _
             (within_pollVerifyLogs a 50 EmptyString EmptyString)).
    change (Z.of_nat 50) with 50%Z. lia.
Qed.

Lemma within_waitOrKill proc :
  Within w (Zr * 600000 + L + K) (Sync.waitOrKill proc).
Proof.
  unfold Sync.waitOrKill. wcatch (Zr * 600000)%Z (L + K)%Z.
  - apply (within_wait_ms r fair); [reflexivity | vm_compute; discriminate].
  - wbind L K; [apply (within_fetchLogsOrEmpty r fair)|].
    wbind K 0%Z; [apply within_bestEffortKill | apply within_throw].
Qed.

Lemma within_markerUnverified sb proc :
  Within w (St + Zr * 5000 + 2 * L)
    (Sync.markerUnverified R2_MOUNT_PATH sb proc).
Proof.
  unfold Sync.markerUnverified.
  wbind L (St + Zr * 5000 + L)%Z; [apply (within_fetchLogs r)|].
  wbind St (Zr * 5000 + L)%Z; [apply (within_start r)|].
  wbind (Zr * 5000)%Z L.
  - apply (within_waitBestEffort r fair); [lia | vm_compute; discriminate | lia].
  - wbind L 0%Z; [apply (within_fetchLogsOrEmpty r fair) | apply within_ret].
Qed.

Lemma within_writeAndVerifyMarker sb proc :
  Within w (3 * St + Zr * 35000 + 3 * L)
    (Sync.writeAndVerifyMarker R2_MOUNT_PATH sb proc).
Proof.
  unfold Sync.writeAndVerifyMarker.
  wbind St (2 * St + Zr * 35000 + 3 * L)%Z; [apply (within_start r)|].
  wbind (Zr * 15000)%Z (2 * St + Zr * 20000 + 3 * L)%Z;
    [apply (within_wait_ms r fair); [reflexivity | vm_compute; discriminate]|].
  wbind St (St + Zr * 20000 + 3 * L)%Z; [apply (within_start r)|].
  wbind (Zr * 15000)%Z (St + Zr * 5000 + 3 * L)%Z;
    [apply (within_wait_ms r fair); [reflexivity | vm_compute; discriminate]|].
  wbind L (St + Zr * 5000 + 2 * L)%Z; [apply (within_fetchLogs r)|].
  destruct (Sync.lastSyncOf _) as [ls|]; [destruct (Js.matchesDatePrefix ls)|];
    try apply within_markerUnverified.
  wleaf (within_ret w (Sync.mkResult true (Some ls) None None)).
Qed.

Lemma within_copyPass sb cmd which next Bn :
  (forall proc, Within w Bn (next proc)) -> (0 <= Bn)%Z ->
  Within w (St + Zr * 600000 + 2 * L + K + Bn) (copyPass sb cmd which next).
Proof.
  intros Hnext HBn. unfold copyPass.
  wbind St (Zr * 600000 + 2 * L + K + Bn)%Z; [apply (within_start r)|].
  wbind (Zr * 600000 + L + K)%Z (L + Bn)%Z; [apply within_waitOrKill|].
  wbind L Bn; [apply within_ensureRsyncSuccess|].
  destruct a1 as [res|]; [|apply Hnext].
  apply (within_weaken w _ _ _ (within_ret w res)). exact HBn.
Qed.

Lemma within_replicate sb :
  Within w (6 * St + Zr * 1835000 + 9 * L + 3 * K)
    (Sync.replicate R2_MOUNT_PATH sb).
Proof.
  change (Sync.replicate R2_MOUNT_PATH sb)
    with (catch (replicateBody R2_MOUNT_PATH sb)
            (fun err => ret (Sync.failure "Sync error" (Some (message err))))).
  wcatch (6 * St + Zr * 1835000 + 9 * L + 3 * K)%Z 0%Z; [|apply within_ret].
  unfold replicateBody.
  pose proof sync_rates_nonneg as Hr.
  apply (within_weaken w _ (St + Zr * 600000 + 2 * L + K
           + (St + Zr * 600000 + 2 * L + K
              + (St + Zr * 600000 + 2 * L + K
                 + (3 * St + Zr * 35000 + 3 * L))))%Z); [|lia].
  apply within_copyPass; [intros proc | lia].
  apply within_copyPass; [intros _ | lia].
  apply within_copyPass; [intros _ | lia].
  apply within_writeAndVerifyMarker.
Qed.

Lemma within_syncToR2 sb env :
  Within w (11 * St + Zr * 1870000 + 61 * L + 2 * Mo + 3 * K + Li)
    (Sync.syncToR2 R2_MOUNT_PATH R2_BUCKET_NAME sb env).
Proof.
  unfold Sync.syncToR2. destruct (credentials env) as [c|].
  2: { wleaf (within_ret w (Sync.failure "R2 storage is not configured" None)). }
  wbind (4 * St + Zr * 20000 + 2 * L + 2 * Mo)%Z
        (7 * St + Zr * 1850000 + 59 * L + 3 * K + Li)%Z;
    [apply (within_mountR2Storage R2_MOUNT_PATH R2_BUCKET_NAME r fair)|].
  destruct (negb a).
  { wleaf (within_ret w (Sync.failure "Failed to mount R2 storage" None)). }
  wbind Li (7 * St + Zr * 1850000 + 59 * L + 3 * K)%Z;
    [apply within_checkForActiveRsync|].
  destruct (fst a0).
  { wleaf (within_ret w (Sync.mkResult true None None (snd a0))). }
  wbind (St + Zr * 15000 + 50 * L)%Z (6 * St + Zr * 1835000 + 9 * L + 3 * K)%Z;
    [apply within_verifySource|].
  destruct a1 as [res|]; [|apply within_replicate].
  wleaf (within_ret w res).
Qed.

End SyncBudgets.

(** ** The orchestrator: halting, containment of errors, returned values *)

Lemma halts_start sb cmd : Halts (start sb cmd).
Proof. apply halts_await. Qed.

Lemma halts_fetchLogsOrEmpty proc : Halts (fetchLogsOrEmpty proc).
Proof. apply safe_halts, safe_fetchLogsOrEmpty. Qed.

Lemma halts_waitBestEffort proc timeoutMs ms :
  callSite timeoutMs ms -> Halts (waitBestEffort proc timeoutMs ms).
Proof. intros H. apply safe_halts, safe_waitBestEffort, H. Qed.

Lemma halts_bestEffortKill proc : Halts (Sync.bestEffortKill proc).
Proof. unfold Sync.bestEffortKill. halts. Qed.

Lemma halts_ensureRsyncSuccess proc which :
  Halts (Sync.ensureRsyncSuccess proc which).
Proof.
  unfold Sync.ensureRsyncSuccess.
  apply halts_bind; [apply halts_now | intros t].
  destruct (Sync.rsyncFailed proc t); [|apply halts_ret].
  apply halts_bind; [apply halts_fetchLogsOrEmpty | intros; apply halts_ret].
Qed.

Lemma halts_pollVerifyLogs proc n :
  forall out err, Halts (Sync.pollVerifyLogs proc n out err).
Proof.
  induction n as [|n IH]; intros out err; cbn [Sync.pollVerifyLogs].
  - apply halts_ret.
  - apply halts_bind; [apply halts_fetchLogsOrEmpty | intros logs].
    destruct (_ || _); [apply halts_ret|].
    apply halts_bind; [apply halts_await | intros; apply IH].
Qed.

Lemma halts_judgeVerify proc out err : Halts (Sync.judgeVerify proc out err).
Proof. unfold Sync.judgeVerify. halts. Qed.

Lemma halts_waitOrKill proc : Halts (Sync.waitOrKill proc).
Proof.
  unfold Sync.waitOrKill. apply halts_catch.
  - apply halts_wait, callSite_sync.
  - intros e. apply halts_bind; [apply halts_fetchLogsOrEmpty | intros _].
    apply halts_bind; [apply halts_bestEffortKill | intros; apply halts_throw].
Qed.

Section SyncLogic.

Variables (R2_MOUNT_PATH R2_BUCKET_NAME : string).

#[local] Abbreviation mountR2Storage :=
  (R2.mountR2Storage R2_MOUNT_PATH R2_BUCKET_NAME).
#[local] Abbreviation checkForActiveRsync :=
  (Sync.checkForActiveRsync R2_MOUNT_PATH).
#[local] Abbreviation verifySource := (Sync.verifySource R2_MOUNT_PATH).
#[local] Abbreviation markerUnverified := (Sync.markerUnverified R2_MOUNT_PATH).
#[local] Abbreviation writeAndVerifyMarker :=
  (Sync.writeAndVerifyMarker R2_MOUNT_PATH).
#[local] Abbreviation replicateBody := (replicateBody R2_MOUNT_PATH).
#[local] Abbreviation replicate := (Sync.replicate R2_MOUNT_PATH).
#[local] Abbreviation syncToR2 := (Sync.syncToR2 R2_MOUNT_PATH R2_BUCKET_NAME).

Lemma halts_checkForActiveRsync sb : Halts (checkForActiveRsync sb).
Proof. unfold Sync.checkForActiveRsync. halts. Qed.

Lemma halts_verifyBody sb :
  Halts (checkProc <- start sb (Sync.verifyCmd R2_MOUNT_PATH) ;;
         waitBestEffort checkProc 10000 200 ;;
         polled <- Sync.pollVerifyLogs checkProc 50 EmptyString EmptyString ;;
         Sync.judgeVerify checkProc (fst polled) (snd polled)).
Proof.
  apply halts_bind; [apply halts_start | intros checkProc].
  apply halts_bind;
    [apply halts_waitBestEffort; split; [lia | vm_compute; lia] | intros _].
  apply halts_bind; [apply halts_pollVerifyLogs | intros polled].
  apply halts_judgeVerify.
Qed.

Lemma safe_verifySource sb : Safe (verifySource sb).
Proof.
  unfold Sync.verifySource. apply safe_catch; [apply halts_verifyBody|].
  intros e. apply safe_ret.
Qed.

Lemma safe_checkForActiveRsync sb : Safe (checkForActiveRsync sb).
Proof.
  unfold Sync.checkForActiveRsync. apply safe_catch; [halts|].
  intros e. apply safe_ret.
Qed.

Lemma halts_markerUnverified sb proc : Halts (markerUnverified sb proc).
Proof.
  unfold Sync.markerUnverified.
  apply halts_bind; [apply halts_await | intros logs].
  apply halts_bind; [apply halts_start | intros diagProc].
  apply halts_bind; [apply halts_waitBestEffort, callSite_5000_200 | intros _].
  apply halts_bind; [apply halts_fetchLogsOrEmpty | intros; apply halts_ret].
Qed.

Lemma halts_writeAndVerifyMarker sb proc : Halts (writeAndVerifyMarker sb proc).
Proof.
  unfold Sync.writeAndVerifyMarker.
  apply halts_bind; [apply halts_start | intros writeProc].
  apply halts_bind; [apply halts_wait, callSite_15000_500 | intros _].
  apply halts_bind; [apply halts_start | intros timestampProc].
  apply halts_bind; [apply halts_wait, callSite_15000_500 | intros _].
  apply halts_bind; [apply halts_await | intros logs].
  destruct (Sync.lastSyncOf _) as [ls|];
    [destruct (Js.matchesDatePrefix ls)|];
    first [apply halts_ret | apply halts_markerUnverified].
Qed.

Lemma halts_copyPass sb cmd which next :
  (forall proc, Halts (next proc)) -> Halts (copyPass sb cmd which next).
Proof.
  intros Hnext. unfold copyPass.
  apply halts_bind; [apply halts_start | intros proc].
  apply halts_bind; [apply halts_waitOrKill | intros _].
  apply halts_bind; [apply halts_ensureRsyncSuccess | intros [res|]].
  - apply halts_ret.
  - apply Hnext.
Qed.

Lemma halts_replicateBody sb : Halts (replicateBody sb).
Proof.
  unfold Stages.replicateBody.
  apply halts_copyPass; intros proc.
  apply halts_copyPass; intros _.
  apply halts_copyPass; intros _.
  apply halts_writeAndVerifyMarker.
Qed.

Lemma safe_replicate sb : Safe (replicate sb).
Proof.
  change (replicate sb)
    with (catch (replicateBody sb)
            (fun err => ret (Sync.failure "Sync error" (Some (message err))))).
  apply safe_catch; [apply halts_replicateBody | intros; apply safe_ret].
Qed.

(** What follows the mount in [syncToR2] returns a result, whatever the
    sandbox does. *)
Lemma safe_after_mount sb (mounted : bool) :
  Safe (if negb mounted then ret (Sync.failure "Failed to mount R2 storage" None)
        else
          activeRsync <- checkForActiveRsync sb ;;
          if fst activeRsync
          then ret (Sync.mkResult true None None (snd activeRsync))
          else
            verdict <- verifySource sb ;;
            match verdict with
            | Some r => ret r
            | None => replicate sb
            end).
Proof.
  destruct (negb mounted); [apply safe_ret|].
  apply safe_bind; [apply safe_checkForActiveRsync | intros activeRsync].
  destruct (fst activeRsync); [apply safe_ret|].
  apply safe_bind; [apply safe_verifySource | intros [res|]].
  - apply safe_ret.
  - apply safe_replicate.
Qed.

Lemma halts_syncToR2 sb env : Halts (syncToR2 sb env).
Proof.
  unfold Sync.syncToR2. destruct (credentials env) as [c|]; [|apply halts_ret].
  apply halts_bind; [apply halts_mountR2Storage | intros mounted].
  apply safe_halts, safe_after_mount.
Qed.

End SyncLogic.

Lemma bind_throws_iff {A B} (m : M A) (f : A -> M B) t e :
  (forall a, Safe (f a)) ->
  fst (bind m f t) = Throw e <-> fst (m t) = Throw e.
Proof.
  intros Hf. unfold bind. destruct (m t) as [[a | e' |] e1]; cbn [fst].
  - destruct (Hf a (t + length e1)) as (b & Hb).
    destruct (f a (t + length e1)) as [rb e2]. cbn [fst] in *. subst rb.
    split; intros H; discriminate H.
  - split; intros H; injection H as ->; reflexivity.
  - split; intros H; discriminate H.
Qed.

(** *** Returned values *)

Lemma bind_fst_ok {A B} (m : M A) (f : A -> M B) t b :
  fst (bind m f t) = Ok b ->
  exists a, fst (m t) = Ok a /\ fst (f a (t + length (snd (m t)))) = Ok b.
Proof.
  unfold bind. destruct (m t) as [[a | e |] e1]; cbn [fst snd].
  - intros E. exists a. split; [reflexivity|].
    destruct (f a (t + length e1)) as [rb e2]. exact E.
  - discriminate.
  - discriminate.
Qed.

Lemma returns_ret {A} (P : A -> Prop) a : P a -> Returns P (ret a).
Proof. intros H t a' E. cbn in E. injection E as <-. exact H. Qed.

Lemma returns_throw {A} (P : A -> Prop) e : Returns P (@throw A e).
Proof. intros t a E. discriminate E. Qed.

Lemma returns_bind {A B} (Q : A -> Prop) (P : B -> Prop) (m : M A) (f : A -> M B) :
  Returns Q m -> (forall a, Q a -> Returns P (f a)) -> Returns P (bind m f).
Proof.
  intros Hm Hf t b E. apply bind_fst_ok in E. destruct E as (a & Ea & Eb).
  exact (Hf a (Hm t a Ea) _ b Eb).
Qed.

Lemma returns_any {A} (m : M A) : Returns (fun _ => True) m.
Proof. intros t a _. exact I. Qed.

Lemma returns_bind_any {A B} (P : B -> Prop) (m : M A) (f : A -> M B) :
  (forall a, Returns P (f a)) -> Returns P (bind m f).
Proof.
  intros Hf. apply (returns_bind (fun _ => True)); [apply returns_any|].
  intros a _. apply Hf.
Qed.

Lemma returns_catch {A} (P : A -> Prop) (m : M A) (h : Error -> M A) :
  Returns P m -> (forall e, Returns P (h e)) -> Returns P (catch m h).
Proof.
  intros Hm Hh t a E. unfold catch in E.
  pose proof (Hm t) as Hm'.
  destruct (m t) as [[a' | e |] e1]; cbn [fst] in *.
  - apply Hm'. exact E.
  - destruct (h e (t + length e1)) as [rb e2] eqn:Eh. cbn [fst] in E.
    apply (Hh e (t + length e1)). rewrite Eh. exact E.
  - discriminate E.
Qed.

(** ** Properties of every run of [syncToR2] *)

Section EveryRun.

Variables (R2_MOUNT_PATH R2_BUCKET_NAME : string).

#[local] Abbreviation mountR2Storage :=
  (R2.mountR2Storage R2_MOUNT_PATH R2_BUCKET_NAME).
#[local] Abbreviation checkForActiveRsync :=
  (Sync.checkForActiveRsync R2_MOUNT_PATH).
#[local] Abbreviation verifySource := (Sync.verifySource R2_MOUNT_PATH).
#[local] Abbreviation markerUnverified := (Sync.markerUnverified R2_MOUNT_PATH).
#[local] Abbreviation writeAndVerifyMarker :=
  (Sync.writeAndVerifyMarker R2_MOUNT_PATH).
#[local] Abbreviation replicateBody := (replicateBody R2_MOUNT_PATH).
#[local] Abbreviation replicate := (Sync.replicate R2_MOUNT_PATH).
#[local] Abbreviation syncToR2 := (Sync.syncToR2 R2_MOUNT_PATH R2_BUCKET_NAME).
#[local] Abbreviation known := (Forall (startsKnown R2_MOUNT_PATH)).

(** *** Only the known commands are started *)

Lemma known_app a b : known a -> known b -> known (a ++ b).
Proof. intros Ha Hb. apply Forall_app. split; assumption. Qed.

Lemma known_bind {A B} (m : M A) (f : A -> M B) t :
  known (snd (m t)) -> (forall a t', known (snd (f a t'))) ->
  known (snd (bind m f t)).
Proof. apply (closed_bind known known_app). Qed.

Lemma known_catch {A} (m : M A) (h : Error -> M A) t :
  known (snd (m t)) -> (forall e t', known (snd (h e t'))) ->
  known (snd (catch m h t)).
Proof. apply (closed_catch known known_app). Qed.

Lemma known_quiet {A} ev (reply : nat -> Reply A) t :
  startsKnown R2_MOUNT_PATH ev -> known (snd (await ev reply t)).
Proof. intros H. apply (closed_await known). repeat constructor. exact H. Qed.

Lemma known_start sb cmd t :
  In cmd (knownCommands R2_MOUNT_PATH) -> known (snd (start sb cmd t)).
Proof. intros H. apply known_quiet. exact H. Qed.

Lemma known_wait fuel proc timeoutMs ms t :
  known (snd (Utils.waitForProcess fuel proc timeoutMs ms t)).
Proof.
  apply (closed_wait known (Forall_nil _) known_app).
  repeat constructor.
Qed.

Lemma known_waitBestEffort proc timeoutMs ms t :
  known (snd (waitBestEffort proc timeoutMs ms t)).
Proof.
  unfold waitBestEffort. apply known_catch; [apply known_wait|].
  intros; apply Forall_nil.
Qed.

Lemma known_fetchLogs proc t : known (snd (fetchLogs proc t)).
Proof. apply known_quiet. exact I. Qed.

Lemma known_fetchLogsOrEmpty proc t : known (snd (fetchLogsOrEmpty proc t)).
Proof. rewrite fetchLogsOrEmpty_run. repeat constructor. Qed.

Ltac in_known :=
  unfold knownCommands; cbn [In];
  repeat first [left; reflexivity | right].

Lemma known_probeMount sb t : known (snd (R2.probeMount R2_MOUNT_PATH sb t)).
Proof.
  unfold R2.probeMount.
  apply known_bind; [apply known_start; in_known | intros proc t1].
  apply known_bind.
  - apply known_catch; [|intros; apply Forall_nil].
    apply known_bind; [apply known_wait | intros; apply Forall_nil].
  - intros [|] t2; [|apply Forall_nil].
    apply known_bind; [apply known_fetchLogsOrEmpty | intros; apply Forall_nil].
Qed.

Lemma known_lazyUnmountR2 sb t :
  known (snd (R2.lazyUnmountR2 R2_MOUNT_PATH sb t)).
Proof.
  unfold R2.lazyUnmountR2.
  apply known_bind; [apply known_start; in_known | intros proc t1].
  apply known_waitBestEffort.
Qed.

Lemma known_callMountBucket sb c t :
  known (snd (R2.callMountBucket R2_MOUNT_PATH R2_BUCKET_NAME sb c t)).
Proof. apply known_quiet. exact I. Qed.

Lemma known_mountR2Storage sb env t : known (snd (mountR2Storage sb env t)).
Proof.
  unfold R2.mountR2Storage.
  destruct (credentials env) as [c|]; [|apply Forall_nil].
  apply known_bind; [apply known_probeMount | intros pr0 t1].
  assert (forall t', known (snd ((R2.recoverIfUnresponsive R2_MOUNT_PATH sb pr0 ;;
             catch (R2.callMountBucket R2_MOUNT_PATH R2_BUCKET_NAME sb c ;; ret true)
                   (R2.onMountError R2_MOUNT_PATH R2_BUCKET_NAME sb c)) t')))
    as Hrest.
  { intros t'. apply known_bind.
    - destruct pr0; cbn [R2.recoverIfUnresponsive];
        first [apply Forall_nil | apply known_lazyUnmountR2].
    - intros _ t2. apply known_catch.
      + apply known_bind; [apply known_callMountBucket | intros; apply Forall_nil].
      + intros err t3. unfold R2.onMountError.
        destruct (R2.isMountPathInUseError (message err)); [|apply Forall_nil].
        apply known_bind; [apply known_probeMount|].
        intros [fs | fs |] t4; try apply Forall_nil.
        apply known_bind; [apply known_lazyUnmountR2 | intros _ t5].
        apply known_catch; [|intros; apply Forall_nil].
        apply known_bind; [apply known_callMountBucket | intros; apply Forall_nil]. }
  destruct pr0; [apply Forall_nil | apply Hrest | apply Hrest].
Qed.

Lemma known_checkForActiveRsync sb t : known (snd (checkForActiveRsync sb t)).
Proof.
  unfold Sync.checkForActiveRsync. apply known_catch; [|intros; apply Forall_nil].
  apply known_bind; [apply known_quiet; exact I | intros infos t1].
  destruct (find _ infos); apply Forall_nil.
Qed.

Lemma known_pollVerifyLogs proc n :
  forall out err t, known (snd (Sync.pollVerifyLogs proc n out err t)).
Proof.
  induction n as [|n IH]; intros out err t; cbn [Sync.pollVerifyLogs].
  - apply Forall_nil.
  - apply known_bind; [apply known_fetchLogsOrEmpty | intros logs t1].
    destruct (_ || _); [apply Forall_nil|].
    apply known_bind; [apply known_quiet; exact I | intros; apply IH].
Qed.

Lemma known_judgeVerify proc out err t :
  known (snd (Sync.judgeVerify proc out err t)).
Proof.
  unfold Sync.judgeVerify.
  destruct (Js.includes "__MISSING__" out); [apply Forall_nil|].
  destruct (_ && _); [apply Forall_nil|].
  destruct (negb _); apply Forall_nil.
Qed.

Lemma known_verifySource sb t : known (snd (verifySource sb t)).
Proof.
  unfold Sync.verifySource. apply known_catch; [|intros; apply Forall_nil].
  apply known_bind; [apply known_start; in_known | intros checkProc t1].
  apply known_bind; [apply known_waitBestEffort | intros _ t2].
  apply known_bind; [apply known_pollVerifyLogs | intros polled t3].
  apply known_judgeVerify.
Qed.

Lemma known_bestEffortKill proc t : known (snd (Sync.bestEffortKill proc t)).
Proof.
  unfold Sync.bestEffortKill. destruct (kill proc) as [k|]; [|apply Forall_nil].
  apply known_catch; [apply known_quiet; exact I | intros; apply Forall_nil].
Qed.

Lemma known_waitOrKill proc t : known (snd (Sync.waitOrKill proc t)).
Proof.
  unfold Sync.waitOrKill. apply known_catch; [apply known_wait | intros e t1].
  apply known_bind; [apply known_fetchLogsOrEmpty | intros _ t2].
  apply known_bind; [apply known_bestEffortKill | intros; apply Forall_nil].
Qed.

Lemma known_ensureRsyncSuccess proc which t :
  known (snd (Sync.ensureRsyncSuccess proc which t)).
Proof.
  unfold Sync.ensureRsyncSuccess.
  apply known_bind; [apply Forall_nil | intros t0 t1].
  destruct (Sync.rsyncFailed proc t0); [|apply Forall_nil].
  apply known_bind; [apply known_fetchLogsOrEmpty | intros; apply Forall_nil].
Qed.

Lemma known_markerUnverified sb proc t :
  known (snd (markerUnverified sb proc t)).
Proof.
  unfold Sync.markerUnverified.
  apply known_bind; [apply known_fetchLogs | intros logs t1].
  apply known_bind; [apply known_start; in_known | intros diagProc t2].
  apply known_bind; [apply known_waitBestEffort | intros _ t3].
  apply known_bind; [apply known_fetchLogsOrEmpty | intros; apply Forall_nil].
Qed.

Lemma known_writeAndVerifyMarker sb proc t :
  known (snd (writeAndVerifyMarker sb proc t)).
Proof.
  unfold Sync.writeAndVerifyMarker.
  apply known_bind; [apply known_start; in_known | intros writeProc t1].
  apply known_bind; [apply known_wait | intros _ t2].
  apply known_bind; [apply known_start; in_known | intros timestampProc t3].
  apply known_bind; [apply known_wait | intros _ t4].
  apply known_bind; [apply known_fetchLogs | intros logs t5].
  destruct (Sync.lastSyncOf _) as [ls|];
    [destruct (Js.matchesDatePrefix ls)|];
    first [apply Forall_nil | apply known_markerUnverified].
Qed.

Lemma known_copyPass sb cmd which next t :
  In cmd (knownCommands R2_MOUNT_PATH) ->
  (forall proc t', known (snd (next proc t'))) ->
  known (snd (copyPass sb cmd which next t)).
Proof.
  intros Hcmd Hnext. unfold copyPass.
  apply known_bind; [apply known_start, Hcmd | intros proc t1].
  apply known_bind; [apply known_waitOrKill | intros _ t2].
  apply known_bind; [apply known_ensureRsyncSuccess | intros [res|] t3].
  - apply Forall_nil.
  - apply Hnext.
Qed.

Lemma known_replicate sb t : known (snd (replicate sb t)).
Proof.
  destruct (replicate_run R2_MOUNT_PATH sb t) as [-> _].
  unfold Stages.replicateBody.
  apply known_copyPass; [in_known | intros proc t1].
  apply known_copyPass; [in_known | intros _ t2].
  apply known_copyPass; [in_known | intros _ t3].
  apply known_writeAndVerifyMarker.
Qed.

Lemma known_syncToR2 sb env t : known (snd (syncToR2 sb env t)).
Proof.
  unfold Sync.syncToR2. destruct (credentials env) as [c|]; [|apply Forall_nil].
  apply known_bind; [apply known_mountR2Storage | intros mounted t1].
  destruct (negb mounted); [apply Forall_nil|].
  apply known_bind; [apply known_checkForActiveRsync | intros activeRsync t2].
  destruct (fst activeRsync); [apply Forall_nil|].
  apply known_bind; [apply known_verifySource | intros [res|] t3].
  - apply Forall_nil.
  - apply known_replicate.
Qed.

Lemma known_started evs :
  known evs -> Forall (fun cmd => In cmd (knownCommands R2_MOUNT_PATH)) (started evs).
Proof.
  induction 1 as [|ev evs Hev _ IH]; [constructor|].
  destruct ev; cbn [started]; try exact IH. constructor; [exact Hev | exact IH].
Qed.

(** *** The shape of the results *)

#[local] Abbreviation shaped := (fun res => wellFormed res = true).
#[local] Abbreviation shapedIfAny :=
  (fun o : option Sync.SyncResult => forall res, o = Some res -> wellFormed res = true).

Lemma returns_ensureRsyncSuccess proc which :
  Returns shapedIfAny (Sync.ensureRsyncSuccess proc which).
Proof.
  unfold Sync.ensureRsyncSuccess. apply returns_bind_any. intros t.
  destruct (Sync.rsyncFailed proc t).
  - apply returns_bind_any. intros logs. apply returns_ret.
    intros res [= <-]. reflexivity.
  - apply returns_ret. intros res H. discriminate H.
Qed.

Lemma returns_judgeVerify proc out err :
  Returns shapedIfAny (Sync.judgeVerify proc out err).
Proof.
  unfold Sync.judgeVerify.
  destruct (Js.includes "__MISSING__" out).
  { apply returns_ret. intros res [= <-]. reflexivity. }
  destruct (_ && _).
  { apply returns_ret. intros res [= <-]. reflexivity. }
  destruct (negb _).
  - apply returns_bind_any. intros t. apply returns_throw.
  - apply returns_ret. intros res H. discriminate H.
Qed.

Lemma returns_verifySource sb : Returns shapedIfAny (verifySource sb).
Proof.
  unfold Sync.verifySource. apply returns_catch.
  - apply returns_bind_any. intros checkProc.
    apply returns_bind_any. intros _.
    apply returns_bind_any. intros polled.
    apply returns_judgeVerify.
  - intros e. apply returns_ret. intros res [= <-]. reflexivity.
Qed.

Lemma returns_markerUnverified sb proc :
  Returns shaped (markerUnverified sb proc).
Proof.
  unfold Sync.markerUnverified.
  apply returns_bind_any. intros logs.
  apply returns_bind_any. intros diagProc.
  apply returns_bind_any. intros _.
  apply returns_bind_any. intros diagLogs.
  apply returns_ret. reflexivity.
Qed.

Lemma returns_writeAndVerifyMarker sb proc :
  Returns shaped (writeAndVerifyMarker sb proc).
Proof.
  unfold Sync.writeAndVerifyMarker.
  apply returns_bind_any. intros writeProc.
  apply returns_bind_any. intros _.
  apply returns_bind_any. intros timestampProc.
  apply returns_bind_any. intros _.
  apply returns_bind_any. intros logs.
  destruct (Sync.lastSyncOf _) as [ls|];
    [destruct (Js.matchesDatePrefix ls) eqn:Hdate|];
    try apply returns_markerUnverified.
  apply returns_ret. exact Hdate.
Qed.

Lemma returns_copyPass sb cmd which next :
  (forall proc, Returns shaped (next proc)) ->
  Returns shaped (copyPass sb cmd which next).
Proof.
  intros Hnext. unfold copyPass.
  apply returns_bind_any. intros proc.
  apply returns_bind_any. intros _.
  apply (returns_bind shapedIfAny); [apply returns_ensureRsyncSuccess|].
  intros [res|] H.
  - apply returns_ret. apply H. reflexivity.
  - apply Hnext.
Qed.

Lemma returns_replicate sb : Returns shaped (replicate sb).
Proof.
  change (replicate sb)
    with (catch (replicateBody sb)
            (fun err => ret (Sync.failure "Sync error" (Some (message err))))).
  apply returns_catch.
  - unfold Stages.replicateBody.
    apply returns_copyPass; intros proc.
    apply returns_copyPass; intros _.
    apply returns_copyPass; intros _.
    apply returns_writeAndVerifyMarker.
  - intros e. apply returns_ret. reflexivity.
Qed.

Lemma returns_syncToR2 sb env : Returns shaped (syncToR2 sb env).
Proof.
  unfold Sync.syncToR2. destruct (credentials env) as [c|].
  2: { apply returns_ret. reflexivity. }
  apply returns_bind_any. intros mounted.
  destruct (negb mounted); [apply returns_ret; reflexivity|].
  apply returns_bind_any. intros activeRsync.
  destruct (fst activeRsync); [apply returns_ret; reflexivity|].
  apply (returns_bind shapedIfAny); [apply returns_verifySource|].
  intros [res|] H.
  - apply returns_ret. apply H. reflexivity.
  - apply returns_replicate.
Qed.

Lemma wellFormed_reading res :
  wellFormed res = true ->
  (Sync.success res = true ->
   Sync.error res = None
   /\ forall ls, Sync.lastSync res = Some ls -> Js.matchesDatePrefix ls = true)
  /\ (Sync.success res = false ->
      Sync.lastSync res = None
      /\ exists msg, Sync.error res = Some msg /\ In msg knownErrors).
Proof.
  unfold wellFormed. destruct res as [ok ls err det].
  cbn [Sync.success Sync.error Sync.lastSync].
  destruct ok, err as [msg|], ls as [l|]; intros H; try discriminate H;
    (split; [intros Hs; try discriminate Hs | intros Hs; try discriminate Hs]).
  - split; [reflexivity|]. intros l' [= <-]. exact H.
  - split; [reflexivity|]. intros l' E. discriminate E.
  - split; [reflexivity|]. exists msg. split; [reflexivity|].
    apply existsb_exists in H. destruct H as (x & Hin & Hx).
    apply String.eqb_eq in Hx. subst x. exact Hin.
Qed.

(** X7. [syncToR2] is bounded on every sandbox.  Take the first [n]
    interactions of a run, for any [n]: the whole run, or a run cut short at
    a sandbox call that never settles.  Among them at most eleven processes
    are started, [mountBucket] is called at most twice and the poll sleeps
    add up to at most 1,870,000 ms. *)
Theorem syncToR2_budget
    (sb : Sandbox) (env : OpenClawEnv) (t : nat) (n : nat) :
  let evs := firstn n (snd (syncToR2 sb env t)) in
  (startsOf evs <= 11)%Z
  /\ (mountsOf evs <= 2)%Z
  /\ (sleptMs evs <= 1870000)%Z.
Proof.
  cbv zeta.
  assert (forall r (fair : fairRates r),
            (weigh (price r) (firstn n (snd (syncToR2 sb env t)))
             <= 11 * perStart r + perSleptMs r * 1870000 + 61 * perLogFetch r
                + 2 * perMount r + 3 * perKill r + perListing r)%Z) as H.
  { intros r fair.
    pose proof (weigh_firstn (price r) n (snd (syncToR2 sb env t))
                  (price_nonneg r fair)).
    pose proof (within_syncToR2 R2_MOUNT_PATH R2_BUCKET_NAME r fair sb env t).
    lia. }
  split; [|split].
  - apply (H (mkRates 1 0 0 0 0 0)). cbv. intuition discriminate.
  - apply (H (mkRates 0 0 0 1 0 0)). cbv. intuition discriminate.
  - apply (H (mkRates 0 1 0 0 0 0)). cbv. intuition discriminate.
Qed.

(** X8. The only errors that escape [syncToR2] are those that escape
    [mountR2Storage]: a run raises [e] exactly when the credentials are
    configured and the mount raises [e].  Everything after the mount is
    turned into a returned [SyncResult]. *)
Theorem syncToR2_raises_only_from_mount
    (sb : Sandbox) (env : OpenClawEnv) (t : nat) (e : Error) :
  fst (syncToR2 sb env t) = Throw e
  <-> credentials env <> None /\ fst (mountR2Storage sb env t) = Throw e.
Proof.
  unfold Sync.syncToR2. destruct (credentials env) as [c|] eqn:Hc.
  - rewrite bind_throws_iff.
    + split; [intros H; split; [discriminate | exact H] | intros [_ H]; exact H].
    + intros mounted. apply safe_after_mount.
  - split; [intros H; discriminate H | intros [H _]; exfalso; apply H; reflexivity].
Qed.

(** X9. Every result returned by [syncToR2] is well formed: a success
    carries no [error], and its [lastSync], if any, starts like a date; a
    failure carries no [lastSync] and its [error] is one of the seven known
    texts. *)
Theorem syncToR2_result_shape
    (sb : Sandbox) (env : OpenClawEnv) (t : nat) (res : Sync.SyncResult) :
  fst (syncToR2 sb env t) = Ok res ->
  (Sync.success res = true ->
   Sync.error res = None
   /\ forall ls, Sync.lastSync res = Some ls -> Js.matchesDatePrefix ls = true)
  /\ (Sync.success res = false ->
      Sync.lastSync res = None
      /\ exists msg, Sync.error res = Some msg /\ In msg knownErrors).
Proof.
  intros H. apply wellFormed_reading. exact (returns_syncToR2 sb env t res H).
Qed.

(** X10. [syncToR2] starts no process other than the nine commands of the
    gateway: the mount probe, the lazy unmount, the source verification, the
    three copy passes, the marker write, the marker read-back and the
    diagnostics. *)
Theorem syncToR2_starts_known_commands
    (sb : Sandbox) (env : OpenClawEnv) (t : nat) :
  Forall (fun cmd => In cmd (knownCommands R2_MOUNT_PATH))
         (started (snd (syncToR2 sb env t))).
Proof. apply known_started, known_syncToR2. Qed.

End EveryRun.

Lemma syncToR2_raises_only_from_mount_witness :
  fst (Sync.syncToR2 examplePath exampleBucket refusingSandbox exampleEnv 0)
  = Throw (SandboxError "sandbox unavailable").
Proof.
  apply syncToR2_raises_only_from_mount. split.
  - discriminate.
  - reflexivity.
Defined.

Lemma syncToR2_result_shape_witness :
  exists msg,
    Sync.error (Sync.failure "Sync failed"
                  (Some "rsync failed (openclaw) exitCode=1")) = Some msg
    /\ In msg knownErrors.
Proof.
  apply (syncToR2_result_shape examplePath exampleBucket failingSandbox
           exampleEnv 0
           (Sync.failure "Sync failed" (Some "rsync failed (openclaw) exitCode=1"))).
  - vm_compute. reflexivity.
  - reflexivity.
Defined.

(** ** The dedup check, the source verification and the failure paths *)

Lemma active_iff st :
  Utils.active st = true <-> st = "starting" \/ st = "running".
Proof.
  unfold Utils.active. rewrite orb_true_iff, !String.eqb_eq. reflexivity.
Qed.

(** *** [String.prototype.includes] *)

Lemma prefix_occurs needle s :
  String.prefix needle s = true <-> exists post, s = (needle ++ post)%string.
Proof.
  revert s. induction needle as [|c needle IH]; intros s.
  - split; [intros _; exists s; reflexivity | intros _; destruct s; reflexivity].
  - destruct s as [|c' s]; cbn [String.prefix].
    + split; [discriminate | intros (post & H); discriminate H].
    + destruct (Ascii.ascii_dec c c') as [<- | Hne].
      * rewrite IH. split; intros (post & H); exists post.
        -- cbn. rewrite H. reflexivity.
        -- cbn in H. injection H as H. exact H.
      * split; [discriminate|]. intros (post & H). cbn in H.
        injection H as H _. congruence.
Qed.

Lemma includes_occurs needle s :
  Js.includes needle s = true <-> occurs needle s.
Proof.
  unfold occurs. induction s as [|c s IH].
  - cbn [Js.includes]. rewrite orb_false_r, prefix_occurs. split.
    + intros (post & H). exists EmptyString, post. exact H.
    + intros ([|c pre] & post & H); [exists post; exact H | discriminate H].
  - cbn [Js.includes]. rewrite orb_true_iff, prefix_occurs, IH. split.
    + intros [(post & H) | (pre & post & H)].
      * exists EmptyString, post. exact H.
      * exists (String c pre), post. cbn. rewrite H. reflexivity.
    + intros ([|c' pre] & post & H).
      * left. exists post. exact H.
      * right. cbn in H. injection H as _ H. exists pre, post. exact H.
Qed.

Section MoreExtras.

Variables (R2_MOUNT_PATH R2_BUCKET_NAME : string).

#[local] Abbreviation mountR2Storage :=
  (R2.mountR2Storage R2_MOUNT_PATH R2_BUCKET_NAME).
#[local] Abbreviation checkForActiveRsync :=
  (Sync.checkForActiveRsync R2_MOUNT_PATH).
#[local] Abbreviation isActiveRsync := (Sync.isActiveRsync R2_MOUNT_PATH).
#[local] Abbreviation verifySource := (Sync.verifySource R2_MOUNT_PATH).
#[local] Abbreviation verifyCmd := (Sync.verifyCmd R2_MOUNT_PATH).
#[local] Abbreviation syncOpenclawCmd := (Sync.syncOpenclawCmd R2_MOUNT_PATH).
#[local] Abbreviation diagCmd := (Sync.diagCmd R2_MOUNT_PATH).
#[local] Abbreviation markerUnverified := (Sync.markerUnverified R2_MOUNT_PATH).
#[local] Abbreviation writeAndVerifyMarker :=
  (Sync.writeAndVerifyMarker R2_MOUNT_PATH).
#[local] Abbreviation replicate := (Sync.replicate R2_MOUNT_PATH).
#[local] Abbreviation syncToR2 := (Sync.syncToR2 R2_MOUNT_PATH R2_BUCKET_NAME).

Lemma isActiveRsync_iff p :
  isActiveRsync p = true
  <-> exists st,
      infoStatus p = Some st /\ (st = "starting" \/ st = "running")
      /\ Js.includes "rsync" (commandOf p) = true
      /\ Js.includes R2_MOUNT_PATH (commandOf p) = true.
Proof.
  unfold Sync.isActiveRsync, commandOf. destruct (infoStatus p) as [st|].
  - destruct (Utils.active st) eqn:Ha.
    + rewrite andb_true_iff. apply active_iff in Ha. split.
      * intros [H1 H2]. exists st. auto.
      * intros (st' & [= <-] & _ & H1 & H2). auto.
    + split; [discriminate|]. intros (st' & [= <-] & Hst & _).
      apply active_iff in Hst. congruence.
  - split; [discriminate | intros (st & H & _); discriminate H].
Qed.

(** X11. The dedup check never raises and costs exactly one process
    listing.  It reports an active copy exactly when the listing succeeds
    and shows a process whose status is [starting] or [running] and whose
    command contains both [rsync] and the mount path; a failed listing counts
    as no active copy. *)
Theorem checkForActiveRsync_finds_active_copy (sb : Sandbox) (t : nat) :
  exists hasActive details,
    checkForActiveRsync sb t = (Ok (hasActive, details), [EList])
    /\ (hasActive = true
        <-> exists infos p st,
            listProcesses sb t = Resolved infos /\ In p infos
            /\ infoStatus p = Some st /\ (st = "starting" \/ st = "running")
            /\ Js.includes "rsync" (commandOf p) = true
            /\ Js.includes R2_MOUNT_PATH (commandOf p) = true)
    /\ (hasActive = false -> details = None).
Proof.
  rewrite (checkForActiveRsync_run R2_MOUNT_PATH).
  destruct (listProcesses sb t) as [infos | e].
  - destruct (find isActiveRsync infos) as [p|] eqn:Hfind.
    + exists true, (Some (Sync.skippedDetails p)). split; [reflexivity|]. split.
      * split; [intros _ | reflexivity].
        apply find_some in Hfind. destruct Hfind as [Hin Hp].
        apply isActiveRsync_iff in Hp. destruct Hp as (st & H1 & H2 & H3 & H4).
        exists infos, p, st. auto 10.
      * discriminate.
    + exists false, None. split; [reflexivity|]. split; [|reflexivity].
      split; [discriminate|].
      intros (infos' & p & st & [= <-] & Hin & H1 & H2 & H3 & H4).
      pose proof (find_none _ _ Hfind p Hin) as Hp.
      assert (isActiveRsync p = true) as Hp'
        by (apply isActiveRsync_iff; exists st; auto).
      congruence.
  - exists false, None. split; [reflexivity|]. split; [|reflexivity].
    split; [discriminate|]. intros (infos & p & st & H & _). discriminate H.
Qed.

(** *** The loop polling the logs of the verification *)

Lemma verifyRounds_length id n : length (verifyRounds id n) = 2 * n.
Proof. induction n as [|n IH]; cbn [verifyRounds length]; lia. Qed.

Lemma pollVerifyLogs_step proc n out err t :
  Sync.pollVerifyLogs proc (S n) out err t
  = let l := logsOrEmpty proc t in
    if showsSentinel l
    then (Ok (stdout l, stderr l), [EGetLogs (procId proc)])
    else (fst (Sync.pollVerifyLogs proc n (stdout l) (stderr l) (t + 2)),
          EGetLogs (procId proc) :: ESleep 100
          :: snd (Sync.pollVerifyLogs proc n (stdout l) (stderr l) (t + 2))).
Proof.
  cbn [Sync.pollVerifyLogs].
  rewrite (bind_ok _ _ _ _ _ (fetchLogsOrEmpty_run proc t)).
  cbv zeta. unfold showsSentinel.
  destruct (_ || _).
  - reflexivity.
  - cbn [length fst snd app].
    rewrite (bind_ok (sleep 100) _ (t + 1) tt [ESleep 100]) by reflexivity.
    cbn [length fst snd app]. replace (t + 1 + 1) with (t + 2) by lia.
    reflexivity.
Qed.

(** The loop returns the first logs that show a sentinel. *)
Lemma pollVerifyLogs_first_sentinel proc n :
  forall j out err t,
    j < n ->
    (forall i, i < j -> showsSentinel (logsOrEmpty proc (t + 2 * i)) = false) ->
    showsSentinel (logsOrEmpty proc (t + 2 * j)) = true ->
    Sync.pollVerifyLogs proc n out err t
    = (Ok (stdout (logsOrEmpty proc (t + 2 * j)),
           stderr (logsOrEmpty proc (t + 2 * j))),
       verifyRounds (procId proc) j ++ [EGetLogs (procId proc)]).
Proof.
  induction n as [|n IH]; intros j out err t Hj Hbefore Hat; [lia|].
  rewrite pollVerifyLogs_step. cbv zeta.
  destruct j as [|j].
  - rewrite Nat.mul_0_r, Nat.add_0_r in Hat. rewrite Hat.
    rewrite Nat.mul_0_r, Nat.add_0_r. reflexivity.
  - pose proof (Hbefore 0 ltac:(lia)) as H0.
    rewrite Nat.mul_0_r, Nat.add_0_r in H0. rewrite H0.
    rewrite (IH j (stdout (logsOrEmpty proc t)) (stderr (logsOrEmpty proc t))
               (t + 2)).
    + cbn [fst snd verifyRounds app].
      replace (t + 2 + 2 * j) with (t + 2 * S j) by lia. reflexivity.
    + lia.
    + intros i Hi. replace (t + 2 + 2 * i) with (t + 2 * S i) by lia.
      apply Hbefore. lia.
    + replace (t + 2 + 2 * j) with (t + 2 * S j) by lia. exact Hat.
Qed.

(** Without a sentinel the loop goes through all its rounds and returns the
    last logs. *)
Lemma pollVerifyLogs_no_sentinel proc n :
  forall out err t,
    (forall i, i < S n -> showsSentinel (logsOrEmpty proc (t + 2 * i)) = false) ->
    Sync.pollVerifyLogs proc (S n) out err t
    = (Ok (stdout (logsOrEmpty proc (t + 2 * n)),
           stderr (logsOrEmpty proc (t + 2 * n))),
       verifyRounds (procId proc) (S n)).
Proof.
  induction n as [|n IH]; intros out err t Hnone.
  - rewrite pollVerifyLogs_step. cbv zeta.
    pose proof (Hnone 0 ltac:(lia)) as H0.
    rewrite Nat.mul_0_r, Nat.add_0_r in H0. rewrite H0.
    rewrite Nat.mul_0_r, Nat.add_0_r. reflexivity.
  - rewrite pollVerifyLogs_step. cbv zeta.
    pose proof (Hnone 0 ltac:(lia)) as H0.
    rewrite Nat.mul_0_r, Nat.add_0_r in H0. rewrite H0.
    rewrite IH.
    + cbn [fst snd]. replace (t + 2 + 2 * n) with (t + 2 * S n) by lia.
      reflexivity.
    + intros i Hi. replace (t + 2 + 2 * i) with (t + 2 * S i) by lia.
      apply Hnone. lia.
Qed.

(** X12. The verdict of the source verification once a sentinel shows up.
    Let the verification command be started and its best-effort wait be
    over; if round [j] of the at most 50 log polls is the first whose output
    shows [__OK__] or [__MISSING__], the polling stops there after [j]
    sleeps of 100 ms, and that output alone decides: [__MISSING__] aborts
    with the error of the missing config file, else a non-empty remote
    workspace with an empty local one aborts with the error of the empty
    workspace, else the sync goes on. *)
Theorem verifySource_verdict_on_sentinel
    (sb : Sandbox) (t : nat) (checkProc : Process) (ew : list Event) (j : nat) :
  startProcess sb t verifyCmd = Resolved checkProc ->
  waitBestEffort checkProc 10000 200 (t + 1) = (Ok tt, ew) ->
  let tp := t + 1 + length ew in
  j < 50 ->
  (forall i, i < j -> showsSentinel (logsOrEmpty checkProc (tp + 2 * i)) = false) ->
  showsSentinel (logsOrEmpty checkProc (tp + 2 * j)) = true ->
  let out := stdout (logsOrEmpty checkProc (tp + 2 * j)) in
  verifySource sb t
  = (Ok (if Js.includes "__MISSING__" out then Some Sync.missingResult
         else if Js.includes "__WORKSPACE_REMOTE_NONEMPTY__" out
                 && Js.includes "__WORKSPACE_LOCAL_EMPTY__" out
              then Some Sync.localEmptyResult
              else None),
     EStart verifyCmd :: ew
     ++ verifyRounds (procId checkProc) j ++ [EGetLogs (procId checkProc)]).
Proof.
  intros Hstart Hwait tp Hj Hbefore Hat out. unfold Sync.verifySource.
  apply catch_ok.
  rewrite (bind_ok _ _ t checkProc [EStart verifyCmd])
    by (rewrite start_run, Hstart; reflexivity).
  cbn [length]. rewrite (bind_ok _ _ _ _ _ Hwait).
  rewrite (bind_ok _ _ _ _ _
             (pollVerifyLogs_first_sentinel checkProc 50 j EmptyString EmptyString
                tp Hj Hbefore Hat)).
  cbn [fst snd]. fold out. unfold Sync.judgeVerify.
  unfold showsSentinel in Hat. fold out in Hat.
  destruct (Js.includes "__MISSING__" out).
  - run_done.
  - destruct (_ && _); [run_done|].
    rewrite orb_false_r in Hat. rewrite Hat. cbn [negb]. run_done.
Qed.

(** X13. The source verification gives up after 50 rounds.  If none of the
    50 log polls shows [__OK__] or [__MISSING__] (and the last output does
    not trigger the workspace guard), [verifySource] has slept 50 times 100 ms
    and reports [Failed to verify source files], with the time-out message
    built from the status of the process and the last output. *)
Theorem verifySource_gives_up
    (sb : Sandbox) (t : nat) (checkProc : Process) (ew : list Event) :
  startProcess sb t verifyCmd = Resolved checkProc ->
  waitBestEffort checkProc 10000 200 (t + 1) = (Ok tt, ew) ->
  let tp := t + 1 + length ew in
  (forall i, i < 50 -> showsSentinel (logsOrEmpty checkProc (tp + 2 * i)) = false) ->
  let last := logsOrEmpty checkProc (tp + 98) in
  Js.includes "__WORKSPACE_REMOTE_NONEMPTY__" (stdout last)
  && Js.includes "__WORKSPACE_LOCAL_EMPTY__" (stdout last) = false ->
  verifySource sb t
  = (Ok (Some (Sync.failure "Failed to verify source files"
           (Some ("Timed out waiting for source verification output (status="
                  ++ status checkProc (tp + 100)
                  ++ "). stdout=" ++ Js.jsonStringify (Js.trim (stdout last))
                  ++ " stderr=" ++ Js.jsonStringify (Js.trim (stderr last)))%string))),
     EStart verifyCmd :: ew ++ verifyRounds (procId checkProc) 50).
Proof.
  intros Hstart Hwait tp Hnone last Hguard. unfold Sync.verifySource.
  pose proof (pollVerifyLogs_no_sentinel checkProc 49 EmptyString EmptyString
                tp Hnone) as Hpoll.
  change (tp + 2 * 49) with (tp + 98) in Hpoll. fold last in Hpoll.
  pose proof (Hnone 49 ltac:(lia)) as Hlast.
  change (tp + 2 * 49) with (tp + 98) in Hlast. fold last in Hlast.
  unfold showsSentinel in Hlast. apply orb_false_iff in Hlast.
  destruct Hlast as [Hok Hmissing].
  assert ((checkProc <- start sb verifyCmd ;;
           waitBestEffort checkProc 10000 200 ;;
           polled <- Sync.pollVerifyLogs checkProc 50 EmptyString EmptyString ;;
           Sync.judgeVerify checkProc (fst polled) (snd polled)) t
          = (Throw (VerifyTimeout (status checkProc (tp + 100))
                      (Js.trim (stdout last)) (Js.trim (stderr last))),
             EStart verifyCmd :: ew ++ verifyRounds (procId checkProc) 50))
    as Hbody.
  { rewrite (bind_ok _ _ t checkProc [EStart verifyCmd])
      by (rewrite start_run, Hstart; reflexivity).
    cbn [length]. rewrite (bind_ok _ _ _ _ _ Hwait).
    rewrite (bind_ok _ _ _ _ _ Hpoll).
    cbn [fst snd]. unfold Sync.judgeVerify.
    rewrite Hmissing, Hguard, Hok. cbn [negb].
    unfold bind, now, throw. cbn [fst snd length app].
    rewrite verifyRounds_length, !app_nil_r. reflexivity. }
  rewrite (catch_throw _ _ _ _ _ Hbody). unfold ret. cbn [fst snd message].
  rewrite app_nil_r. reflexivity.
Qed.

(** *** A copy pass that does not settle *)

Lemma bestEffortKill_attempt proc t :
  Sync.bestEffortKill proc t = (Ok tt, killAttempt proc).
Proof.
  unfold Sync.bestEffortKill, killAttempt. destruct (kill proc) as [k|].
  - unfold catch, await, ret. destruct (k t) as [[]|]; reflexivity.
  - reflexivity.
Qed.

Lemma waitOrKill_hung proc t :
  (forall j, j <= 1200 -> Utils.active (status proc (t + j)) = true) ->
  Sync.waitOrKill proc t
  = (Throw (TimeoutError 600000 (status proc (t + 1200))),
     repeat (ESleep 500) 1200 ++ EGetLogs (procId proc) :: killAttempt proc).
Proof.
  intros Hactive. destruct callSite_sync as [Hp Hfuel].
  pose proof (wait_after_steps callFuel proc _ _ Hp Hfuel t 1200
                ltac:(vm_compute; lia) (fun j Hj => Hactive j ltac:(lia))
                (or_introl eq_refl)) as Hwait.
  rewrite (Hactive 1200 (le_n _)) in Hwait.
  unfold Sync.waitOrKill. rewrite (catch_throw _ _ _ _ _ Hwait).
  rewrite repeat_length.
  rewrite (bind_ok _ _ _ _ _ (fetchLogsOrEmpty_run proc (t + 1200))).
  rewrite (bind_ok _ _ _ _ _ (bestEffortKill_attempt proc _)).
  unfold throw. cbn [fst snd app]. rewrite app_nil_r. reflexivity.
Qed.

(** X14. A copy pass that is still [starting] or [running] at each of the
    1201 observations of its wait (every 500 ms for ten minutes) is given up:
    its logs are fetched, one kill is attempted if the handle can be killed,
    and the time-out of the wait is raised again, even when the log fetch or
    the kill is rejected. *)
Theorem waitOrKill_kills_hung_copy (proc : Process) (t : nat) :
  (forall j, j <= 1200 -> Utils.active (status proc (t + j)) = true) ->
  Sync.waitOrKill proc t
  = (Throw (TimeoutError 600000 (status proc (t + 1200))),
     repeat (ESleep 500) 1200 ++ EGetLogs (procId proc) :: killAttempt proc)
  /\ message (TimeoutError 600000 (status proc (t + 1200)))
     = ("Process timed out after 600000ms (status="
        ++ status proc (t + 1200) ++ ")")%string.
Proof.
  intros Hactive. split; [apply waitOrKill_hung, Hactive | reflexivity].
Qed.

(** X15. A first copy pass that never settles ends the replication: after
    the ten minutes of polling, the log fetch and the kill attempt, no other
    process is started, and [replicate] returns the failure [Sync error] with
    the time-out message. *)
Theorem replicate_hung_first_pass (sb : Sandbox) (t : nat) (proc : Process) :
  startProcess sb t syncOpenclawCmd = Resolved proc ->
  (forall j, j <= 1200 -> Utils.active (status proc (t + 1 + j)) = true) ->
  replicate sb t
  = (Ok (Sync.failure "Sync error"
           (Some ("Process timed out after 600000ms (status="
                  ++ status proc (t + 1 + 1200) ++ ")")%string)),
     EStart syncOpenclawCmd
     :: repeat (ESleep 500) 1200 ++ EGetLogs (procId proc) :: killAttempt proc).
Proof.
  intros Hstart Hactive.
  change (replicate sb)
    with (catch (replicateBody R2_MOUNT_PATH sb)
            (fun err => ret (Sync.failure "Sync error" (Some (message err))))).
  assert (replicateBody R2_MOUNT_PATH sb t
          = (Throw (TimeoutError 600000 (status proc (t + 1 + 1200))),
             EStart syncOpenclawCmd
             :: repeat (ESleep 500) 1200
             ++ EGetLogs (procId proc) :: killAttempt proc)) as Hbody.
  { unfold Stages.replicateBody, copyPass.
    rewrite (bind_ok _ _ t proc [EStart syncOpenclawCmd])
      by (rewrite start_run, Hstart; reflexivity).
    cbn [length fst snd].
    rewrite (bind_throw _ _ _ _ _ (waitOrKill_hung proc (t + 1) Hactive)).
    reflexivity. }
  rewrite (catch_throw _ _ _ _ _ Hbody). unfold ret. cbn [fst snd].
  rewrite app_nil_r. reflexivity.
Qed.

(** *** The unverified marker *)

(** X16. When the marker stage returns a failure, the marker was not
    verified: the result is [Sync failed] without [lastSync], and the
    diagnostics were gathered, the logs of the first copy pass fetched and
    the diagnostic command started. *)
Theorem writeAndVerifyMarker_unverified
    (sb : Sandbox) (proc : Process) (t : nat)
    (res : Sync.SyncResult) (evs : list Event) :
  writeAndVerifyMarker sb proc t = (Ok res, evs) ->
  Sync.success res = false ->
  Sync.error res = Some "Sync failed"
  /\ Sync.lastSync res = None
  /\ In (EGetLogs (procId proc)) evs
  /\ In diagCmd (started evs).
Proof.
  unfold Sync.writeAndVerifyMarker. intros H Hfail.
  apply bind_inv_ok in H as (writeProc & e1 & e1' & _ & H & ->).
  apply bind_inv_ok in H as ([] & e2 & e2' & _ & H & ->).
  apply bind_inv_ok in H as (timestampProc & e3 & e3' & _ & H & ->).
  apply bind_inv_ok in H as ([] & e4 & e4' & _ & H & ->).
  apply bind_inv_ok in H as (logs & e5 & e5' & _ & H & ->).
  assert (markerUnverified sb proc
            (t + length e1 + length e2 + length e3 + length e4 + length e5)
          = (Ok res, e5')) as Hdiag.
  { destruct (Sync.lastSyncOf _) as [ls|]; [|exact H].
    destruct (Js.matchesDatePrefix ls); [|exact H].
    injection H as <- _. discriminate Hfail. }
  clear H. unfold Sync.markerUnverified in Hdiag.
  apply bind_inv_ok in Hdiag as (rsyncLogs & d1 & d1' & Hl & H & ->).
  apply fetchLogs_inv_ok in Hl as [_ ->].
  apply bind_inv_ok in H as (diagProc & d2 & d2' & Hs & H & ->).
  apply start_inv_ok in Hs as [_ ->].
  apply bind_inv_ok in H as ([] & d3 & d3' & _ & H & ->).
  apply bind_inv_ok in H as (diagLogs & d4 & d4' & _ & H & ->).
  injection H as <- _.
  split; [reflexivity|]. split; [reflexivity|]. split.
  - rewrite !in_app_iff. do 5 right. left. left. reflexivity.
  - apply in_started. rewrite !in_app_iff. do 5 right. right. left. left.
    reflexivity.
Qed.

(** *** The failed mount *)

(** X17. A refused mount ends the sync at once.  With the credentials
    present, a probe that finds no mount and a [mountBucket] call rejected
    for a reason other than a path conflict, [syncToR2] returns [Failed to
    mount R2 storage] after the probe and that single mount call: no process
    listing, no verification, no copy pass. *)
Theorem syncToR2_failed_mount
    (sb : Sandbox) (env : OpenClawEnv) (c : Credentials) (t : nat)
    (fs : string) (e0 : list Event) (err : Error) :
  credentials env = Some c ->
  R2.probeMount R2_MOUNT_PATH sb t = (Ok (R2.NotMounted fs), e0) ->
  mountBucket sb (t + length e0) R2_BUCKET_NAME R2_MOUNT_PATH (R2.mountOptions c)
  = Rejected err ->
  R2.isMountPathInUseError (message err) = false ->
  syncToR2 sb env t
  = (Ok (Sync.failure "Failed to mount R2 storage" None),
     e0 ++ [R2.mountEvent R2_MOUNT_PATH R2_BUCKET_NAME c]).
Proof.
  intros Hc Hprobe Hmount Hconflict.
  assert (mountR2Storage sb env t
          = (Ok false, e0 ++ [R2.mountEvent R2_MOUNT_PATH R2_BUCKET_NAME c]))
    as Hm.
  { rewrite (mountR2Storage_after_probe R2_MOUNT_PATH R2_BUCKET_NAME
               sb env c t _ _ Hc Hprobe).
    cbv zeta. cbn [R2.recoverIfUnresponsive].
    rewrite (bind_ok (ret tt) _ (t + length e0) tt []) by reflexivity.
    cbn [length app]. rewrite Nat.add_0_r.
    rewrite first_mount_attempt, Hmount.
    unfold R2.onMountError. rewrite Hconflict. reflexivity. }
  unfold Sync.syncToR2. rewrite Hc, (bind_ok _ _ _ _ _ Hm). cbn [negb].
  run_done.
Qed.

End MoreExtras.

(** X18. [isMountPathInUseError] recognises the conflict by three fragments
    of the message, each occurring somewhere in it, in any order and without
    regard to the rest of the text. *)
Theorem isMountPathInUseError_iff (errorMessage : string) :
  R2.isMountPathInUseError errorMessage = true
  <-> occurs "InvalidMountConfigError" errorMessage
      /\ occurs "Mount path" errorMessage
      /\ occurs "already in use" errorMessage.
Proof.
  unfold R2.isMountPathInUseError.
  rewrite !andb_true_iff, !includes_occurs. tauto.
Qed.

Lemma isMountPathInUseError_iff_witness :
  R2.isMountPathInUseError conflictMessage = true.
Proof.
  apply isMountPathInUseError_iff. split; [|split].
  - exists EmptyString, ": Mount path /data/openclaw is already in use".
    reflexivity.
  - exists "InvalidMountConfigError: ", " /data/openclaw is already in use".
    reflexivity.
  - exists "InvalidMountConfigError: Mount path /data/openclaw is ", EmptyString.
    reflexivity.
Defined.

Lemma verifySource_verdict_on_sentinel_witness :
  Sync.verifySource examplePath wipedSandbox 0
  = (Ok (Some Sync.missingResult),
     [EStart (Sync.verifyCmd examplePath); EGetLogs "proc"]).
Proof.
  apply (verifySource_verdict_on_sentinel examplePath wipedSandbox 0
           (done wipedOutput) [] 0).
  - reflexivity.
  - reflexivity.
  - lia.
  - intros i Hi. lia.
  - reflexivity.
Defined.

Lemma verifySource_gives_up_witness :
  Sync.verifySource examplePath mountedSandbox 0
  = (Ok (Some (Sync.failure "Failed to verify source files"
           (Some ("Timed out waiting for source verification output (status="
                  ++ "completed" ++ "). stdout=" ++ Js.jsonStringify EmptyString
                  ++ " stderr=" ++ Js.jsonStringify EmptyString)%string))),
     EStart (Sync.verifyCmd examplePath) :: verifyRounds "proc" 50).
Proof.
  apply (verifySource_gives_up examplePath mountedSandbox 0 (done EmptyString) []).
  - reflexivity.
  - reflexivity.
  - intros i Hi. reflexivity.
  - reflexivity.
Defined.

Lemma waitOrKill_kills_hung_copy_witness :
  Sync.waitOrKill hungRsync 0
  = (Throw (TimeoutError 600000 "running"),
     repeat (ESleep 500) 1200 ++ [EGetLogs "rsync-1"; EKill "rsync-1"]).
Proof.
  apply (waitOrKill_kills_hung_copy hungRsync 0).
  intros j Hj. reflexivity.
Defined.

Lemma replicate_hung_first_pass_witness :
  Sync.replicate examplePath hungCopySandbox 0
  = (Ok (Sync.failure "Sync error"
           (Some "Process timed out after 600000ms (status=running)")),
     EStart (Sync.syncOpenclawCmd examplePath)
     :: repeat (ESleep 500) 1200 ++ [EGetLogs "rsync-1"; EKill "rsync-1"]).
Proof.
  apply (replicate_hung_first_pass examplePath hungCopySandbox 0 hungRsync).
  - reflexivity.
  - intros j Hj. reflexivity.
Defined.

Lemma writeAndVerifyMarker_unverified_witness :
  In (Sync.diagCmd examplePath)
     (started (snd (Sync.writeAndVerifyMarker examplePath markerlessSandbox
                      (done EmptyString) 0))).
Proof.
  apply (writeAndVerifyMarker_unverified examplePath markerlessSandbox
           (done EmptyString) 0
           (Sync.failure "Sync failed" (Some "No timestamp file created"))).
  - vm_compute. reflexivity.
  - reflexivity.
Defined.

Lemma syncToR2_failed_mount_witness :
  Sync.syncToR2 examplePath exampleBucket unmountableSandbox exampleEnv 0
  = (Ok (Sync.failure "Failed to mount R2 storage" None),
     [EStart (R2.probeCmd examplePath); EGetLogs "proc";
      R2.mountEvent examplePath exampleBucket exampleCredentials]).
Proof.
  apply (syncToR2_failed_mount examplePath exampleBucket unmountableSandbox
           exampleEnv exampleCredentials 0 "__ERR__"
           [EStart (R2.probeCmd examplePath); EGetLogs "proc"]
           (SandboxError "Mount failed")).
  - reflexivity.
  - reflexivity.
  - reflexivity.
  - reflexivity.
Defined.

(** ** The successful run *)

Section SuccessPath.

Variables (R2_MOUNT_PATH R2_BUCKET_NAME : string).

#[local] Abbreviation mountR2Storage :=
  (R2.mountR2Storage R2_MOUNT_PATH R2_BUCKET_NAME).
#[local] Abbreviation checkForActiveRsync :=
  (Sync.checkForActiveRsync R2_MOUNT_PATH).
#[local] Abbreviation verifySource := (Sync.verifySource R2_MOUNT_PATH).
#[local] Abbreviation syncOpenclawCmd := (Sync.syncOpenclawCmd R2_MOUNT_PATH).
#[local] Abbreviation syncWorkspaceCmd := (Sync.syncWorkspaceCmd R2_MOUNT_PATH).
#[local] Abbreviation syncSkillsCmd := (Sync.syncSkillsCmd R2_MOUNT_PATH).
#[local] Abbreviation writeTimestampCmd := (Sync.writeTimestampCmd R2_MOUNT_PATH).
#[local] Abbreviation readTimestampCmd := (Sync.readTimestampCmd R2_MOUNT_PATH).
#[local] Abbreviation writeAndVerifyMarker :=
  (Sync.writeAndVerifyMarker R2_MOUNT_PATH).
#[local] Abbreviation replicate := (Sync.replicate R2_MOUNT_PATH).
#[local] Abbreviation syncToR2 := (Sync.syncToR2 R2_MOUNT_PATH R2_BUCKET_NAME).

(** A copy pass that settles without a failure hands over to what follows. *)
Lemma copyPass_passes sb cmd which next t proc w :
  startProcess sb t cmd = Resolved proc ->
  Sync.waitOrKill proc (t + 1) = (Ok tt, w) ->
  Sync.rsyncFailed proc (t + 1 + length w) = false ->
  copyPass sb cmd which next t
  = (fst (next proc (t + 1 + length w)),
     EStart cmd :: w ++ snd (next proc (t + 1 + length w))).
Proof.
  intros Hstart Hwait Hok. unfold copyPass.
  rewrite (bind_ok _ _ t proc [EStart cmd])
    by (rewrite start_run, Hstart; reflexivity).
  cbn [length]. rewrite (bind_ok _ _ _ _ _ Hwait).
  pose proof (ensureRsyncSuccess_run proc which (t + 1 + length w)) as Hcheck.
  rewrite Hok in Hcheck. rewrite (bind_ok _ _ _ _ _ Hcheck).
  cbn [fst snd length app]. rewrite Nat.add_0_r. reflexivity.
Qed.

Lemma lastSyncOf_date ls :
  Js.matchesDatePrefix ls = true -> Sync.lastSyncOf ls = Some ls.
Proof.
  intros H. unfold Sync.lastSyncOf.
  destruct ls as [|c ls]; [discriminate H|]. cbn [Js.truthy andb].
  destruct (String c ls =? "__MISSING__")%string eqn:E; [|reflexivity].
  apply String.eqb_eq in E. rewrite E in H. discriminate H.
Qed.

(** The marker stage on a marker that reads back like a date. *)
Lemma writeAndVerifyMarker_verifies sb proc t writeProc w4 timestampProc w5 logs :
  startProcess sb t writeTimestampCmd = Resolved writeProc ->
  Utils.waitForProcess callFuel writeProc 15000 Utils.defaultPollIntervalMs (t + 1)
  = (Ok tt, w4) ->
  startProcess sb (t + 1 + length w4) readTimestampCmd = Resolved timestampProc ->
  Utils.waitForProcess callFuel timestampProc 15000 Utils.defaultPollIntervalMs
    (t + 1 + length w4 + 1)
  = (Ok tt, w5) ->
  getLogs timestampProc (t + 1 + length w4 + 1 + length w5) = Resolved logs ->
  Js.matchesDatePrefix (Js.trim (stdout logs)) = true ->
  writeAndVerifyMarker sb proc t
  = (Ok (Sync.mkResult true (Some (Js.trim (stdout logs))) None None),
     EStart writeTimestampCmd :: w4
     ++ EStart readTimestampCmd :: w5 ++ [EGetLogs (procId timestampProc)]).
Proof.
  intros Hw Hww Hr Hrw Hlogs Hdate. unfold Sync.writeAndVerifyMarker.
  rewrite (bind_ok _ _ t writeProc [EStart writeTimestampCmd])
    by (rewrite start_run, Hw; reflexivity).
  cbn [length]. rewrite (bind_ok _ _ _ _ _ Hww).
  rewrite (bind_ok _ _ _ timestampProc [EStart readTimestampCmd])
    by (rewrite start_run, Hr; reflexivity).
  cbn [length]. rewrite (bind_ok _ _ _ _ _ Hrw).
  rewrite (bind_ok _ _ _ logs [EGetLogs (procId timestampProc)])
    by (unfold fetchLogs, await; rewrite Hlogs; reflexivity).
  rewrite (lastSyncOf_date _ Hdate), Hdate. unfold ret.
  cbn [fst snd app]. reflexivity.
Qed.

(** X19. The successful run.  With the credentials present, the bucket
    mounted, no active copy found and the source verified, let each of the
    three copy passes be started, settle within its wait and show neither
    the status [failed] nor a non-zero exit code; let the marker write and
    the marker read-back be started and settle, and the text read back
    start like a date.  Then [syncToR2] returns a success whose [lastSync]
    is that text, trimmed, after exactly these interactions, in this
    order. *)
Theorem syncToR2_succeeds
    (sb : Sandbox) (env : OpenClawEnv) (c : Credentials) (t : nat)
    (e0 e1 e2 w1 w2 w3 w4 w5 : list Event) (d : option string)
    (p1 p2 p3 writeProc timestampProc : Process) (logs : Logs) :
  credentials env = Some c ->
  mountR2Storage sb env t = (Ok true, e0) ->
  checkForActiveRsync sb (t + length e0) = (Ok (false, d), e1) ->
  verifySource sb (t + length e0 + length e1) = (Ok None, e2) ->
  let t1 := t + length e0 + length e1 + length e2 in
  startProcess sb t1 syncOpenclawCmd = Resolved p1 ->
  Sync.waitOrKill p1 (t1 + 1) = (Ok tt, w1) ->
  Sync.rsyncFailed p1 (t1 + 1 + length w1) = false ->
  let t2 := t1 + 1 + length w1 in
  startProcess sb t2 syncWorkspaceCmd = Resolved p2 ->
  Sync.waitOrKill p2 (t2 + 1) = (Ok tt, w2) ->
  Sync.rsyncFailed p2 (t2 + 1 + length w2) = false ->
  let t3 := t2 + 1 + length w2 in
  startProcess sb t3 syncSkillsCmd = Resolved p3 ->
  Sync.waitOrKill p3 (t3 + 1) = (Ok tt, w3) ->
  Sync.rsyncFailed p3 (t3 + 1 + length w3) = false ->
  let t4 := t3 + 1 + length w3 in
  startProcess sb t4 writeTimestampCmd = Resolved writeProc ->
  Utils.waitForProcess callFuel writeProc 15000 Utils.defaultPollIntervalMs (t4 + 1)
  = (Ok tt, w4) ->
  let t5 := t4 + 1 + length w4 in
  startProcess sb t5 readTimestampCmd = Resolved timestampProc ->
  Utils.waitForProcess callFuel timestampProc 15000 Utils.defaultPollIntervalMs
    (t5 + 1)
  = (Ok tt, w5) ->
  getLogs timestampProc (t5 + 1 + length w5) = Resolved logs ->
  Js.matchesDatePrefix (Js.trim (stdout logs)) = true ->
  syncToR2 sb env t
  = (Ok (Sync.mkResult true (Some (Js.trim (stdout logs))) None None),
     e0 ++ e1 ++ e2
     ++ EStart syncOpenclawCmd :: w1
     ++ EStart syncWorkspaceCmd :: w2
     ++ EStart syncSkillsCmd :: w3
     ++ EStart writeTimestampCmd :: w4
     ++ EStart readTimestampCmd :: w5 ++ [EGetLogs (procId timestampProc)]).
Proof.
  intros Hc Hm Hd Hv t1 Hs1 Hw1 Hf1 t2 Hs2 Hw2 Hf2 t3 Hs3 Hw3 Hf3
    t4 Hsw Hww t5 Hsr Hrw Hlogs Hdate.
  pose proof (writeAndVerifyMarker_verifies sb p1 t4 writeProc w4 timestampProc
                w5 logs Hsw Hww Hsr Hrw Hlogs Hdate) as Hmarker.
  assert (replicate sb t1
          = (Ok (Sync.mkResult true (Some (Js.trim (stdout logs))) None None),
             EStart syncOpenclawCmd :: w1
             ++ EStart syncWorkspaceCmd :: w2
             ++ EStart syncSkillsCmd :: w3
             ++ EStart writeTimestampCmd :: w4
             ++ EStart readTimestampCmd :: w5
             ++ [EGetLogs (procId timestampProc)])) as Hrep.
  { change (replicate sb)
      with (catch (replicateBody R2_MOUNT_PATH sb)
              (fun err => ret (Sync.failure "Sync error" (Some (message err))))).
    apply catch_ok. unfold Stages.replicateBody.
    rewrite (copyPass_passes sb _ _ _ t1 p1 w1 Hs1 Hw1 Hf1). fold t2.
    rewrite (copyPass_passes sb _ _ _ t2 p2 w2 Hs2 Hw2 Hf2). fold t3.
    rewrite (copyPass_passes sb _ _ _ t3 p3 w3 Hs3 Hw3 Hf3). fold t4.
    rewrite Hmarker. reflexivity. }
  unfold Sync.syncToR2. rewrite Hc.
  rewrite (bind_ok _ _ _ _ _ Hm). cbn [negb].
  rewrite (bind_ok _ _ _ _ _ Hd). cbn [fst snd].
  rewrite (bind_ok _ _ _ _ _ Hv). fold t1. rewrite Hrep. reflexivity.
Qed.

Lemma bind_first_event {A B} (m : M A) (f : A -> M B) t ev rest :
  snd (m t) = ev :: rest -> exists rest', snd (bind m f t) = ev :: rest'.
Proof.
  intros H. destruct (bind_events m f t) as [E | (a & _ & E)]; rewrite E.
  - rewrite H. eauto.
  - cbn [snd]. rewrite H. eexists. reflexivity.
Qed.

Lemma credentials_none env :
  credentials env = None ->
  absent (R2_ACCESS_KEY_ID env) \/ absent (R2_SECRET_ACCESS_KEY env)
  \/ absent (CF_ACCOUNT_ID env).
Proof.
  unfold credentials, absent.
  destruct (R2_ACCESS_KEY_ID env) as [[|? ?]|], (R2_SECRET_ACCESS_KEY env) as [[|? ?]|],
    (CF_ACCOUNT_ID env) as [[|? ?]|]; cbn; intros H; try discriminate H; auto.
Qed.

(** X20. [mountR2Storage] returns [false] without any interaction with the
    sandbox exactly when one of the three required bindings is missing or
    empty; with the three present its first interaction is the start of the
    probe. *)
Theorem mountR2Storage_unconfigured_iff
    (sb : Sandbox) (env : OpenClawEnv) (t : nat) :
  (mountR2Storage sb env t = (Ok false, [])
   <-> absent (R2_ACCESS_KEY_ID env) \/ absent (R2_SECRET_ACCESS_KEY env)
       \/ absent (CF_ACCOUNT_ID env))
  /\ (credentials env <> None ->
      exists rest,
        snd (mountR2Storage sb env t)
        = EStart (R2.probeCmd R2_MOUNT_PATH) :: rest).
Proof.
  assert (credentials env <> None ->
          exists rest,
            snd (mountR2Storage sb env t)
            = EStart (R2.probeCmd R2_MOUNT_PATH) :: rest) as Hfirst.
  { unfold R2.mountR2Storage. destruct (credentials env) as [c|]; [intros _|tauto].
    assert (exists rest0,
              snd (R2.probeMount R2_MOUNT_PATH sb t)
              = EStart (R2.probeCmd R2_MOUNT_PATH) :: rest0) as (rest0 & H0).
    { unfold R2.probeMount.
      apply (bind_first_event _ _ t (EStart (R2.probeCmd R2_MOUNT_PATH)) []).
      rewrite start_run. destruct (startProcess sb t _); reflexivity. }
    exact (bind_first_event _ _ t _ rest0 H0). }
  split; [|exact Hfirst]. split.
  - intros Hrun. destruct (credentials env) as [c|] eqn:Hc.
    + destruct Hfirst as (rest & Hrest); [discriminate|].
      rewrite Hrun in Hrest. discriminate Hrest.
    + apply credentials_none, Hc.
  - intros Habs. unfold R2.mountR2Storage.
    rewrite (credentials_absent env Habs). reflexivity.
Qed.

End SuccessPath.

Lemma syncToR2_succeeds_witness :
  Sync.syncToR2 examplePath exampleBucket happySandbox exampleEnv 0
  = (Ok (Sync.mkResult true (Some "2026-01-27T12:00:00+00:00") None None),
     [ EStart (R2.probeCmd examplePath); EGetLogs "proc"; EList;
       EStart (Sync.verifyCmd examplePath); EGetLogs "proc";
       EStart (Sync.syncOpenclawCmd examplePath);
       EStart (Sync.syncWorkspaceCmd examplePath);
       EStart (Sync.syncSkillsCmd examplePath);
       EStart (Sync.writeTimestampCmd examplePath);
       EStart (Sync.readTimestampCmd examplePath); EGetLogs "proc" ]).
Proof.
  apply (syncToR2_succeeds examplePath exampleBucket happySandbox exampleEnv
           exampleCredentials 0
           [EStart (R2.probeCmd examplePath); EGetLogs "proc"] [EList]
           [EStart (Sync.verifyCmd examplePath); EGetLogs "proc"]
           [] [] [] [] [] None
           (done EmptyString) (done EmptyString) (done EmptyString)
           (done EmptyString) (done "2026-01-27T12:00:00+00:00")
           (mkLogs "2026-01-27T12:00:00+00:00" EmptyString));
    vm_compute; reflexivity.
Defined.

Lemma mountR2Storage_unconfigured_iff_witness :
  R2.mountR2Storage examplePath exampleBucket happySandbox
    (mkEnv (Some "key-id") (Some EmptyString) (Some "account")) 0
  = (Ok false, []).
Proof.
  apply (mountR2Storage_unconfigured_iff examplePath exampleBucket happySandbox
           (mkEnv (Some "key-id") (Some EmptyString) (Some "account")) 0).
  right. left. right. reflexivity.
Defined.

(** ** Kills *)

Lemma killsOf_app a b : killsOf (a ++ b) = (killsOf a + killsOf b)%Z.
Proof. apply weigh_app. Qed.

Lemma killsOf_nonneg evs : (0 <= killsOf evs)%Z.
Proof.
  apply weigh_nonneg, price_nonneg. cbv. intuition discriminate.
Qed.

Lemma killsOf_sleeps ms k : killsOf (repeat (ESleep ms) k) = 0%Z.
Proof. unfold killsOf. rewrite weigh_repeat. cbn. lia. Qed.

(** A computation that never kills. *)
Lemma killfree_within {A} (m : M A) :
  Within (price (mkRates 0 0 0 0 1 0)) 0 m -> forall t, killsOf (snd (m t)) = 0%Z.
Proof.
  intros H t. pose proof (H t). pose proof (killsOf_nonneg (snd (m t))).
  unfold killsOf in *. lia.
Qed.

Lemma killsLast_free {A} (m : M A) t :
  killsOf (snd (m t)) = 0%Z -> killsLast (m t).
Proof. intros H. left. exact H. Qed.

Lemma killsLast_bind {A B} (m : M A) (f : A -> M B) t :
  killsLast (m t) -> (forall a t', killsLast (f a t')) -> killsLast (bind m f t).
Proof.
  intros Hm Hf. unfold bind. destruct (m t) as [[a | e |] e1] eqn:E.
  - destruct Hm as [H0 | (pre & id & e & _ & _ & H)]; [|discriminate H].
    cbn [snd] in H0. specialize (Hf a (t + length e1)).
    destruct (f a (t + length e1)) as [r e2].
    unfold killsLast.
    destruct Hf as [H2 | (pre & id & e & Hev & Hpre & Hr)]; cbn [fst snd] in *.
    + left. rewrite killsOf_app. lia.
    + right. exists (e1 ++ pre), id, e. subst e2.
      rewrite killsOf_app, app_assoc. repeat split; [lia | exact Hr].
  - destruct Hm as [H0 | (pre & id & e' & Hev & Hpre & Hr)]; cbn [fst snd] in *.
    + left. exact H0.
    + right. exists pre, id, e. injection Hr as ->. auto.
  - destruct Hm as [H0 | (pre & id & e' & _ & _ & Hr)]; [|discriminate Hr].
    left. exact H0.
Qed.

Lemma waitOrKill_cases proc t :
  exists k,
    Sync.waitOrKill proc t = (Ok tt, repeat (ESleep Utils.defaultPollIntervalMs) k)
    \/ exists e,
        Sync.waitOrKill proc t
        = (Throw e,
           repeat (ESleep Utils.defaultPollIntervalMs) k
           ++ EGetLogs (procId proc) :: killAttempt proc).
Proof.
  destruct callSite_sync as [Hp Hfuel].
  destruct (first_settle (fun j => Utils.active (status proc (t + j)))
              (Utils.polls Sync.DEFAULT_SYNC_TIMEOUT_MS Utils.defaultPollIntervalMs))
    as (k & Hk & Hbefore & Hend).
  exists k.
  pose proof (wait_after_steps callFuel proc _ _ Hp Hfuel t k Hk Hbefore Hend)
    as Hwait.
  unfold Sync.waitOrKill.
  destruct (Utils.active (status proc (t + k))).
  - right. rewrite (catch_throw _ _ _ _ _ Hwait), repeat_length.
    rewrite (bind_ok _ _ _ _ _ (fetchLogsOrEmpty_run proc (t + k))).
    rewrite (bind_ok _ _ _ _ _ (bestEffortKill_attempt proc _)).
    unfold throw. cbn [fst snd app]. rewrite app_nil_r.
    eexists. reflexivity.
  - left. apply catch_ok. exact Hwait.
Qed.

Lemma killsLast_waitOrKill proc t : killsLast (Sync.waitOrKill proc t).
Proof.
  destruct (waitOrKill_cases proc t) as (k & [-> | (e & ->)]).
  - left. apply killsOf_sleeps.
  - unfold killAttempt. destruct (kill proc) as [kfun|].
    + right.
      exists (repeat (ESleep Utils.defaultPollIntervalMs) k
              ++ [EGetLogs (procId proc)]), (procId proc), e.
      cbn [fst snd]. rewrite <- app_assoc. split; [reflexivity|].
      split; [|reflexivity].
      rewrite killsOf_app, killsOf_sleeps. reflexivity.
    + left. cbn [snd]. rewrite killsOf_app, killsOf_sleeps. reflexivity.
Qed.

Section KillDiscipline.

Variables (R2_MOUNT_PATH R2_BUCKET_NAME : string).

#[local] Abbreviation replicateBody := (replicateBody R2_MOUNT_PATH).
#[local] Abbreviation replicate := (Sync.replicate R2_MOUNT_PATH).
#[local] Abbreviation syncToR2 := (Sync.syncToR2 R2_MOUNT_PATH R2_BUCKET_NAME).

Let killRates := mkRates 0 0 0 0 1 0.

Lemma fair_killRates : fairRates killRates.
Proof. cbv. intuition discriminate. Qed.

Lemma killsLast_copyPass sb cmd which next t :
  (forall proc t', killsLast (next proc t')) ->
  killsLast (copyPass sb cmd which next t).
Proof.
  intros Hnext. unfold copyPass.
  apply killsLast_bind.
  { apply killsLast_free.
    apply (killfree_within _ (within_start killRates sb cmd)). }
  intros proc t1. apply killsLast_bind; [apply killsLast_waitOrKill|].
  intros _ t2. apply killsLast_bind.
  { apply killsLast_free.
    apply (killfree_within _ (within_ensureRsyncSuccess killRates fair_killRates
                                proc which)). }
  intros [res|] t3; [left; reflexivity | apply Hnext].
Qed.

Lemma killsLast_replicateBody sb t : killsLast (replicateBody sb t).
Proof.
  unfold Stages.replicateBody.
  apply killsLast_copyPass. intros proc t1.
  apply killsLast_copyPass. intros _ t2.
  apply killsLast_copyPass. intros _ t3.
  apply killsLast_free.
  apply (killfree_within _ (within_writeAndVerifyMarker R2_MOUNT_PATH killRates
                              fair_killRates sb proc)).
Qed.

(** The replication kills at most once, as its last interaction, and then
    reports [Sync error]. *)
Lemma replicate_kills sb t :
  killsOf (snd (replicate sb t)) = 0%Z
  \/ exists pre id d,
      snd (replicate sb t) = pre ++ [EKill id] /\ killsOf pre = 0%Z
      /\ fst (replicate sb t) = Ok (Sync.failure "Sync error" d).
Proof.
  destruct (replicate_run R2_MOUNT_PATH sb t) as [Hev Hres].
  destruct (killsLast_replicateBody sb t) as [H0 | (pre & id & e & H1 & H2 & H3)].
  - left. rewrite Hev. exact H0.
  - right. rewrite H3 in Hres. exists pre, id, (Some (message e)).
    rewrite Hev. auto.
Qed.

Lemma syncToR2_kills sb env t :
  killsOf (snd (syncToR2 sb env t)) = 0%Z
  \/ exists pre id d,
      snd (syncToR2 sb env t) = pre ++ [EKill id] /\ killsOf pre = 0%Z
      /\ fst (syncToR2 sb env t) = Ok (Sync.failure "Sync error" d).
Proof.
  unfold Sync.syncToR2. destruct (credentials env) as [c|]; [|left; reflexivity].
  pose proof (killfree_within _
                (within_mountR2Storage R2_MOUNT_PATH R2_BUCKET_NAME killRates
                   fair_killRates sb env) t) as K0.
  destruct (R2.mountR2Storage R2_MOUNT_PATH R2_BUCKET_NAME sb env t)
    as [[mounted | e |] e0] eqn:Hm; cbn [snd] in K0.
  2: { left. rewrite (bind_throw _ _ _ _ _ Hm). exact K0. }
  2: { left. rewrite (bind_out_of_fuel _ _ _ _ Hm). exact K0. }
  rewrite (bind_ok _ _ _ _ _ Hm).
  destruct (negb mounted).
  { left. cbn [fst snd]. unfold ret. cbn [snd]. rewrite app_nil_r. exact K0. }
  destruct (safe_checkForActiveRsync R2_MOUNT_PATH sb (t + length e0))
    as (activeRsync & Hd).
  pose proof (killfree_within _
                (within_checkForActiveRsync R2_MOUNT_PATH killRates
                   fair_killRates sb) (t + length e0)) as K1.
  destruct (Sync.checkForActiveRsync R2_MOUNT_PATH sb (t + length e0))
    as [r1 e1] eqn:Hc. cbn [fst snd] in Hd, K1. subst r1.
  rewrite (bind_ok _ _ _ _ _ Hc).
  destruct (fst activeRsync).
  { left. unfold ret. cbn [fst snd]. rewrite app_nil_r, killsOf_app. lia. }
  destruct (safe_verifySource R2_MOUNT_PATH sb (t + length e0 + length e1))
    as (verdict & Hv).
  pose proof (killfree_within _
                (within_verifySource R2_MOUNT_PATH killRates
                   fair_killRates sb) (t + length e0 + length e1)) as K2.
  destruct (Sync.verifySource R2_MOUNT_PATH sb (t + length e0 + length e1))
    as [r2 e2] eqn:Hver. cbn [fst snd] in Hv, K2. subst r2.
  rewrite (bind_ok _ _ _ _ _ Hver).
  destruct verdict as [res|].
  { left. unfold ret. cbn [fst snd]. rewrite app_nil_r, !killsOf_app. lia. }
  cbn [fst snd].
  destruct (replicate_kills sb (t + length e0 + length e1 + length e2))
    as [K3 | (pre & id & d & H1 & H2 & H3)].
  - left. rewrite !killsOf_app. lia.
  - right. exists (e0 ++ e1 ++ e2 ++ pre), id, d. rewrite H1, H3.
    rewrite !killsOf_app, <- !app_assoc. repeat split. lia.
Qed.

(** X21. [syncToR2] kills at most one process in a run, and only as its
    very last interaction, when it gives up on a copy pass: the run then
    returns the failure [Sync error].  A run that ends any other way has
    killed nothing. *)
Theorem syncToR2_kills_only_to_give_up
    (sb : Sandbox) (env : OpenClawEnv) (t : nat) :
  let run := syncToR2 sb env t in
  (killsOf (snd run) <= 1)%Z
  /\ forall pre id rest,
      snd run = pre ++ EKill id :: rest ->
      rest = []
      /\ killsOf pre = 0%Z
      /\ exists d, fst run = Ok (Sync.failure "Sync error" d).
Proof.
  cbv zeta.
  destruct (syncToR2_kills sb env t) as [H0 | (pre0 & id0 & d & H1 & H2 & H3)].
  - split; [lia|]. intros pre id rest Hev. exfalso.
    rewrite Hev, killsOf_app in H0.
    change (EKill id :: rest) with ([EKill id] ++ rest) in H0.
    rewrite killsOf_app in H0.
    pose proof (killsOf_nonneg pre). pose proof (killsOf_nonneg rest).
    change (killsOf [EKill id]) with 1%Z in H0. lia.
  - split.
    + rewrite H1, killsOf_app. change (killsOf [EKill id0]) with 1%Z. lia.
    + intros pre id rest Hev. rewrite H1 in Hev.
      assert (killsOf (pre ++ EKill id :: rest) = 1%Z) as Hone.
      { rewrite <- Hev, killsOf_app. change (killsOf [EKill id0]) with 1%Z. lia. }
      change (EKill id :: rest) with ([EKill id] ++ rest) in Hone.
      rewrite !killsOf_app in Hone. change (killsOf [EKill id]) with 1%Z in Hone.
      pose proof (killsOf_nonneg pre). pose proof (killsOf_nonneg rest).
      assert (rest = []) as ->.
      { destruct rest as [|ev rest] using rev_ind; [reflexivity|].
        exfalso.
        change (pre ++ EKill id :: rest ++ [ev])
          with (pre ++ (EKill id :: rest) ++ [ev]) in Hev.
        rewrite app_assoc in Hev.
        apply app_inj_tail in Hev. destruct Hev as [Hpre <-].
        rewrite killsOf_app in Hone. change (killsOf [EKill id0]) with 1%Z in Hone.
        pose proof (killsOf_nonneg rest). lia. }
      split; [reflexivity|]. split; [lia|]. exists d. exact H3.
Qed.

End KillDiscipline.

Lemma syncToR2_kills_only_to_give_up_witness :
  exists d,
    fst (Sync.syncToR2 examplePath exampleBucket hungCopySandbox exampleEnv 0)
    = Ok (Sync.failure "Sync error" d).
Proof.
  destruct (syncToR2_kills_only_to_give_up examplePath exampleBucket
              hungCopySandbox exampleEnv 0) as [_ H].
  apply (H ([EStart (R2.probeCmd examplePath); EGetLogs "proc"; EList;
             EStart (Sync.verifyCmd examplePath); EGetLogs "proc";
             EStart (Sync.syncOpenclawCmd examplePath)]
            ++ repeat (ESleep 500) 1200 ++ [EGetLogs "rsync-1"])
           "rsync-1" []).
  vm_compute. reflexivity.
Defined.

(** ** Copy passes that do not settle *)

(** The wait of a copy pass, with the number of polls, the error and the
    interactions of the branch that stops waiting. *)
Lemma waitOrKill_precise proc t :
  exists k,
    (Utils.active (status proc (t + k)) = false
     /\ Sync.waitOrKill proc t
        = (Ok tt, repeat (ESleep Utils.defaultPollIntervalMs) k))
    \/ (Utils.active (status proc (t + k)) = true
        /\ k = 1200
        /\ Sync.waitOrKill proc t
           = (Throw (TimeoutError 600000 (status proc (t + k))),
              repeat (ESleep Utils.defaultPollIntervalMs) k
              ++ EGetLogs (procId proc) :: killAttempt proc)).
Proof.
  destruct callSite_sync as [Hp Hfuel].
  destruct (first_settle (fun j => Utils.active (status proc (t + j)))
              (Utils.polls Sync.DEFAULT_SYNC_TIMEOUT_MS Utils.defaultPollIntervalMs))
    as (k & Hk & Hbefore & Hend).
  exists k.
  pose proof (wait_after_steps callFuel proc _ _ Hp Hfuel t k Hk Hbefore Hend)
    as Hwait.
  unfold Sync.waitOrKill.
  destruct (Utils.active (status proc (t + k))) eqn:Ha.
  - right. split; [reflexivity|]. split.
    + destruct Hend as [-> | Hend]; [reflexivity | discriminate Hend].
    + rewrite (catch_throw _ _ _ _ _ Hwait), repeat_length.
      rewrite (bind_ok _ _ _ _ _ (fetchLogsOrEmpty_run proc (t + k))).
      rewrite (bind_ok _ _ _ _ _ (bestEffortKill_attempt proc _)).
      unfold throw. cbn [fst snd app]. rewrite app_nil_r. reflexivity.
  - left. split; [reflexivity|]. apply catch_ok. exact Hwait.
Qed.

Lemma killAttempt_starts_nothing proc c :
  ~ In (EStart c) (EGetLogs (procId proc) :: killAttempt proc).
Proof.
  unfold killAttempt. destruct (kill proc); cbn; intuition discriminate.
Qed.

Section UnsettledPass.

Variables (R2_MOUNT_PATH R2_BUCKET_NAME : string).

#[local] Abbreviation stageStarts := (stageStarts R2_MOUNT_PATH).
#[local] Abbreviation InStageOrder := (InStageOrder R2_MOUNT_PATH).
#[local] Abbreviation StagesGated := (StagesGated R2_MOUNT_PATH).
#[local] Abbreviation replicateBody := (replicateBody R2_MOUNT_PATH).
#[local] Abbreviation replicate := (Sync.replicate R2_MOUNT_PATH).
#[local] Abbreviation syncToR2 := (Sync.syncToR2 R2_MOUNT_PATH R2_BUCKET_NAME).

(** The three ways a copy pass goes once started. *)
Lemma copyPass_precise sb cmd which next t :
  match startProcess sb t cmd with
  | Rejected e => copyPass sb cmd which next t = (Throw e, [EStart cmd])
  | Resolved proc =>
      exists k,
        (Utils.active (status proc (t + 1 + k)) = true
         /\ k = 1200
         /\ copyPass sb cmd which next t
            = (Throw (TimeoutError 600000 (status proc (t + 1 + k))),
               EStart cmd :: repeat (ESleep Utils.defaultPollIntervalMs) k
               ++ EGetLogs (procId proc) :: killAttempt proc))
        \/ (Utils.active (status proc (t + 1 + k)) = false
            /\ Sync.rsyncFailed proc (t + 1 + k) = true
            /\ exists d,
                copyPass sb cmd which next t
                = (Ok (Sync.failure "Sync failed" d),
                   EStart cmd :: repeat (ESleep Utils.defaultPollIntervalMs) k
                   ++ [EGetLogs (procId proc)]))
        \/ (Utils.active (status proc (t + 1 + k)) = false
            /\ Sync.rsyncFailed proc (t + 1 + k) = false
            /\ copyPass sb cmd which next t
               = (fst (next proc (t + 1 + k)),
                  EStart cmd :: repeat (ESleep Utils.defaultPollIntervalMs) k
                  ++ snd (next proc (t + 1 + k))))
  end.
Proof.
  unfold copyPass.
  destruct (startProcess sb t cmd) as [proc | e] eqn:Hstart.
  - rewrite (bind_ok _ _ t proc [EStart cmd])
      by (rewrite start_run, Hstart; reflexivity).
    cbn [length].
    destruct (waitOrKill_precise proc (t + 1)) as (k & [(Ha & Hw) | (Ha & Hk & Hw)]).
    + exists k. right.
      rewrite (bind_ok _ _ _ _ _ Hw). rewrite repeat_length.
      pose proof (ensureRsyncSuccess_run proc which (t + 1 + k)) as He.
      destruct (Sync.rsyncFailed proc (t + 1 + k)).
      * left. repeat split; auto. destruct He as (d & He). exists d.
        rewrite (bind_ok _ _ _ _ _ He). run_done.
      * right. repeat split; auto.
        rewrite (bind_ok _ _ _ _ _ He). run_done.
    + exists k. left. split; [exact Ha|]. split; [exact Hk|].
      rewrite (bind_throw _ _ _ _ _ Hw). cbn [fst snd app]. reflexivity.
  - apply bind_throw. rewrite start_run, Hstart. reflexivity.
Qed.

(** A copy pass begins with its start. *)
Lemma copyPass_pollsEnded sb cmd which next t :
  pollsEnded (snd (copyPass sb cmd which next t)).
Proof.
  pose proof (copyPass_precise sb cmd which next t) as Hrun.
  destruct (startProcess sb t cmd) as [proc | e].
  - destruct Hrun as (k & [(_ & _ & ->) | [(_ & _ & d & ->) | (_ & _ & ->)]]);
      exact I.
  - rewrite Hrun. exact I.
Qed.

(** An unsettled copy pass ends the run of the body with the time-out
    condition, if the same holds of what follows the pass. *)
Lemma copyPass_unsettled sb cmd which next t :
  (forall proc t', pollsEnded (snd (next proc t'))) ->
  (forall proc t',
      UnsettledPassEnds (@Throw _) sb t' (fst (next proc t')) (snd (next proc t'))) ->
  UnsettledPassEnds (@Throw _) sb t
    (fst (copyPass sb cmd which next t)) (snd (copyPass sb cmd which next t)).
Proof.
  intros Hends Hnext.
  pose proof (copyPass_precise sb cmd which next t) as Hrun.
  destruct (startProcess sb t cmd) as [proc | e] eqn:Hstart.
  - destruct Hrun as (k0 & Hrun).
    intros pre c k post p E Hc Hend Hp Hactive.
    destruct Hrun as [(Ha & Hk & Hrun) | [(Ha & Hf & d & Hrun) | (Ha & Hf & Hrun)]];
      rewrite Hrun in E |- *; cbn [fst snd] in E |- *;
      destruct (stage_split _ _ _ _ _ _ _ E) as [(-> & -> & Hrest) | (pre' & -> & HX')].
    + cbn [length] in Hp, Hactive |- *. rewrite Nat.add_0_r in Hp, Hactive |- *.
      rewrite Hstart in Hp. injection Hp as <-.
      destruct (sleeps_unique _ _ _ _ _ Hrest Hend I) as [-> ->]. auto.
    + exfalso. apply (killAttempt_starts_nothing proc c). rewrite HX'. apply in_elt.
    + cbn [length] in Hp, Hactive. rewrite Nat.add_0_r in Hp, Hactive.
      rewrite Hstart in Hp. injection Hp as <-.
      destruct (sleeps_unique _ _ _ _ _ Hrest Hend I) as [-> _]. congruence.
    + exfalso. destruct pre' as [|? [|? ?]]; discriminate HX'.
    + cbn [length] in Hp, Hactive. rewrite Nat.add_0_r in Hp, Hactive.
      rewrite Hstart in Hp. injection Hp as <-.
      destruct (sleeps_unique _ _ _ _ _ Hrest Hend (Hends proc _)) as [-> _].
      congruence.
    + rewrite stage_time in Hp, Hactive |- *.
      exact (Hnext proc (t + 1 + k0) pre' c k post p HX' Hc Hend Hp Hactive).
  - rewrite Hrun. cbn [fst snd].
    intros pre c k post p E _ _ Hp _.
    destruct pre as [|ev [|ev' pre]]; try discriminate E.
    injection E as -> _. cbn [length] in Hp. rewrite Nat.add_0_r in Hp.
    congruence.
Qed.

(** Interactions that start no copy pass have no unsettled one. *)
Lemma nocopy_unsettled final sb t r evs :
  (forall c, In (EStart c) evs -> isCopyPass c = false) ->
  UnsettledPassEnds final sb t r evs.
Proof.
  intros Hno pre cmd k post proc E Hc _ _ _. exfalso.
  rewrite (Hno cmd) in Hc; [discriminate Hc|]. rewrite E. apply in_elt.
Qed.

Lemma quiet_unsettled final sb t r evs :
  stageStarts evs = [] -> UnsettledPassEnds final sb t r evs.
Proof.
  intros Hq. apply nocopy_unsettled. intros c Hin.
  destruct (isCopyPass c) eqn:Hc; [exfalso | reflexivity].
  exact (quiet_no_stage R2_MOUNT_PATH evs c Hq
           (copyPass_is_stage R2_MOUNT_PATH c Hc) Hin).
Qed.

Lemma unsettled_shift final sb t r a evs :
  stageStarts a = [] ->
  UnsettledPassEnds final sb (t + length a) r evs ->
  UnsettledPassEnds final sb t r (a ++ evs).
Proof.
  intros Hq H pre cmd k post proc E Hc Hend Hp Hactive.
  destruct (app_split_at (EStart cmd) a evs pre _ E
              (quiet_no_stage R2_MOUNT_PATH a cmd Hq
                 (copyPass_is_stage R2_MOUNT_PATH cmd Hc)))
    as (pre' & -> & E').
  rewrite length_app, Nat.add_assoc in Hp, Hactive |- *.
  exact (H pre' cmd k post proc E' Hc Hend Hp Hactive).
Qed.

Lemma writeAndVerifyMarker_unsettled sb proc t :
  pollsEnded (snd (Sync.writeAndVerifyMarker R2_MOUNT_PATH sb proc t))
  /\ UnsettledPassEnds (@Throw _) sb t
       (fst (Sync.writeAndVerifyMarker R2_MOUNT_PATH sb proc t))
       (snd (Sync.writeAndVerifyMarker R2_MOUNT_PATH sb proc t)).
Proof.
  destruct (writeAndVerifyMarker_events R2_MOUNT_PATH sb proc t) as (rest & -> & Hq).
  split; [exact I|]. apply nocopy_unsettled. intros c [Hin | Hin].
  - injection Hin as <-. apply copyPass_write.
  - destruct (isCopyPass c) eqn:Hc; [exfalso | reflexivity].
    exact (quiet_no_stage R2_MOUNT_PATH rest c Hq
             (copyPass_is_stage R2_MOUNT_PATH c Hc) Hin).
Qed.

Lemma replicateBody_unsettled sb t :
  UnsettledPassEnds (@Throw _) sb t
    (fst (replicateBody sb t)) (snd (replicateBody sb t)).
Proof.
  unfold Stages.replicateBody.
  apply copyPass_unsettled; [intros; apply copyPass_pollsEnded|]. intros proc t1.
  apply copyPass_unsettled; [intros; apply copyPass_pollsEnded|]. intros _ t2.
  apply copyPass_unsettled;
    intros p t3; apply writeAndVerifyMarker_unsettled.
Qed.

(** C2. In every run of [syncToR2]: (1) the stages started are an initial
    part of the declared order config copy, workspace copy, skills copy,
    marker write, in that order; (2) a copy pass whose handle is settled
    after its polls and fails the ensure-success check ([status] is
    [failed] or the exit code is a non-zero number) makes the run return
    the failure [Sync failed], with no process started afterwards; (3) a
    copy pass whose handle is still [starting] or [running] after its
    polls, whatever its status and exit code say of failure, was polled
    1200 times, its logs are fetched and its kill attempted, no process is
    started afterwards, and the run returns the failure [Sync error] with
    the message of the time-out of 600000 ms; (4) a stage is started after
    another one only right after the polls of that previous copy pass,
    whose handle is then settled and passes the ensure-success check. *)
Theorem syncToR2_stages_in_order_and_gated
    (sb : Sandbox) (env : OpenClawEnv) (t : nat)
    (r : Outcome Sync.SyncResult) (evs : list Event) :
  syncToR2 sb env t = (r, evs) ->
  InStageOrder evs
  /\ FailedPassStops sb t r evs
  /\ UnsettledPassStops sb t r evs
  /\ StagesGated sb t evs.
Proof.
  intros Hrun.
  destruct (syncToR2_settled_stages R2_MOUNT_PATH R2_BUCKET_NAME sb env t r evs Hrun)
    as (Horder & Hstops & Hgated).
  split; [exact Horder|]. split; [exact Hstops|]. split; [|exact Hgated].
  destruct (syncToR2_phases R2_MOUNT_PATH R2_BUCKET_NAME sb env t)
    as (a & Hq & [Hearly | Hgo]).
  - rewrite Hrun in Hearly. cbn [snd] in Hearly. subst a.
    apply quiet_unsettled. exact Hq.
  - rewrite Hrun in Hgo. injection Hgo as -> ->.
    destruct (replicate_run R2_MOUNT_PATH sb (t + length a)) as [Hsame Hres].
    pose proof (replicateBody_unsettled sb (t + length a)) as Hbody.
    rewrite Hsame. apply unsettled_shift; [exact Hq|].
    intros pre cmd k post proc E Hc Hend Hp Hactive.
    destruct (Hbody pre cmd k post proc E Hc Hend Hp Hactive)
      as (Hk & Hr & Hpost).
    split; [exact Hk|]. split; [|exact Hpost].
    rewrite Hr in Hres. exact Hres.
Qed.

End UnsettledPass.

Lemma syncToR2_stages_in_order_and_gated_witness :
  (exists d,
      fst (Sync.syncToR2 examplePath exampleBucket failingSandbox exampleEnv 0)
      = Ok (Sync.failure "Sync failed" d))
  /\ fst (Sync.syncToR2 examplePath exampleBucket lingeringSandbox exampleEnv 0)
     = Ok (Sync.failure "Sync error"
             (Some "Process timed out after 600000ms (status=running)")).
Proof.
  split.
  - destruct (syncToR2_stages_in_order_and_gated examplePath exampleBucket
                failingSandbox exampleEnv 0
                (fst (Sync.syncToR2 examplePath exampleBucket failingSandbox exampleEnv 0))
                (snd (Sync.syncToR2 examplePath exampleBucket failingSandbox exampleEnv 0)))
      as (_ & Hstops & _).
    + apply surjective_pairing.
    + destruct (Hstops
                  [EStart (R2.probeCmd examplePath); EGetLogs "proc"; EList;
                   EStart (Sync.verifyCmd examplePath); EGetLogs "proc"]
                  (Sync.syncOpenclawCmd examplePath) 0
                  [EGetLogs "proc"] failedCopy)
        as [Hfailed _].
      * vm_compute. reflexivity.
      * reflexivity.
      * exact I.
      * reflexivity.
      * reflexivity.
      * reflexivity.
      * exact Hfailed.
  - destruct (syncToR2_stages_in_order_and_gated examplePath exampleBucket
                lingeringSandbox exampleEnv 0
                (fst (Sync.syncToR2 examplePath exampleBucket lingeringSandbox exampleEnv 0))
                (snd (Sync.syncToR2 examplePath exampleBucket lingeringSandbox exampleEnv 0)))
      as (_ & _ & Hhung & _).
    + apply surjective_pairing.
    + destruct (Hhung
                  [EStart (R2.probeCmd examplePath); EGetLogs "proc"; EList;
                   EStart (Sync.verifyCmd examplePath); EGetLogs "proc"]
                  (Sync.syncOpenclawCmd examplePath) 1200
                  [EGetLogs "proc"] lingeringCopy)
        as (_ & Hr & _).
      * vm_compute. reflexivity.
      * reflexivity.
      * exact I.
      * reflexivity.
      * reflexivity.
      * exact Hr.
Defined.

(** C2, the case left out by the sentence of the specification.  The first
    copy pass of [lingeringSandbox] has the exit code 1 all along, so the
    ensure-success check would call it failed, but its status stays
    [running]: the run does not return [Sync failed]; it waits the 1200
    polls of ten minutes, fetches the logs and returns [Sync error] with the
    message of the time-out. *)
Lemma syncToR2_failed_pass_never_settles :
  (forall t, Sync.rsyncFailed lingeringCopy t = true)
  /\ Sync.syncToR2 examplePath exampleBucket lingeringSandbox exampleEnv 0
     = (Ok (Sync.failure "Sync error"
              (Some "Process timed out after 600000ms (status=running)")),
        [EStart (R2.probeCmd examplePath); EGetLogs "proc"; EList;
         EStart (Sync.verifyCmd examplePath); EGetLogs "proc";
         EStart (Sync.syncOpenclawCmd examplePath)]
        ++ repeat (ESleep 500) 1200 ++ [EGetLogs "proc"])
  /\ Sync.failure "Sync error"
       (Some "Process timed out after 600000ms (status=running)")
     <> Sync.failure "Sync failed"
          (Some "Process timed out after 600000ms (status=running)").
Proof.
  split; [intros t; reflexivity|]. split.
  - vm_compute. reflexivity.
  - discriminate.
Qed.

(** ** The first draft of [syncToR2] *)

Lemma callSite_5000_500 : callSite 5000 Utils.defaultPollIntervalMs.
Proof. split; [reflexivity | vm_compute; lia]. Qed.

Lemma callSite_120000_500 : callSite 120000 Utils.defaultPollIntervalMs.
Proof. split; [reflexivity | vm_compute; lia]. Qed.

Section DraftFacts.

Variable R2_MOUNT_PATH : string.
Variable mountR2Storage : Sandbox -> OpenClawEnv -> M bool.

#[local] Abbreviation draftVerify := (SyncDraft.verifySource).
#[local] Abbreviation draftUnverified := (SyncDraft.markerUnverified R2_MOUNT_PATH).
#[local] Abbreviation draftReplicate := (SyncDraft.replicate R2_MOUNT_PATH).
#[local] Abbreviation draftSync :=
  (SyncDraft.syncToR2 R2_MOUNT_PATH mountR2Storage).
#[local] Abbreviation shaped := (fun res => wellFormed res = true).
#[local] Abbreviation shapedIfAny :=
  (fun o : option Sync.SyncResult => forall res, o = Some res -> wellFormed res = true).

Lemma draft_verify_fails sb t res evs :
  draftVerify sb t = (Ok (Some res), evs) -> Sync.success res = false.
Proof.
  unfold SyncDraft.verifySource. intros H.
  apply catch_inv_ok in H as [H | (e & e1 & e2 & _ & H & _)].
  - apply bind_inv_ok in H as (checkProc & e1 & e1' & _ & H & _).
    apply bind_inv_ok in H as (u & e2 & e2' & _ & H & _).
    apply bind_inv_ok in H as (checkLogs & e3 & e3' & _ & H & _).
    destruct (negb _); [|discriminate H].
    injection H as <- _. reflexivity.
  - injection H as <- _. reflexivity.
Qed.

Lemma draft_unverified_fails sb proc t res evs :
  draftUnverified sb proc t = (Ok res, evs) -> Sync.success res = false.
Proof.
  unfold SyncDraft.markerUnverified. intros H.
  apply bind_inv_ok in H as (logs & e1 & e1' & _ & H & _).
  apply bind_inv_ok in H as (diagProc & e2 & e2' & _ & H & _).
  apply bind_inv_ok in H as (u & e3 & e3' & _ & H & _).
  apply bind_inv_ok in H as (diagLogs & e4 & e4' & _ & H & _).
  injection H as <- _. reflexivity.
Qed.

Lemma draft_replicate_success sb t res evs :
  draftReplicate sb t = (Ok res, evs) ->
  Sync.success res = true ->
  exists kw timestampProc k logs,
    evs = (EStart (SyncDraft.syncCmd R2_MOUNT_PATH)
           :: repeat (ESleep Utils.defaultPollIntervalMs) kw)
          ++ EStart (Sync.readTimestampCmd R2_MOUNT_PATH)
             :: repeat (ESleep Utils.defaultPollIntervalMs) k
             ++ [EGetLogs (procId timestampProc)]
    /\ startProcess sb (t + 1 + kw) (Sync.readTimestampCmd R2_MOUNT_PATH)
       = Resolved timestampProc
    /\ Utils.active (status timestampProc (t + 1 + kw + 1 + k)) = false
    /\ getLogs timestampProc (t + 1 + kw + 1 + k) = Resolved logs
    /\ res = Sync.mkResult true (Some (Js.trim (stdout logs))) None None
    /\ Js.matchesDatePrefix (Js.trim (stdout logs)) = true.
Proof.
  unfold SyncDraft.replicate. intros H Hsucc.
  apply catch_inv_ok in H as [H | (e & e1 & e2 & _ & H & _)].
  2: { injection H as <- _. discriminate Hsucc. }
  apply bind_inv_ok in H as (proc & e1 & e1' & Hw & H & ->).
  apply start_inv_ok in Hw as [_ ->]. cbn [length] in H.
  apply bind_inv_ok in H as ([] & e2 & e2' & Hww & H & ->).
  apply (wait_call_ok _ _ _ _ _ callSite_120000_500) in Hww as (kw & -> & _).
  rewrite repeat_length in H.
  apply bind_inv_ok in H as (timestampProc & e3 & e3' & Hr & H & ->).
  apply start_inv_ok in Hr as [Hr ->]. cbn [length] in H.
  apply bind_inv_ok in H as ([] & e4 & e4' & Hrw & H & ->).
  apply (wait_call_ok _ _ _ _ _ callSite_15000_500) in Hrw as (k & -> & Hsettled).
  rewrite repeat_length in H.
  apply bind_inv_ok in H as (logs & e5 & e5' & Hl & H & ->).
  apply fetchLogs_inv_ok in Hl as [Hl ->].
  exists kw, timestampProc, k, logs.
  unfold Sync.lastSyncOf in H.
  destruct (Js.truthy (Js.trim (stdout logs))
            && negb (Js.trim (stdout logs) =? "__MISSING__")%string).
  - destruct (Js.matchesDatePrefix (Js.trim (stdout logs))) eqn:Hdate.
    + injection H as <- <-. cbn [app]. repeat split; auto.
    + apply draft_unverified_fails in H. congruence.
  - apply draft_unverified_fails in H. congruence.
Qed.

(** X22. In the first draft of [syncToR2], whatever [mountR2Storage] does, a
    result with [success = true] is only returned on the verified marker: the
    combined copy command was started before, the read-back command was
    started and answered, its handle was polled until settled, its logs were
    fetched, and the trimmed text read back, which is the [lastSync] of the
    result, starts like a date. *)
Theorem draft_success_only_on_verified_marker
    (sb : Sandbox) (env : OpenClawEnv) (t : nat)
    (res : Sync.SyncResult) (evs : list Event) :
  draftSync sb env t = (Ok res, evs) ->
  Sync.success res = true ->
  exists pre timestampProc k logs,
    evs = pre ++ EStart (Sync.readTimestampCmd R2_MOUNT_PATH)
          :: repeat (ESleep Utils.defaultPollIntervalMs) k
          ++ [EGetLogs (procId timestampProc)]
    /\ In (SyncDraft.syncCmd R2_MOUNT_PATH) (started pre)
    /\ startProcess sb (t + length pre) (Sync.readTimestampCmd R2_MOUNT_PATH)
       = Resolved timestampProc
    /\ Utils.active (status timestampProc (t + length pre + 1 + k)) = false
    /\ getLogs timestampProc (t + length pre + 1 + k) = Resolved logs
    /\ res = Sync.mkResult true (Some (Js.trim (stdout logs))) None None
    /\ Js.matchesDatePrefix (Js.trim (stdout logs)) = true.
Proof.
  unfold SyncDraft.syncToR2. intros H Hsucc.
  destruct (credentials env) as [c|].
  2: { injection H as <- _. discriminate Hsucc. }
  apply bind_inv_ok in H as (mounted & e0 & e0' & _ & H & ->).
  destruct (negb mounted).
  { injection H as <- _. discriminate Hsucc. }
  apply bind_inv_ok in H as (verdict & e1 & e1' & Hv & H & ->).
  destruct verdict as [r|].
  { injection H as <- _. apply draft_verify_fails in Hv. congruence. }
  destruct (draft_replicate_success sb _ res e1' H Hsucc)
    as (kw & tp & k & logs & -> & Hs & Ha & Hl & Hres & Hd).
  exists (e0 ++ e1 ++ EStart (SyncDraft.syncCmd R2_MOUNT_PATH)
          :: repeat (ESleep Utils.defaultPollIntervalMs) kw), tp, k, logs.
  rewrite !length_app. cbn [length]. rewrite repeat_length.
  replace (t + (length e0 + (length e1 + S kw)))
    with (t + length e0 + length e1 + 1 + kw) by lia.
  repeat split; auto.
  - rewrite <- !app_assoc. reflexivity.
  - rewrite !started_app. apply in_or_app. right. apply in_or_app. right.
    left. reflexivity.
Qed.

(** *** Containment of errors and shape of the results *)

Lemma draft_halts_verifyBody sb :
  Halts (checkProc <- start sb SyncDraft.checkCmd ;;
         Utils.waitForProcess callFuel checkProc 5000 Utils.defaultPollIntervalMs ;;
         checkLogs <- fetchLogs checkProc ;;
         if negb (Js.includes "ok" (stdout checkLogs))
         then ret (Some Sync.missingResult)
         else ret None).
Proof.
  apply halts_bind; [apply halts_start | intros checkProc].
  apply halts_bind; [apply halts_wait, callSite_5000_500 | intros _].
  apply halts_bind; [apply halts_await | intros logs].
  destruct (negb _); apply halts_ret.
Qed.

Lemma draft_safe_verify sb : Safe (draftVerify sb).
Proof.
  unfold SyncDraft.verifySource.
  apply safe_catch; [apply draft_halts_verifyBody | intros; apply safe_ret].
Qed.

Lemma draft_halts_unverified sb proc : Halts (draftUnverified sb proc).
Proof.
  unfold SyncDraft.markerUnverified.
  apply halts_bind; [apply halts_await | intros logs].
  apply halts_bind; [apply halts_start | intros diagProc].
  apply halts_bind; [apply halts_wait, callSite_5000_500 | intros _].
  apply halts_bind; [apply halts_await | intros; apply halts_ret].
Qed.

Lemma draft_safe_replicate sb : Safe (draftReplicate sb).
Proof.
  unfold SyncDraft.replicate. apply safe_catch; [|intros; apply safe_ret].
  apply halts_bind; [apply halts_start | intros proc].
  apply halts_bind; [apply halts_wait, callSite_120000_500 | intros _].
  apply halts_bind; [apply halts_start | intros timestampProc].
  apply halts_bind; [apply halts_wait, callSite_15000_500 | intros _].
  apply halts_bind; [apply halts_await | intros logs].
  destruct (Sync.lastSyncOf _) as [ls|];
    [destruct (Js.matchesDatePrefix ls)|];
    first [apply halts_ret | apply draft_halts_unverified].
Qed.

Lemma draft_returns_verify sb : Returns shapedIfAny (draftVerify sb).
Proof.
  unfold SyncDraft.verifySource. apply returns_catch.
  - apply returns_bind_any. intros checkProc.
    apply returns_bind_any. intros _.
    apply returns_bind_any. intros logs.
    destruct (negb _); apply returns_ret.
    + intros res [= <-]. reflexivity.
    + intros res H. discriminate H.
  - intros e. apply returns_ret. intros res [= <-]. reflexivity.
Qed.

Lemma draft_returns_replicate sb : Returns shaped (draftReplicate sb).
Proof.
  unfold SyncDraft.replicate. apply returns_catch.
  - apply returns_bind_any. intros proc.
    apply returns_bind_any. intros _.
    apply returns_bind_any. intros timestampProc.
    apply returns_bind_any. intros _.
    apply returns_bind_any. intros logs.
    assert (Returns shaped (draftUnverified sb proc)) as Hdiag.
    { unfold SyncDraft.markerUnverified.
      apply returns_bind_any. intros rsyncLogs.
      apply returns_bind_any. intros diagProc.
      apply returns_bind_any. intros _.
      apply returns_bind_any. intros diagLogs.
      apply returns_ret. reflexivity. }
    destruct (Sync.lastSyncOf _) as [ls|];
      [destruct (Js.matchesDatePrefix ls) eqn:Hdate|]; try exact Hdiag.
    apply returns_ret. exact Hdate.
  - intros e. apply returns_ret. reflexivity.
Qed.

(** X23. The first draft of [syncToR2] contains every error but those of
    [mountR2Storage]: with any mount computation, a run raises [e] exactly
    when the credentials are configured and the mount raises [e]; and every
    result it returns is well formed (no [error] on a success, whose
    [lastSync] starts like a date; no [lastSync] on a failure, whose [error]
    is one of the known texts). *)
Theorem draft_contains_errors
    (sb : Sandbox) (env : OpenClawEnv) (t : nat) :
  (forall e,
     fst (draftSync sb env t) = Throw e
     <-> credentials env <> None /\ fst (mountR2Storage sb env t) = Throw e)
  /\ (forall res, fst (draftSync sb env t) = Ok res -> wellFormed res = true).
Proof.
  split.
  - intros e. unfold SyncDraft.syncToR2.
    destruct (credentials env) as [c|] eqn:Hc.
    + rewrite bind_throws_iff.
      * split; [intros H; split; [discriminate | exact H] | intros [_ H]; exact H].
      * intros mounted. destruct (negb mounted); [apply safe_ret|].
        apply safe_bind; [apply draft_safe_verify | intros [r|]].
        -- apply safe_ret.
        -- apply draft_safe_replicate.
    + split; [intros H; discriminate H
             | intros [H _]; exfalso; apply H; reflexivity].
  - revert t. change (Returns shaped (draftSync sb env)).
    unfold SyncDraft.syncToR2. destruct (credentials env) as [c|].
    2: { apply returns_ret. reflexivity. }
    apply returns_bind_any. intros mounted.
    destruct (negb mounted); [apply returns_ret; reflexivity|].
    apply (returns_bind shapedIfAny); [apply draft_returns_verify|].
    intros [res|] H.
    + apply returns_ret. apply H. reflexivity.
    + apply draft_returns_replicate.
Qed.

End DraftFacts.

Lemma draft_success_only_on_verified_marker_witness :
  exists pre timestampProc k logs,
    [ EStart (R2.probeCmd examplePath); EGetLogs "proc";
      EStart SyncDraft.checkCmd; EGetLogs "proc";
      EStart (SyncDraft.syncCmd examplePath);
      EStart (Sync.readTimestampCmd examplePath); EGetLogs "proc" ]
    = pre ++ EStart (Sync.readTimestampCmd examplePath)
      :: repeat (ESleep Utils.defaultPollIntervalMs) k
      ++ [EGetLogs (procId timestampProc)]
    /\ In (SyncDraft.syncCmd examplePath) (started pre)
    /\ startProcess draftSandbox (0 + length pre)
         (Sync.readTimestampCmd examplePath)
       = Resolved timestampProc
    /\ Utils.active (status timestampProc (0 + length pre + 1 + k)) = false
    /\ getLogs timestampProc (0 + length pre + 1 + k) = Resolved logs
    /\ Sync.mkResult true (Some "2026-01-27T12:00:00+00:00") None None
       = Sync.mkResult true (Some (Js.trim (stdout logs))) None None
    /\ Js.matchesDatePrefix (Js.trim (stdout logs)) = true.
Proof.
  apply (draft_success_only_on_verified_marker examplePath
           (R2.mountR2Storage examplePath exampleBucket)
           draftSandbox exampleEnv 0).
  - vm_compute. reflexivity.
  - reflexivity.
Defined.

Lemma draft_contains_errors_witness :
  wellFormed (Sync.mkResult true (Some "2026-01-27T12:00:00+00:00") None None)
  = true.
Proof.
  destruct (draft_contains_errors examplePath
              (R2.mountR2Storage examplePath exampleBucket)
              draftSandbox exampleEnv 0) as [_ H].
  apply H. vm_compute. reflexivity.
Defined.

(** ** The first token of the probe output *)

Section Strings.

Local Open Scope string_scope.

Lemma sapp_nil_r (s : string) : s ++ "" = s.
Proof. induction s as [|c s IH]; cbn; [reflexivity | rewrite IH; reflexivity]. Qed.

Lemma sapp_assoc (a b c : string) : (a ++ b) ++ c = a ++ b ++ c.
Proof. induction a as [|x a IH]; cbn; [reflexivity | rewrite IH; reflexivity]. Qed.

Lemma prefix_app (w r : string) : String.prefix w (w ++ r) = true.
Proof.
  induction w as [|a w IH]; cbn; [destruct r; reflexivity|].
  destruct (ascii_dec a a); [exact IH | contradiction].
Qed.

Lemma prefix_inv (w : string) :
  forall s, String.prefix w s = true -> exists r, s = w ++ r.
Proof.
  induction w as [|a w IH]; intros s H.
  - exists s. reflexivity.
  - destruct s as [|b s]; cbn in H; [discriminate H|].
    destruct (ascii_dec a b) as [<- | _]; [|discriminate H].
    destruct (IH s H) as (r & ->). exists r. reflexivity.
Qed.

Lemma includes_prefix (w s : string) :
  String.prefix w s = true -> Js.includes w s = true.
Proof. intros H. destruct s; cbn [Js.includes]; rewrite H; reflexivity. Qed.

Lemma concat_cons (w : string) (ws : list string) :
  String.concat "" (w :: ws) = w ++ String.concat "" ws.
Proof. destruct ws; cbn; [rewrite sapp_nil_r|]; reflexivity. Qed.

(** *** The table of white-space characters *)

Lemma among_In (l : list string) (w : string) :
  Js.among l w = true <-> In w l.
Proof.
  unfold Js.among. rewrite existsb_exists. split.
  - intros (x & Hin & E). apply String.eqb_eq in E. subst x. exact Hin.
  - intros Hin. exists w. split; [exact Hin | apply String.eqb_refl].
Qed.

Lemma among_white (w : string) :
  Js.among Js.whiteSpaces w
  = Js.among Js.whiteSpaces1 w || Js.among Js.whiteSpaces2 w
    || Js.among Js.whiteSpaces3 w.
Proof.
  unfold Js.among, Js.whiteSpaces. rewrite !existsb_app, orb_assoc. reflexivity.
Qed.

(** A white-space character is one to three bytes, of which the first is
    no continuation byte and the others are. *)
Lemma white_bytes (w : string) :
  Js.among Js.whiteSpaces w = true ->
  match w with
  | String a "" => continuation a = false
  | String a (String b "") => continuation a = false /\ continuation b = true
  | String a (String b (String c "")) =>
      continuation a = false /\ continuation b = true /\ continuation c = true
  | _ => False
  end.
Proof.
  intros Hw. apply among_In in Hw. vm_compute in Hw.
  repeat destruct Hw as [<- | Hw]; try (repeat split; reflexivity).
  contradiction.
Qed.

Lemma leadWs_white (w s : string) :
  Js.among Js.whiteSpaces w = true -> Js.leadWs (w ++ s) = Some s.
Proof.
  intros Hw. apply among_In in Hw. vm_compute in Hw.
  repeat destruct Hw as [<- | Hw]; try reflexivity.
  contradiction.
Qed.

Lemma leadWs_inv (s r : string) :
  Js.leadWs s = Some r ->
  exists w, Js.among Js.whiteSpaces w = true /\ s = w ++ r.
Proof.
  unfold Js.leadWs. destruct s as [|a s1]; [discriminate|].
  destruct (Js.ws1 a) eqn:H1.
  { intros [= <-]. exists (String a ""). split; [|reflexivity].
    rewrite among_white. unfold Js.ws1 in H1. rewrite H1. reflexivity. }
  destruct s1 as [|b s2]; [discriminate|].
  destruct (Js.ws2 a b) eqn:H2.
  { intros [= <-]. exists (String a (String b "")). split; [|reflexivity].
    rewrite among_white. unfold Js.ws2 in H2. rewrite H2, orb_true_r. reflexivity. }
  destruct s2 as [|c s3]; [discriminate|].
  destruct (Js.ws3 a b c) eqn:H3; [|discriminate].
  intros [= <-]. exists (String a (String b (String c ""))). split; [|reflexivity].
  rewrite among_white. unfold Js.ws3 in H3. rewrite H3, orb_true_r. reflexivity.
Qed.

Lemma lead_not_continuation (b : ascii) (s r : string) :
  Js.leadWs (String b s) = Some r -> continuation b = false.
Proof.
  intros H. destruct (leadWs_inv _ _ H) as (w & Hw & E).
  pose proof (white_bytes w Hw) as Hb.
  destruct w as [|a [|a' [|a'' [|? ?]]]]; try contradiction;
    cbn [append] in E; injection E as -> _; tauto.
Qed.

Lemma continuation_not_lead (b : ascii) (s : string) :
  continuation b = true -> Js.leadWs (String b s) = None.
Proof.
  intros Hb. destruct (Js.leadWs (String b s)) as [r|] eqn:E; [|reflexivity].
  apply lead_not_continuation in E. congruence.
Qed.

Lemma ws2_second (a b : ascii) : Js.ws2 a b = true -> continuation b = true.
Proof.
  intros H. apply (white_bytes (String a (String b ""))).
  rewrite among_white. unfold Js.ws2 in H. rewrite H, orb_true_r. reflexivity.
Qed.

Lemma ws3_tail (a b c : ascii) :
  Js.ws3 a b c = true -> continuation b = true /\ continuation c = true.
Proof.
  intros H. apply (white_bytes (String a (String b (String c "")))).
  rewrite among_white. unfold Js.ws3 in H. rewrite H, orb_true_r. reflexivity.
Qed.

(** *** The functions on texts, by the white space a text begins with *)

Lemma trimStart_leadWs (s : string) :
  Js.trimStart s
  = match Js.leadWs s with Some r => Js.trimStart r | None => s end.
Proof.
  unfold Js.leadWs.
  destruct s as [|a [|b [|c s]]]; cbn [Js.trimStart]; try reflexivity;
    destruct (Js.ws1 a); try reflexivity;
    destruct (Js.ws2 a b); try reflexivity;
    destruct (Js.ws3 a b c); reflexivity.
Qed.

Lemma splitWsFrom_leadWs (cur : string) (inSep : bool) (a : ascii) (s1 : string) :
  Js.splitWsFrom cur inSep (String a s1)
  = match Js.leadWs (String a s1) with
    | Some r => (Js.endPiece cur inSep ++ Js.splitWsFrom "" true r)%list
    | None => Js.splitWsFrom (cur ++ String a "") false s1
    end.
Proof.
  unfold Js.leadWs.
  destruct s1 as [|b [|c s]]; cbn [Js.splitWsFrom]; try reflexivity;
    destruct (Js.ws1 a); try reflexivity;
    destruct (Js.ws2 a b); try reflexivity;
    destruct (Js.ws3 a b c); reflexivity.
Qed.

Lemma trimEnd_cons (a : ascii) (s : string) :
  Js.trimEnd (String a s)
  = match Js.trimStart (String a s) with
    | "" => ""
    | _ => String a (Js.trimEnd s)
    end.
Proof. reflexivity. Qed.

Lemma trimStart_white (w s : string) :
  Js.among Js.whiteSpaces w = true -> Js.trimStart (w ++ s) = Js.trimStart s.
Proof.
  intros Hw. rewrite trimStart_leadWs, (leadWs_white w s Hw). reflexivity.
Qed.

Lemma trimStart_blanks (blanks : list string) (s : string) :
  allWhite blanks = true ->
  Js.trimStart (String.concat "" blanks ++ s) = Js.trimStart s.
Proof.
  induction blanks as [|w ws IH]; intros H; [reflexivity|].
  apply andb_true_iff in H. destruct H as [Hw Hws].
  rewrite concat_cons, sapp_assoc, trimStart_white by exact Hw.
  apply IH, Hws.
Qed.

Lemma trimEnd_continuation (b : ascii) (s : string) :
  continuation b = true -> Js.trimEnd (String b s) = String b (Js.trimEnd s).
Proof.
  intros Hb.
  rewrite trimEnd_cons, trimStart_leadWs, continuation_not_lead by exact Hb.
  reflexivity.
Qed.

(** Trimming at the end keeps a white-space character whole. *)
Lemma trimEnd_white (w r : string) :
  Js.among Js.whiteSpaces w = true ->
  Js.trimEnd (w ++ r)
  = match Js.trimStart r with
    | "" => ""
    | _ => w ++ Js.trimEnd r
    end.
Proof.
  intros Hw. pose proof (white_bytes w Hw) as Hb.
  pose proof (trimStart_white w r Hw) as Hs.
  destruct w as [|a [|b [|c [|? ?]]]]; try contradiction;
    cbn [append] in Hs |- *; rewrite trimEnd_cons, Hs;
    destruct (Js.trimStart r); try reflexivity.
  - destruct Hb as (_ & Hb). rewrite (trimEnd_continuation b) by exact Hb.
    reflexivity.
  - destruct Hb as (_ & Hb & Hc).
    rewrite (trimEnd_continuation b), (trimEnd_continuation c) by assumption.
    reflexivity.
Qed.

Lemma splitWsFrom_white (cur w r : string) :
  Js.among Js.whiteSpaces w = true ->
  Js.splitWsFrom cur false (w ++ r) = cur :: Js.splitWsFrom "" true r.
Proof.
  intros Hw. pose proof (white_bytes w Hw) as Hb.
  pose proof (leadWs_white w r Hw) as Hl.
  destruct w as [|a w]; [contradiction|].
  cbn [append] in Hl |- *. rewrite splitWsFrom_leadWs, Hl. reflexivity.
Qed.

(** *** Words *)

Lemma beginsWhite_inv (s : string) :
  beginsWhite s = true ->
  exists w r, Js.among Js.whiteSpaces w = true /\ s = w ++ r.
Proof.
  unfold beginsWhite. intros H. apply existsb_exists in H.
  destruct H as (w & Hin & Hp). destruct (prefix_inv w s Hp) as (r & ->).
  exists w, r. split; [apply among_In, Hin | reflexivity].
Qed.

Lemma beginsWhite_app (w s : string) :
  Js.among Js.whiteSpaces w = true -> beginsWhite (w ++ s) = true.
Proof.
  intros Hw. apply existsb_exists. exists w.
  split; [apply among_In, Hw | apply prefix_app].
Qed.

Lemma noWhite_cons (a : ascii) (u : string) :
  noWhite (String a u) = true ->
  Js.leadWs (String a u) = None /\ noWhite u = true.
Proof.
  unfold noWhite. intros H. rewrite forallb_forall in H. split.
  - destruct (Js.leadWs (String a u)) as [r|] eqn:E; [exfalso | reflexivity].
    destruct (leadWs_inv _ _ E) as (w & Hw & Es).
    pose proof (H w (proj1 (among_In _ _) Hw)) as Hno.
    rewrite Es, (includes_prefix w (w ++ r) (prefix_app w r)) in Hno.
    discriminate Hno.
  - apply forallb_forall. intros w Hin. specialize (H w Hin).
    apply negb_true_iff in H. apply negb_true_iff.
    cbn [Js.includes] in H. apply orb_false_iff in H. apply H.
Qed.

(** No white-space character begins inside a word and ends in what follows
    it, if that is empty or begins with white space. *)
Lemma leadWs_word_app (u rest : string) :
  u <> "" -> Js.leadWs u = None ->
  rest = "" \/ beginsWhite rest = true ->
  Js.leadWs (u ++ rest) = None.
Proof.
  intros Hne Hu Hrest.
  assert (match rest with
          | "" => True
          | String b _ => continuation b = false
          end) as Hb.
  { destruct Hrest as [-> | H]; [exact I|].
    destruct (beginsWhite_inv rest H) as (w & r & Hw & ->).
    pose proof (leadWs_white w r Hw) as Hl.
    destruct (w ++ r) as [|b s]; [exact I|].
    exact (lead_not_continuation b s r Hl). }
  destruct u as [|a [|b [|c u]]]; [contradiction Hne; reflexivity| | |];
    cbn [append]; unfold Js.leadWs in Hu |- *.
  - destruct (Js.ws1 a); [discriminate Hu|].
    destruct rest as [|b s2]; [reflexivity|].
    destruct (Js.ws2 a b) eqn:H2; [apply ws2_second in H2; congruence|].
    destruct s2 as [|c s3]; [reflexivity|].
    destruct (Js.ws3 a b c) eqn:H3; [|reflexivity].
    apply ws3_tail in H3. destruct H3. congruence.
  - destruct (Js.ws1 a); [discriminate Hu|].
    destruct (Js.ws2 a b); [discriminate Hu|].
    destruct rest as [|c s3]; [reflexivity|].
    destruct (Js.ws3 a b c) eqn:H3; [|reflexivity].
    apply ws3_tail in H3. destruct H3. congruence.
  - destruct (Js.ws1 a); [discriminate Hu|].
    destruct (Js.ws2 a b); [discriminate Hu|].
    destruct (Js.ws3 a b c); [discriminate Hu | reflexivity].
Qed.

Lemma word_leadWs (a : ascii) (u rest : string) :
  noWhite (String a u) = true ->
  rest = "" \/ beginsWhite rest = true ->
  Js.leadWs (String a (u ++ rest)) = None.
Proof.
  intros Hw Hrest. destruct (noWhite_cons a u Hw) as [Hl _].
  apply (leadWs_word_app (String a u) rest); [discriminate | exact Hl | exact Hrest].
Qed.

Lemma trimStart_word (tok rest : string) :
  tok <> "" ->
  noWhite tok = true ->
  rest = "" \/ beginsWhite rest = true ->
  Js.trimStart (tok ++ rest) = tok ++ rest.
Proof.
  intros Hne Hw Hrest. destruct tok as [|a u]; [contradiction Hne; reflexivity|].
  cbn [append]. rewrite trimStart_leadWs, word_leadWs by assumption. reflexivity.
Qed.

Lemma trimEnd_word (tok rest : string) :
  noWhite tok = true ->
  rest = "" \/ beginsWhite rest = true ->
  Js.trimEnd (tok ++ rest) = tok ++ Js.trimEnd rest.
Proof.
  intros Hw Hrest. induction tok as [|a u IH]; [reflexivity|].
  cbn [append].
  rewrite trimEnd_cons, trimStart_leadWs, word_leadWs by assumption.
  rewrite IH by apply (noWhite_cons a u Hw). reflexivity.
Qed.

Lemma splitWsFrom_word (tok rest : string) :
  noWhite tok = true ->
  rest = "" \/ beginsWhite rest = true ->
  forall cur,
    Js.splitWsFrom cur false (tok ++ rest) = Js.splitWsFrom (cur ++ tok) false rest.
Proof.
  intros Hw Hrest. induction tok as [|a u IH]; intros cur.
  - cbn [append]. rewrite sapp_nil_r. reflexivity.
  - cbn [append].
    rewrite splitWsFrom_leadWs, word_leadWs by assumption.
    rewrite IH by apply (noWhite_cons a u Hw).
    rewrite sapp_assoc. reflexivity.
Qed.

(** What is left of the rest of a line after trimming is again empty or
    begins with white space. *)
Lemma trimEnd_rest (rest : string) :
  rest = "" \/ beginsWhite rest = true ->
  Js.trimEnd rest = ""
  \/ exists w r, Js.among Js.whiteSpaces w = true /\ Js.trimEnd rest = w ++ r.
Proof.
  intros [-> | H]; [left; reflexivity|].
  destruct (beginsWhite_inv rest H) as (w & r & Hw & ->).
  rewrite (trimEnd_white w r Hw).
  destruct (Js.trimStart r); [left; reflexivity | right].
  exists w, (Js.trimEnd r). auto.
Qed.

End Strings.

(** X24. The filesystem type read by the probe is the first word of the
    output, by the white space of ECMAScript: for an output made of the
    white-space characters [blanks], a non-empty word [tok] in which no
    white-space character occurs, and a rest that is empty or begins with a
    white-space character, [fsTypeOf] is [tok]; for an output of white-space
    characters only it is empty. *)
Theorem fsTypeOf_first_word (blanks : list string) (tok rest : string) :
  allWhite blanks = true ->
  noWhite tok = true ->
  tok <> EmptyString ->
  rest = EmptyString \/ beginsWhite rest = true ->
  R2.fsTypeOf (String.concat EmptyString blanks ++ tok ++ rest)%string = tok
  /\ R2.fsTypeOf (String.concat EmptyString blanks) = EmptyString.
Proof.
  intros Hpre Htok Hne Hrest. unfold R2.fsTypeOf, Js.trim. split.
  - rewrite trimStart_blanks by exact Hpre.
    rewrite trimStart_word, trimEnd_word by assumption.
    unfold Js.splitWs.
    destruct (trimEnd_rest rest Hrest) as [-> | (w & r & Hw & ->)].
    + rewrite (splitWsFrom_word tok EmptyString)
        by (assumption || (left; reflexivity)).
      cbn. destruct tok; [contradiction Hne; reflexivity | reflexivity].
    + rewrite (splitWsFrom_word tok (w ++ r))
        by (assumption || (right; apply beginsWhite_app; exact Hw)).
      rewrite splitWsFrom_white by exact Hw.
      cbn. destruct tok; [contradiction Hne; reflexivity | reflexivity].
  - rewrite <- (sapp_nil_r (String.concat EmptyString blanks)).
    rewrite trimStart_blanks by exact Hpre. reflexivity.
Qed.

Lemma fsTypeOf_first_word_witness :
  R2.fsTypeOf (Js.bytes2 194 160 ++ "fuse.s3fs" ++ Js.bytes3 226 128 131 ++ "rw")%string
  = "fuse.s3fs"%string.
Proof.
  apply (fsTypeOf_first_word [Js.bytes2 194 160] "fuse.s3fs"
           (Js.bytes3 226 128 131 ++ "rw")%string).
  - reflexivity.
  - reflexivity.
  - discriminate.
  - right. reflexivity.
Defined.
